(** * jdump: a stream of JSON documents separated by a sentinel line

    A shallow embedding of [src/jdump.py] and the properties of its
    separator framer ([_reader]), stream reader ([DumpReader]), stream
    writer ([DumpWriter]), transactional opener ([DumpOpener]) and the
    two functions over whole files, [load] and [dump].

    Conventions of the embedding:
    - a Python [str] is a list of code points ([pystr]);
    - an exception is a value of [exn]; a call that may raise returns a
      [result]; a method that mutates its object returns the new object;
    - a generator over a finite input is the finite trace of what it
      yields, closed by how it ends ([generator]);
    - what the Python runtime provides and this file does not define
      (floats, [hash], [os.path.abspath]) is a [PyEnv]. *)

From Stdlib Require Import ZArith NArith List Ascii String Lia.
From Stdlib Require Import Decimal DecimalFacts DecimalPos DecimalN DecimalZ.
From stdpp Require Import base tactics option list gmap sorting.

Local Open Scope N_scope.
Set Warnings "-register-all".

(** ** Python strings *)

Module Py.

(** A character is its Unicode code point. *)
Definition pystr : Type := list N.

(** An ASCII literal as a Python string. *)
Definition str (s : string) : pystr := map N_of_ascii (list_ascii_of_string s).

Definition dquote : N := 34.
Definition backslash : N := 92.
Definition newline : N := 10.
Definition creturn : N := 13.

(** [c in chars] for a character. *)
Definition char_in (chars : pystr) (c : N) : bool := existsb (N.eqb c) chars.

(** [str.isspace] on one character: bidirectional type WS, B or S, or
    general category Zs (CPython's [_PyUnicode_IsWhitespace]). *)
Definition isspace (c : N) : bool :=
  ((9 <=? c) && (c <=? 13)) || ((28 <=? c) && (c <=? 32))
  || (c =? 133) || (c =? 160) || (c =? 5760)
  || ((8192 <=? c) && (c <=? 8202))
  || (c =? 8232) || (c =? 8233) || (c =? 8239) || (c =? 8287) || (c =? 12288).

(** [s.lstrip(...)] with the stripped characters given by a predicate. *)
Fixpoint lstrip_by (p : N -> bool) (s : pystr) : pystr :=
  match s with
  | [] => []
  | c :: s' => if p c then lstrip_by p s' else s
  end.

Definition rstrip_by (p : N -> bool) (s : pystr) : pystr :=
  rev (lstrip_by p (rev s)).

(** [s.rstrip(chars)] *)
Definition rstrip (s chars : pystr) : pystr := rstrip_by (char_in chars) s.

(** [s.strip()] *)
Definition strip (s : pystr) : pystr := rstrip_by isspace (lstrip_by isspace s).

(** [''.join(parts)] *)
Definition join (parts : list pystr) : pystr := concat parts.

(** [sep.join(parts)] *)
Fixpoint join_with (sep : pystr) (parts : list pystr) : pystr :=
  match parts with
  | [] => []
  | [x] => x
  | x :: rest => x ++ sep ++ join_with sep rest
  end.

(** [s.startswith(prefix)] *)
Fixpoint startswith (s prefix : pystr) {struct prefix} : bool :=
  match prefix, s with
  | [], _ => true
  | p :: prefix', c :: s' => (c =? p) && startswith s' prefix'
  | _ :: _, [] => false
  end.

(** [s.endswith(suffix)] *)
Definition endswith (s suffix : pystr) : bool := startswith (rev s) (rev suffix).

(** [sub in s] for strings: [sub] occurs in [s] as a substring. *)
Fixpoint contains (s sub : pystr) : bool :=
  startswith s sub ||
  match s with
  | [] => false
  | _ :: s' => contains s' sub
  end.

(** [s[:-n]] for [n > 0] *)
Definition drop_last (n : nat) (s : pystr) : pystr := take (length s - n) s.

(** [s < t] on [str]: lexicographic on code points. *)
Fixpoint str_ltb (s t : pystr) : bool :=
  match s, t with
  | _, [] => false
  | [], _ :: _ => true
  | a :: s', b :: t' => (a <? b) || ((a =? b) && str_ltb s' t')
  end.

(** [os.path.basename] (posixpath): what follows the last slash. *)
Definition basename (p : pystr) : pystr :=
  fold_left (fun acc c => if c =? 47 then [] else acc ++ [c]) p [].

(** Iterating a text stream opened with universal newlines (the default
    of [io.open] in text mode): each of [\n], [\r] and [\r\n] ends a line
    and is handed over as [\n]; a last line with no terminator is handed
    over as it is. [cur] is the line read so far. *)
Fixpoint readlines_from (cur : pystr) (text : pystr) : list pystr :=
  match text with
  | [] => match cur with [] => [] | _ => [cur] end
  | c :: text' =>
      if c =? newline then (cur ++ [newline]) :: readlines_from [] text'
      else if c =? creturn then
        match text' with
        | c' :: text'' =>
            if c' =? newline then (cur ++ [newline]) :: readlines_from [] text''
            else (cur ++ [newline]) :: readlines_from [] text'
        | [] => [cur ++ [newline]]
        end
      else readlines_from (cur ++ [c]) text'
  end.

Definition readlines (text : pystr) : list pystr := readlines_from [] text.

End Py.
Import Py.

(** ** Exceptions, results, generators *)

(** The exceptions this program raises or lets through. [IOError] is the
    one [DumpOpener] raises for a mode it does not support, [OSError]
    what reading a file that is not gzip through gzip raises
    ([BadGzipFile]); [ValueError] stands for its subclasses
    [UnicodeDecodeError] and [UnicodeEncodeError] too. *)
Inductive exn : Set :=
| AssertionError
| StopIteration
| JSONDecodeError
| ValueError
| IOError
| FileNotFoundError
| FileExistsError
| OSError
| AttributeError.

Inductive result (A : Type) : Type :=
| Ok (a : A)
| Err (e : exn).
Arguments Ok {A} a.
Arguments Err {A} e.

#[global] Instance result_ret : MRet result := fun A a => Ok a.
#[global] Instance result_bind : MBind result := fun A B f m =>
  match m with
  | Ok a => f a
  | Err e => Err e
  end.

(** The errors the specification calls FormatError: malformed framing
    (the assertion of [_reader]), malformed JSON, a value that cannot be
    encoded. *)
Definition is_FormatError (e : exn) : bool :=
  match e with
  | AssertionError | JSONDecodeError | ValueError => true
  | _ => false
  end.

(** A generator over a finite input: what it yields, in order, and how
    it ends ([Return]: exhausted, the next pull raises [StopIteration];
    [Raise e]: the next pull raises [e]). *)
Inductive generator (A : Type) : Type :=
| Yield (x : A) (rest : generator A)
| Return
| Raise (e : exn).
Arguments Yield {A} x rest.
Arguments Return {A}.
Arguments Raise {A} e.

(** [next(g)]: the value or the exception, and the generator afterwards.
    A generator that raised is finished. *)
Definition next {A} (g : generator A) : result A * generator A :=
  match g with
  | Yield x rest => (Ok x, rest)
  | Return => (Err StopIteration, Return)
  | Raise e => (Err e, Return)
  end.

Fixpoint gen_items {A} (g : generator A) : list A :=
  match g with
  | Yield x rest => x :: gen_items rest
  | _ => []
  end.

(** How the generator ends once everything it yields has been pulled. *)
Fixpoint gen_end {A} (g : generator A) : option exn :=
  match g with
  | Yield _ rest => gen_end rest
  | Return => None
  | Raise e => Some e
  end.

(** ** The separator framer: [_reader] (jdump.py, lines 9-23) *)

Definition default_separator : pystr := str "--".

(** [line.rstrip('\r\n') == separator]: the line is a sentinel line. *)
Definition is_separator (separator line : pystr) : bool :=
  bool_decide (rstrip line [creturn; newline] = separator).

(** The loop of [_reader], [json_buffer] being the lines since the last
    sentinel; past the loop, the assertion that no data was dropped. *)
Fixpoint _reader_loop (separator : pystr) (file_obj : list pystr)
    (json_buffer : list pystr) : generator (list pystr) :=
  match file_obj with
  | line :: file_obj' =>
      if negb (is_separator separator line)
      then _reader_loop separator file_obj' (json_buffer ++ [line])
      else Yield json_buffer (_reader_loop separator file_obj' [])
  | [] =>
      if bool_decide (strip (join json_buffer) = [])
      then Return
      else Raise AssertionError
  end.

Definition _reader (file_obj : list pystr) (separator : pystr)
    : generator (list pystr) :=
  _reader_loop separator file_obj [].

(** ** What the Python runtime provides *)

(** Floats, the builtin [hash] on [str] and [os.path.abspath] are kept
    abstract: a binary64 value with its shortest [repr], the process's
    seeded string hash and the current directory are not modelled. *)
Class PyEnv : Type := {
  pyfloat : Type;
  (** [float.__repr__] *)
  float_repr : pyfloat -> pystr;
  (** [float(text)] on a numeric literal, [nan], [inf] or [-inf] *)
  float_of_str : pystr -> pyfloat;
  (** neither a NaN nor an infinity *)
  float_isfinite : pyfloat -> bool;
  (** [hash(text)] *)
  hash : pystr -> Z;
  (** [os.path.abspath(path)] *)
  abspath : pystr -> pystr;
}.

(** A small runtime to run the model on: four floats, the string hash of
    CPython 2 (multiply by 1000003, xor, 64 bits), paths taken as
    absolute. *)
Inductive sample_float : Set := F_zero | F_half | F_inf | F_nan.

Definition sample_float_repr (f : sample_float) : pystr :=
  match f with
  | F_zero => str "0.0"
  | F_half => str "0.5"
  | F_inf => str "inf"
  | F_nan => str "nan"
  end.

Definition sample_float_of_str (s : pystr) : sample_float :=
  if bool_decide (s = str "0.5") then F_half
  else if bool_decide (s = str "inf") then F_inf
  else if bool_decide (s = str "nan") then F_nan
  else F_zero.

Definition sample_float_isfinite (f : sample_float) : bool :=
  match f with
  | F_zero | F_half => true
  | F_inf | F_nan => false
  end.

Definition sample_hash (s : pystr) : Z :=
  match s with
  | [] => 0%Z
  | c :: _ =>
      let step (x : Z) (c : N) : Z :=
        (Z.lxor (1000003 * x) (Z.of_N c) mod 2 ^ 64)%Z in
      Z.lxor (fold_left step s (Z.shiftl (Z.of_N c) 7)) (Z.of_nat (length s))
  end.

Definition sample_env : PyEnv := {|
  pyfloat := sample_float;
  float_repr := sample_float_repr;
  float_of_str := sample_float_of_str;
  float_isfinite := sample_float_isfinite;
  hash := sample_hash;
  abspath := fun p => p;
|}.

(** ** JSON documents and the [json] module *)

Module json.
Section WithEnv.

Context {env : PyEnv}.

(** What [json.loads] returns and [json.dumps] takes: [None], [bool],
    [int], [float], [str], [list], and [dict] with [str] keys, kept in
    insertion order (no key twice: see [dict_ok]). *)
Inductive value : Type :=
| JNull
| JBool (b : bool)
| JInt (z : Z)
| JFloat (f : pyfloat)
| JStr (s : pystr)
| JList (items : list value)
| JDict (items : list (pystr * value)).

(** The invariant of a Python [dict]: no key occurs twice. *)
Fixpoint dict_ok (o : value) : bool :=
  match o with
  | JList items => forallb dict_ok items
  | JDict items =>
      bool_decide (NoDup (map fst items))
      && forallb (fun kv => dict_ok (snd kv)) items
  | _ => true
  end.

(** Only finite numbers: what [allow_nan=False] asks of every float. *)
Fixpoint isfinite (o : value) : bool :=
  match o with
  | JFloat f => float_isfinite f
  | JList items => forallb isfinite items
  | JDict items => forallb (fun kv => isfinite (snd kv)) items
  | _ => true
  end.

(** [d[k]], if any *)
Fixpoint dict_get {A} (k : pystr) (d : list (pystr * A)) : option A :=
  match d with
  | [] => None
  | (k', v) :: d' => if bool_decide (k = k') then Some v else dict_get k d'
  end.

(** [d[k] = v]: a key already there keeps its place. *)
Fixpoint dict_set {A} (k : pystr) (v : A) (d : list (pystr * A))
    : list (pystr * A) :=
  match d with
  | [] => [(k, v)]
  | (k', v') :: d' =>
      if bool_decide (k = k') then (k, v) :: d' else (k', v') :: dict_set k v d'
  end.

(** [dict(pairs)] *)
Definition dict_of_pairs {A} (pairs : list (pystr * A)) : list (pystr * A) :=
  fold_left (fun d kv => dict_set (fst kv) (snd kv) d) pairs [].

(** [sorted(d.items())] for [str] keys: a stable insertion sort on the
    key. *)
Fixpoint insert_item {A} (kv : pystr * A) (l : list (pystr * A))
    : list (pystr * A) :=
  match l with
  | [] => [kv]
  | kv' :: l' =>
      if str_ltb (fst kv') (fst kv) then kv' :: insert_item kv l' else kv :: l
  end.

Definition sort_items {A} (l : list (pystr * A)) : list (pystr * A) :=
  fold_right insert_item [] l.

(** The document with the keys of every [dict] in sorted order. *)
Fixpoint sort_keys (o : value) : value :=
  match o with
  | JList items => JList (map sort_keys items)
  | JDict items =>
      JDict (sort_items (map (fun kv => (fst kv, sort_keys (snd kv))) items))
  | _ => o
  end.

(** [a == b] on documents, as far as this file needs it: equal scalars
    of one type (floats finite), lists equal item by item, dicts of one
    size whose every key of [a] is a key of [b] with an equal value
    (CPython's [dict_equal]). Python also equates [1], [1.0] and [True];
    this relation does not, so it implies [==] and is not implied by
    it. *)
Inductive py_eq : value -> value -> Prop :=
| eq_null : py_eq JNull JNull
| eq_bool (b : bool) : py_eq (JBool b) (JBool b)
| eq_int (z : Z) : py_eq (JInt z) (JInt z)
| eq_float (f : pyfloat) : float_isfinite f = true -> py_eq (JFloat f) (JFloat f)
| eq_str (s : pystr) : py_eq (JStr s) (JStr s)
| eq_list (xs ys : list value) :
    Forall2 py_eq xs ys -> py_eq (JList xs) (JList ys)
| eq_dict (xs ys : list (pystr * value)) :
    length xs = length ys ->
    Forall (fun kv => exists v', dict_get (fst kv) ys = Some v'
                                 /\ py_eq (snd kv) v') xs ->
    py_eq (JDict xs) (JDict ys).

(** *** Encoding: [json.dumps(obj, indent=.., sort_keys=True,
    ensure_ascii=False, allow_nan=False)] *)

Definition hexdigit (n : N) : N := if n <? 10 then 48 + n else 87 + n.

(** [ESCAPE_DCT]: the replacement of a character [encode_basestring]
    escapes (the quote, the backslash and everything below U+0020). *)
Definition escape_char (c : N) : pystr :=
  if c =? dquote then [backslash; dquote]
  else if c =? backslash then [backslash; backslash]
  else if c =? newline then [backslash; 110]
  else if c =? creturn then [backslash; 114]
  else if c =? 9 then [backslash; 116]
  else if c =? 8 then [backslash; 98]
  else if c =? 12 then [backslash; 102]
  else if c <? 32 then [backslash; 117; 48; 48; hexdigit (c / 16); hexdigit (c mod 16)]
  else [c].

(** [encode_basestring]: the string between quotes, escaped; characters
    outside ASCII are kept as they are. *)
Definition encode_basestring (s : pystr) : pystr :=
  dquote :: flat_map escape_char s ++ [dquote].

Fixpoint uint_chars (u : Decimal.uint) : pystr :=
  match u with
  | Nil => []
  | D0 u => 48 :: uint_chars u
  | D1 u => 49 :: uint_chars u
  | D2 u => 50 :: uint_chars u
  | D3 u => 51 :: uint_chars u
  | D4 u => 52 :: uint_chars u
  | D5 u => 53 :: uint_chars u
  | D6 u => 54 :: uint_chars u
  | D7 u => 55 :: uint_chars u
  | D8 u => 56 :: uint_chars u
  | D9 u => 57 :: uint_chars u
  end.

(** [int.__repr__]: decimal digits, a minus sign before a negative. *)
Definition int_repr (z : Z) : pystr :=
  match Z.to_int z with
  | Decimal.Pos u => uint_chars u
  | Decimal.Neg u => 45 :: uint_chars u
  end.

(** ['\n' + indent * level], or nothing when [indent] is [None]. *)
Definition newline_indent (indent : option pystr) (level : nat) : pystr :=
  match indent with
  | None => []
  | Some ind => newline :: concat (replicate level ind)
  end.

Definition key_separator : pystr := str ": ".

(** [_iterencode], its chunks concatenated. A list or dict with nothing
    in it is [[]] or [{}]; otherwise its items follow the opening
    bracket, each on a line of its own when [indent] is given. *)
Fixpoint iterencode (indent : option pystr) (item_separator : pystr)
    (level : nat) (o : value) : pystr :=
  let nl := newline_indent indent (S level) in
  match o with
  | JNull => str "null"
  | JBool true => str "true"
  | JBool false => str "false"
  | JInt z => int_repr z
  | JFloat f => float_repr f
  | JStr s => encode_basestring s
  | JList [] => str "[]"
  | JList items =>
      [91] ++ nl
      ++ join_with (item_separator ++ nl)
           (map (iterencode indent item_separator (S level)) items)
      ++ newline_indent indent level ++ [93]
  | JDict [] => str "{}"
  | JDict items =>
      [123] ++ nl
      ++ join_with (item_separator ++ nl)
           (map (fun kv => encode_basestring (fst kv) ++ key_separator ++ snd kv)
              (sort_items
                 (map (fun kv =>
                         (fst kv, iterencode indent item_separator (S level) (snd kv)))
                    items)))
      ++ newline_indent indent level ++ [125]
  end.

(** [JSONEncoder.__init__]: an integer [indent] stands for that many
    spaces (none when negative); items are separated by [", "] without
    [indent] and by [","] with it. *)
Definition indent_str (indent : option Z) : option pystr :=
  fmap (M := option) (fun n => replicate (Z.to_nat n) 32) indent.

Definition item_sep (indent : option Z) : pystr :=
  match indent with None => str ", " | Some _ => str "," end.

(** [json.dumps]. A float that is not finite raises [ValueError]. *)
Definition dumps (obj : value) (indent : option Z) : result pystr :=
  if isfinite obj then Ok (iterencode (indent_str indent) (item_sep indent) 0 obj)
  else Err ValueError.


(** *** Decoding: [json.loads] *)

(** The characters [WHITESPACE] skips: space, tab, newline, return. *)
Definition is_ws (c : N) : bool := (c =? 32) || (c =? 9) || (c =? 10) || (c =? 13).

Definition skip_ws (s : pystr) : pystr := lstrip_by is_ws s.

Definition is_digit (c : N) : bool := (48 <=? c) && (c <=? 57).

Definition hexval (c : N) : option N :=
  if is_digit c then Some (c - 48)
  else if (97 <=? c) && (c <=? 102) then Some (c - 87)
  else if (65 <=? c) && (c <=? 70) then Some (c - 55)
  else None.

(** [_decode_uXXXX]: four hexadecimal digits. *)
Definition decode_uXXXX (a b c d : N) : option N :=
  ha ← hexval a; hb ← hexval b; hc ← hexval c; hd ← hexval d;
  Some (((ha * 16 + hb) * 16 + hc) * 16 + hd).

(** [BACKSLASH]: what a one-letter escape stands for. *)
Definition unescape_char (esc : N) : option N :=
  if esc =? dquote then Some dquote
  else if esc =? backslash then Some backslash
  else if esc =? 47 then Some 47
  else if esc =? 98 then Some 8
  else if esc =? 102 then Some 12
  else if esc =? 110 then Some newline
  else if esc =? 114 then Some creturn
  else if esc =? 116 then Some 9
  else None.

Definition is_high_surrogate (u : N) : bool := (55296 <=? u) && (u <=? 56319).
Definition is_low_surrogate (u : N) : bool := (56320 <=? u) && (u <=? 57343).
Definition join_surrogates (hi lo : N) : N :=
  65536 + N.lor (N.shiftl (hi - 55296) 10) (lo - 56320).

Definition prepend (c : N) (r : pystr * pystr) : pystr * pystr := (c :: fst r, snd r).

(** [py_scanstring] in strict mode, from after the opening quote: the
    string and what follows its closing quote. [None]: unterminated, a
    control character, or an invalid escape. *)
Fixpoint py_scanstring (s : pystr) : option (pystr * pystr) :=
  match s with
  | [] => None
  | c :: s1 =>
      if c =? dquote then Some ([], s1)
      else if c =? backslash then
        match s1 with
        | [] => None
        | esc :: s2 =>
            if esc =? 117 then
              match s2 with
              | h1 :: h2 :: h3 :: h4 :: s3 =>
                  match decode_uXXXX h1 h2 h3 h4 with
                  | None => None
                  | Some uni =>
                      let single := prepend uni <$> py_scanstring s3 in
                      if is_high_surrogate uni then
                        match s3 with
                        | b :: u :: g1 :: g2 :: g3 :: g4 :: s4 =>
                            if (b =? backslash) && (u =? 117) then
                              match decode_uXXXX g1 g2 g3 g4 with
                              | None => None
                              | Some uni2 =>
                                  if is_low_surrogate uni2
                                  then prepend (join_surrogates uni uni2)
                                         <$> py_scanstring s4
                                  else single
                              end
                            else single
                        | b :: u :: _ =>
                            if (b =? backslash) && (u =? 117) then None else single
                        | _ => single
                        end
                      else single
                  end
              | _ => None
              end
            else
              match unescape_char esc with
              | None => None
              | Some ch => prepend ch <$> py_scanstring s2
              end
        end
      else if c <? 32 then None
      else prepend c <$> py_scanstring s1
  end.

(** The digits [s] starts with, and the rest. *)
Fixpoint span_digits (s : pystr) : pystr * pystr :=
  match s with
  | [] => ([], [])
  | c :: s' =>
      if is_digit c then (c :: fst (span_digits s'), snd (span_digits s'))
      else ([], s)
  end.

(** What [NUMBER_RE] matched: an integer (its sign and digits) or the
    text of a float. *)
Inductive number : Type :=
| NumInt (negative : bool) (digits : pystr)
| NumFloat (text : pystr).

(** The integer part: a zero, or a digit from 1 to 9 and any digits. *)
Definition match_integer (s : pystr) : option (pystr * pystr) :=
  match s with
  | [] => None
  | c :: s' =>
      if c =? 48 then Some ([48], s')
      else if is_digit c then Some (c :: fst (span_digits s'), snd (span_digits s'))
      else None
  end.

(** The optional fraction, a dot and digits: what it matched (nothing,
    maybe) and the rest. *)
Definition match_frac (s : pystr) : pystr * pystr :=
  match s with
  | [] => ([], s)
  | dot :: s' =>
      if dot =? 46 then
        match span_digits s' with
        | ([], _) => ([], s)
        | (ds, rest) => (dot :: ds, rest)
        end
      else ([], s)
  end.

(** The optional exponent: [e] or [E], a sign maybe, digits. *)
Definition match_exp (s : pystr) : pystr * pystr :=
  match s with
  | [] => ([], s)
  | e :: s' =>
      if (e =? 101) || (e =? 69) then
        match s' with
        | [] => ([], s)
        | sign :: s'' =>
            if (sign =? 45) || (sign =? 43) then
              match span_digits s'' with
              | ([], _) => ([], s)
              | (ds, rest) => (e :: sign :: ds, rest)
              end
            else
              match span_digits s' with
              | ([], _) => ([], s)
              | (ds, rest) => (e :: ds, rest)
              end
        end
      else ([], s)
  end.

(** [NUMBER_RE.match]: a minus sign maybe, the integer part, the
    optional fraction and exponent. A fraction or an exponent makes the
    number a float. *)
Definition match_number (s : pystr) : option (number * pystr) :=
  let '(negative, s1) :=
    match s with
    | c :: s' => if c =? 45 then (true, s') else (false, s)
    | [] => (false, s)
    end in
  match match_integer s1 with
  | None => None
  | Some (digits, s2) =>
      let '(frac, s3) := match_frac s2 in
      let '(exp, s4) := match_exp s3 in
      match frac, exp with
      | [], [] => Some (NumInt negative digits, s4)
      | _, _ =>
          Some (NumFloat ((if negative then [45] else []) ++ digits ++ frac ++ exp), s4)
      end
  end.

Definition digit_cons (c : N) (u : Decimal.uint) : Decimal.uint :=
  if c =? 48 then D0 u else if c =? 49 then D1 u else if c =? 50 then D2 u
  else if c =? 51 then D3 u else if c =? 52 then D4 u else if c =? 53 then D5 u
  else if c =? 54 then D6 u else if c =? 55 then D7 u else if c =? 56 then D8 u
  else D9 u.

Definition uint_of_digits (digits : pystr) : Decimal.uint :=
  fold_right digit_cons Nil digits.

(** [int(text)] for the integer [NUMBER_RE] matched. *)
Definition int_of_digits (negative : bool) (digits : pystr) : Z :=
  Z.of_int (if negative then Decimal.Neg (uint_of_digits digits)
            else Decimal.Pos (uint_of_digits digits)).

(** [scan_once] with [JSONArray] and [JSONObject]. Each call and each
    turn of their loops takes one unit of [fuel]; [loads] gives more
    than the text is long, and every call consumes a character. [None]:
    the text is not JSON here. *)
Fixpoint scan_once (fuel : nat) (s : pystr) {struct fuel} : option (value * pystr) :=
  match fuel with
  | O => None
  | S fuel =>
      match s with
      | [] => None
      | c :: s1 =>
          if c =? dquote then
            r ← py_scanstring s1; Some (JStr (fst r), snd r)
          else if c =? 123 then
            match skip_ws s1 with
            | [] => None
            | c2 :: s2 =>
                if c2 =? 125 then Some (JDict [], s2)
                else if c2 =? dquote then JSONObject_loop fuel s2 []
                else None
            end
          else if c =? 91 then
            match skip_ws s1 with
            | [] => None
            | c2 :: s2 =>
                if c2 =? 93 then Some (JList [], s2)
                else JSONArray_loop fuel (c2 :: s2) []
            end
          else if startswith s (str "null") then Some (JNull, drop 4 s)
          else if startswith s (str "true") then Some (JBool true, drop 4 s)
          else if startswith s (str "false") then Some (JBool false, drop 5 s)
          else
            match match_number s with
            | Some (NumInt negative digits, rest) =>
                Some (JInt (int_of_digits negative digits), rest)
            | Some (NumFloat text, rest) => Some (JFloat (float_of_str text), rest)
            | None =>
                if startswith s (str "NaN")
                then Some (JFloat (float_of_str (str "nan")), drop 3 s)
                else if startswith s (str "Infinity")
                then Some (JFloat (float_of_str (str "inf")), drop 8 s)
                else if startswith s (str "-Infinity")
                then Some (JFloat (float_of_str (str "-inf")), drop 9 s)
                else None
            end
      end
  end

(** The loop of [JSONObject], [s] being what follows the opening quote
    of a key and [pairs] the items read so far. *)
with JSONObject_loop (fuel : nat) (s : pystr) (pairs : list (pystr * value))
    {struct fuel} : option (value * pystr) :=
  match fuel with
  | O => None
  | S fuel =>
      match py_scanstring s with
      | None => None
      | Some (key, r1) =>
          match skip_ws r1 with
          | [] => None
          | colon :: r2 =>
              if colon =? 58 then
                match scan_once fuel (skip_ws r2) with
                | None => None
                | Some (v, r3) =>
                    let pairs' := pairs ++ [(key, v)] in
                    match skip_ws r3 with
                    | [] => None
                    | c :: r4 =>
                        if c =? 125 then Some (JDict (dict_of_pairs pairs'), r4)
                        else if c =? 44 then
                          match skip_ws r4 with
                          | [] => None
                          | q :: r5 =>
                              if q =? dquote then JSONObject_loop fuel r5 pairs'
                              else None
                          end
                        else None
                    end
                end
              else None
          end
      end
  end

(** The loop of [JSONArray], [s] being where the next value starts. *)
with JSONArray_loop (fuel : nat) (s : pystr) (values : list value)
    {struct fuel} : option (value * pystr) :=
  match fuel with
  | O => None
  | S fuel =>
      match scan_once fuel s with
      | None => None
      | Some (v, r) =>
          let values' := values ++ [v] in
          match skip_ws r with
          | [] => None
          | c :: r2 =>
              if c =? 93 then Some (JList values', r2)
              else if c =? 44 then JSONArray_loop fuel (skip_ws r2) values'
              else None
          end
      end
  end.

(** [json.loads(s)]: one value with whitespace around it; a byte order
    mark, anything that is not JSON, or more text after the value raise
    [JSONDecodeError]. *)
Definition loads (s : pystr) : result value :=
  if startswith s [65279] then Err JSONDecodeError
  else
    match scan_once (S (length s)) (skip_ws s) with
    | None => Err JSONDecodeError
    | Some (obj, rest) =>
        match skip_ws rest with
        | [] => Ok obj
        | _ :: _ => Err JSONDecodeError
        end
    end.

End WithEnv.
End json.

(** ** The stream reader: [DumpReader] (jdump.py, lines 26-65) *)

Module DumpReader.
Section WithEnv.

Context {env : PyEnv}.

(** The attributes of a reader. [self_reader] is [self._reader], the
    framer over the lines of [f]; the lines still to come live in it, so
    [self.file_obj] has no field of its own. *)
Record t : Type := {
  self_reader : generator (list pystr);
  obj_num : Z;
  close : bool;
  seen : option (gset Z);
}.

(** [DumpReader(f, separator, unique, close)], [f] given by the lines
    iterating it hands over. *)
Definition __init__ (f : list pystr) (separator : pystr) (unique : bool)
    (close : bool) : t :=
  {| self_reader := _reader f separator;
     obj_num := 0;
     close := close;
     seen := if unique then Some ∅ else None |}.

(** [hash(json.dumps(json_obj, sort_keys=True, ensure_ascii=False,
    allow_nan=False))] *)
Definition canonical_hash (json_obj : json.value) : result Z :=
  text ← json.dumps json_obj None; mret (hash text).

(** [json.loads(''.join(next(self._reader)))] and the generator after
    the pull. *)
Definition load_next (g : generator (list pystr))
    : result json.value * generator (list pystr) :=
  let '(chunk, g') := next g in
  (chunk ≫= fun lines => json.loads (join lines), g').

(** The loop [while json_hash in self.seen] of [__next__]: documents
    whose hash was seen are dropped and the next chunk is pulled. *)
Fixpoint skip_seen (seen : gset Z) (g : generator (list pystr))
    (json_obj : json.value) (json_hash : Z) {struct g}
    : result (json.value * Z) * generator (list pystr) :=
  if bool_decide (json_hash ∈ seen) then
    match g with
    | Yield chunk g' =>
        match json.loads (join chunk) with
        | Err e => (Err e, g')
        | Ok json_obj' =>
            match canonical_hash json_obj' with
            | Err e => (Err e, g')
            | Ok json_hash' => skip_seen seen g' json_obj' json_hash'
            end
        end
    | Return => (Err StopIteration, Return)
    | Raise e => (Err e, Return)
    end
  else (Ok (json_obj, json_hash), g).

Definition with_reader (self : t) (g : generator (list pystr)) : t :=
  {| self_reader := g; obj_num := obj_num self; close := close self;
     seen := seen self |}.

(** [next(self)]: the document or the exception, and the reader
    afterwards. An exception leaves the count and the seen hashes as
    they were; the chunks pulled are gone. *)
Definition __next__ (self : t) : result json.value * t :=
  match load_next (self_reader self) with
  | (Err e, g) => (Err e, with_reader self g)
  | (Ok json_obj, g) =>
      match seen self with
      | None =>
          (Ok json_obj,
           {| self_reader := g; obj_num := obj_num self + 1;
              close := close self; seen := None |})
      | Some hashes =>
          match canonical_hash json_obj with
          | Err e => (Err e, with_reader self g)
          | Ok json_hash =>
              match skip_seen hashes g json_obj json_hash with
              | (Err e, g') => (Err e, with_reader self g')
              | (Ok (json_obj', json_hash'), g') =>
                  (Ok json_obj',
                   {| self_reader := g'; obj_num := obj_num self + 1;
                      close := close self;
                      seen := Some ({[json_hash']} ∪ hashes) |})
              end
          end
      end
  end.

(** At most [turns] pulls, stopping at [StopIteration]; any other
    exception passes through and the documents read so far are lost. *)
Fixpoint read_loop (turns : nat) (self : t) (ret : list json.value)
    : result (list json.value) * t :=
  match turns with
  | O => (Ok ret, self)
  | S turns' =>
      match __next__ self with
      | (Ok obj, self') => read_loop turns' self' (ret ++ [obj])
      | (Err StopIteration, self') => (Ok ret, self')
      | (Err e, self') => (Err e, self')
      end
  end.

(** [self.read(n)]: [n] pulls at most when [n >= 0]; otherwise [for obj
    in self], which ends at the pull that raises: one pull more than the
    generator has chunks left is always enough. *)
Definition read (self : t) (n : Z) : result (list json.value) * t :=
  if (0 <=? n)%Z then read_loop (Z.to_nat n) self []
  else read_loop (S (length (gen_items (self_reader self)))) self [].

End WithEnv.
End DumpReader.

(** ** The stream writer: [DumpWriter] (jdump.py, lines 68-101) *)

(** A character [utf8] can encode: a code point that is no surrogate. *)
Definition utf8_char (c : N) : bool :=
  (c <? 55296) || ((57343 <? c) && (c <=? 1114111)).

Definition utf8_text (text : pystr) : bool := forallb utf8_char text.

(** What a writer is handed as [f], given by what has been written to
    it: a text stream that takes any text ([TextFile], an
    [io.StringIO]); a text stream over a file opened with
    [encoding='utf8'] ([Utf8File]), as [DumpOpener] opens its files; or
    (as [DumpOpener] can do) the value [True], which has no [write]. *)
Inductive file_like : Type :=
| TextFile (written : pystr)
| Utf8File (written : pystr)
| PyTrue.

(** [f.write(text)]. A text [utf8] cannot encode raises
    [UnicodeEncodeError] and nothing of it is written. *)
Definition file_write (f : file_like) (text : pystr) : result file_like :=
  match f with
  | TextFile written => Ok (TextFile (written ++ text))
  | Utf8File written =>
      if utf8_text text then Ok (Utf8File (written ++ text)) else Err ValueError
  | PyTrue => Err AttributeError
  end.

Module DumpWriter.
Section WithEnv.

Context {env : PyEnv}.

Record t : Type := {
  separator_blob : pystr;
  file_obj : file_like;
  obj_num : Z;
  close : bool;
  indent : option Z;
  seen : option (gset Z);
}.

(** [DumpWriter(f, separator, unique, indent)] *)
Definition __init__ (f : file_like) (separator : pystr) (unique : bool)
    (indent : option Z) : t :=
  {| separator_blob := [newline] ++ separator ++ [newline];
     file_obj := f;
     obj_num := 0;
     close := false;
     indent := indent;
     seen := if unique then Some ∅ else None |}.

(** The last two statements of [write] and its [return True], once the
    document passed the seen-set ([hashes] is the set to go on with). *)
Definition emit (self : t) (hashes : option (gset Z)) (formatted_json : pystr)
    : result bool * t :=
  match file_write (file_obj self) (formatted_json ++ separator_blob self) with
  | Err e =>
      (Err e,
       {| separator_blob := separator_blob self; file_obj := file_obj self;
          obj_num := obj_num self; close := close self; indent := indent self;
          seen := hashes |})
  | Ok f' =>
      (Ok true,
       {| separator_blob := separator_blob self; file_obj := f';
          obj_num := obj_num self + 1; close := close self;
          indent := indent self; seen := hashes |})
  end.

(** [self.write(json_obj)] *)
Definition write (self : t) (json_obj : json.value) : result bool * t :=
  match json.dumps json_obj (indent self) with
  | Err e => (Err e, self)
  | Ok formatted_json =>
      match seen self with
      | Some hashes =>
          let json_hash := hash formatted_json in
          if bool_decide (json_hash ∈ hashes) then (Ok false, self)
          else emit self (Some ({[json_hash]} ∪ hashes)) formatted_json
      | None => emit self None formatted_json
      end
  end.

(** [self.writemany(json_iterator)]: the number of documents written;
    the first exception ends it. *)
Fixpoint writemany (self : t) (json_iterator : list json.value)
    : result Z * t :=
  match json_iterator with
  | [] => (Ok 0%Z, self)
  | obj :: rest =>
      match write self obj with
      | (Err e, self') => (Err e, self')
      | (Ok written, self') =>
          match writemany self' rest with
          | (Err e, self'') => (Err e, self'')
          | (Ok n, self'') => (Ok ((if written then 1 else 0) + n)%Z, self'')
          end
      end
  end.

End WithEnv.
End DumpWriter.

(** ** Files *)

Inductive transport : Set := Plain | Gzip.

(** What a file holds: text (encoded as UTF-8), text compressed as gzip
    members, or both kinds after one another ([Mixed], told apart by how
    the file starts), which no reader of this program can read. An empty
    file is [PlainText []]. *)
Inductive file_data : Type :=
| PlainText (text : pystr)
| GzipText (text : pystr)
| Mixed (first : transport).

Inductive open_mode : Set := RB | RT | AT | WT | WB.

(** The calls that open, remove or rename a file, in the order made
    ([gzip]: through [gzip.open] or [gzip.GzipFile]). *)
Inductive io_event : Type :=
| EvOpen (path : pystr) (mode : open_mode) (gzip : bool)
| EvRemove (path : pystr)
| EvRename (src dst : pystr).

(** The file system, a flat map from absolute paths to what the files
    hold, and the log of calls. Directories and permissions are not
    modelled: any path can be created. *)
Record world : Type := {
  fs : gmap pystr file_data;
  log : list io_event;
}.

(** [os.path.exists(path)] *)
Definition os_path_exists (path : pystr) (w : world) : bool :=
  bool_decide (is_Some (fs w !! path)).

(** [os.remove(path)] *)
Definition os_remove (path : pystr) (w : world) : result unit * world :=
  match fs w !! path with
  | None => (Err FileNotFoundError, w)
  | Some _ =>
      (Ok tt, {| fs := delete path (fs w); log := log w ++ [EvRemove path] |})
  end.

(** [os.rename(src, dst)] (POSIX: an existing [dst] is replaced) *)
Definition os_rename (src dst : pystr) (w : world) : result unit * world :=
  match fs w !! src with
  | None => (Err FileNotFoundError, w)
  | Some data =>
      (Ok tt,
       {| fs := <[dst := data]> (delete src (fs w));
          log := log w ++ [EvRename src dst] |})
  end.

(** An open file: its path, the mode and whether gzip is in between. *)
Record handle : Type := {
  h_path : pystr;
  h_mode : open_mode;
  h_gzip : bool;
}.

(** [_open(path, mode=..)] with [_open] one of [io.open] and
    [gzip.open]: reading needs the file; appending creates a missing
    one; writing creates the file or empties it. *)
Definition open_file (path : pystr) (mode : open_mode) (gzip : bool) (w : world)
    : result handle * world :=
  let h := {| h_path := path; h_mode := mode; h_gzip := gzip |} in
  let logged := log w ++ [EvOpen path mode gzip] in
  match mode, fs w !! path with
  | (RB | RT), None => (Err FileNotFoundError, w)
  | (RB | RT), Some _ => (Ok h, {| fs := fs w; log := logged |})
  | AT, Some _ => (Ok h, {| fs := fs w; log := logged |})
  | AT, None => (Ok h, {| fs := <[path := PlainText []]> (fs w); log := logged |})
  | (WT | WB), _ => (Ok h, {| fs := <[path := PlainText []]> (fs w); log := logged |})
  end.

(** [f.read(2) == b'\x1f\x8b'] on a file opened as [rb]: the file starts
    with a gzip member. UTF-8 text never starts with these two bytes. *)
Definition starts_with_gzip_magic (data : file_data) : bool :=
  match data with
  | GzipText _ => true
  | Mixed Gzip => true
  | _ => false
  end.

(** What iterating a file opened for reading hands over: its lines, or
    an error at the first read when the file is not of the kind it was
    opened as. *)
Definition lines_of (gzip : bool) (data : file_data) : result (list pystr) :=
  match data, gzip with
  | PlainText text, false => Ok (readlines text)
  | GzipText text, true => Ok (readlines text)
  | PlainText [], true => Ok []
  | _, false => Err ValueError
  | _, true => Err OSError
  end.

(** A file after text was appended to it as plain text or as one more
    gzip member. *)
Definition append_data (gzip : bool) (old : file_data) (written : pystr)
    : file_data :=
  match old, gzip with
  | PlainText text, false => PlainText (text ++ written)
  | PlainText [], true => GzipText written
  | PlainText _, true => Mixed Plain
  | GzipText text, true => GzipText (text ++ written)
  | GzipText text, false =>
      match written with [] => GzipText text | _ => Mixed Gzip end
  | Mixed first, _ => Mixed first
  end.

(** Closing a file that [written] went to: the text reaches the file
    system. *)
Definition close_file (h : handle) (written : pystr) (w : world) : world :=
  match h_mode h with
  | RB | RT => w
  | AT =>
      let old := default (PlainText []) (fs w !! h_path h) in
      {| fs := <[h_path h := append_data (h_gzip h) old written]> (fs w);
         log := log w |}
  | WT | WB =>
      {| fs := <[h_path h := if h_gzip h then GzipText written
                              else PlainText written]> (fs w);
         log := log w |}
  end.

(** ** The transactional opener: [DumpOpener] (jdump.py, lines 104-204) *)

Module DumpOpener.
Section WithEnv.

Context {env : PyEnv}.

(** [self.rw_obj] *)
Inductive rw : Type :=
| Reader (r : DumpReader.t)
| Writer (wr : DumpWriter.t).

(** [self.gz]: [None], the value [True] (set from the file name), or
    the text wrapper over a [GzipFile]. *)
Inductive gz_attr : Set := GzNone | GzTrue | GzWrapper.

Record t : Type := {
  mode : pystr;
  path : pystr;
  temp_path : option pystr;
  file_obj : handle;
  gz : gz_attr;
  rw_obj : rw;
}.

(** Lines 120-145: read and append mode. [gz] is the caller's override
    ([None], [True] or [False]). *)
Definition init_read_append (mode path : pystr) (gz : option bool)
    (unique : bool) (w : world) : result t * world :=
  (* determine whether to use gzip *)
  let sniffed : result bool * world :=
    match gz with
    | None =>
        match open_file path RB false w with
        | (Err e, w') => (Err e, w')
        | (Ok _, w') =>
            (Ok (starts_with_gzip_magic (default (PlainText []) (fs w' !! path))),
             w')
        end
    | Some b => (Ok b, w)
    end in
  match sniffed with
  | (Err e, w1) => (Err e, w1)
  | (Ok use_gzip, w1) =>
      (* create file obj and reader/writer *)
      if bool_decide (mode = str "r") then
        match open_file path RT use_gzip w1 with
        | (Err e, w2) => (Err e, w2)
        | (Ok h, w2) =>
            let reader :=
              match lines_of use_gzip (default (PlainText []) (fs w2 !! path)) with
              | Ok lines => DumpReader.__init__ lines default_separator unique false
              | Err e =>
                  {| DumpReader.self_reader := Raise e;
                     DumpReader.obj_num := 0;
                     DumpReader.close := false;
                     DumpReader.seen := if unique then Some ∅ else None |}
              end in
            (Ok {| mode := mode; path := path; temp_path := None;
                   file_obj := h; gz := GzNone; rw_obj := Reader reader |},
             w2)
        end
      else if negb (bool_decide (mode = str "a")) then (Err AssertionError, w1)
      else
        match open_file path AT use_gzip w1 with
        | (Err e, w2) => (Err e, w2)
        | (Ok h, w2) =>
            (Ok {| mode := mode; path := path; temp_path := None;
                   file_obj := h; gz := GzNone;
                   rw_obj := Writer (DumpWriter.__init__ (Utf8File [])
                                       default_separator unique (Some 4%Z)) |},
             w2)
        end
  end.

(** Lines 154-164: [self.gz] as the file name sets it. *)
Definition gz_of_filename (filename : pystr) : gz_attr :=
  let '(filename, self_gz) :=
    if endswith filename (str ".gz") then (drop_last 3 filename, GzTrue)
    else (filename, GzNone) in
  if endswith filename (str "gz") then GzTrue else self_gz.

(** Lines 147-188: write and create mode. *)
Definition init_write_create (mode path : pystr) (gz : option bool)
    (unique : bool) (w : world) : result t * world :=
  if negb (contains (str "wx") mode) then (Err AssertionError, w)
  else if bool_decide (mode = str "x") && os_path_exists path w
  then (Err FileExistsError, w)
  else
    let filename := basename path in
    let temp_path := path ++ str ".partial" in
    let self_gz := gz_of_filename filename in
    (* determine whether to use gzip *)
    let wrap : bool :=
      match gz with
      | None => match self_gz with GzNone => false | _ => true end
      | Some b => b
      end in
    match open_file temp_path (if wrap then WB else WT) wrap w with
    | (Err e, w') => (Err e, w')
    | (Ok h, w') =>
        let self_gz := if wrap then GzWrapper else self_gz in
        (* open file and return writer *)
        let f :=
          match self_gz with
          | GzTrue => PyTrue
          | GzNone | GzWrapper => Utf8File []
          end in
        (Ok {| mode := mode; path := path; temp_path := Some temp_path;
               file_obj := h; gz := self_gz;
               rw_obj := Writer (DumpWriter.__init__ f default_separator unique
                                   (Some 4%Z)) |},
         w')
    end.

(** [DumpOpener(path, mode, gz, unique=unique)], with the default
    encoding. *)
Definition __init__ (path : pystr) (mode : pystr) (gz : option bool)
    (unique : bool) (w : world) : result t * world :=
  (* verify mode *)
  if negb (contains (str "rwax") mode) then (Err IOError, w)
  else
    (* normalize path *)
    let path := abspath path in
    if contains (str "ra") mode
    then init_read_append mode path gz unique w
    else init_write_create mode path gz unique w.

Definition __enter__ (self : t) : rw := rw_obj self.

(** What the body of the [with] statement did to [self.rw_obj], the
    same object [__enter__] handed out. *)
Definition with_rw_obj (self : t) (rw_obj' : rw) : t :=
  {| mode := mode self; path := path self; temp_path := temp_path self;
     file_obj := file_obj self; gz := gz self; rw_obj := rw_obj' |}.

(** The text that went through [self.rw_obj] to [self.file_obj]. *)
Definition written (self : t) : pystr :=
  match rw_obj self with
  | Writer wr =>
      match DumpWriter.file_obj wr with
      | TextFile text | Utf8File text => text
      | PyTrue => []
      end
  | Reader _ => []
  end.

(** [self.__exit__(exc_type, exc_val, exc_tb)]. The three arguments are
    not looked at, so they are no arguments here; the result is [None],
    so an exception of the body goes on after it. *)
Definition __exit__ (self : t) (w : world) : result unit * world :=
  match gz self with
  | GzTrue => (Err AttributeError, w)
  | GzNone | GzWrapper =>
      let w1 := close_file (file_obj self) (written self) w in
      match temp_path self with
      | None => (Ok tt, w1)
      | Some temp =>
          if os_path_exists (path self) w1 then
            if bool_decide (mode self = str "x") then (Err FileExistsError, w1)
            else
              match os_remove (path self) w1 with
              | (Err e, w2) => (Err e, w2)
              | (Ok _, w2) => os_rename temp (path self) w2
              end
          else os_rename temp (path self) w1
      end
  end.

(** [with DumpOpener(path, mode, gz, unique=unique) as f: body(f)]:
    [__exit__] runs however the body ends; an exception it raises
    replaces the body's outcome. *)
Definition with_open {A : Type} (path mode : pystr) (gz : option bool)
    (unique : bool) (body : rw -> result A * rw) (w : world)
    : result A * world :=
  match __init__ path mode gz unique w with
  | (Err e, w1) => (Err e, w1)
  | (Ok self, w1) =>
      let '(outcome, rw_obj') := body (__enter__ self) in
      match __exit__ (with_rw_obj self rw_obj') w1 with
      | (Err e, w2) => (Err e, w2)
      | (Ok _, w2) => (outcome, w2)
      end
  end.

(** [f.writemany(json_iterator)] on what [__enter__] handed out. *)
Definition rw_writemany (json_iterator : list json.value) (f : rw)
    : result Z * rw :=
  match f with
  | Writer wr =>
      let '(r, wr') := DumpWriter.writemany wr json_iterator in (r, Writer wr')
  | Reader r => (Err AttributeError, Reader r)
  end.

(** [dump(json_iterator, path, overwrite, unique)] (lines 231-242) *)
Definition dump (json_iterator : list json.value) (path : pystr)
    (overwrite unique : bool) (w : world) : result Z * world :=
  with_open path (if overwrite then str "w" else str "x") None unique
    (rw_writemany json_iterator) w.

End WithEnv.
End DumpOpener.

(** ** The vocabulary of the specification, and the inputs of its
    scenarios *)

(** The lines after the last sentinel line: what the framer has not
    flushed when the input ends. *)
Fixpoint unflushed (separator : pystr) (lines : list pystr) : list pystr :=
  match lines with
  | [] => []
  | _ :: rest =>
      if existsb (is_separator separator) lines
      then unflushed separator rest
      else lines
  end.

(** Some character of the text is no whitespace. *)
Definition has_content (text : pystr) : bool :=
  existsb (fun c => negb (isspace c)) text.

(** [foldr Yield]: a generator that yields [chunks] and goes on as [g]. *)
Definition yield_all {A} (chunks : list A) (g : generator A) : generator A :=
  fold_right Yield g chunks.

(** What this file asks of the runtime's floats: the [repr] of a finite
    float is a complete JSON number with a fraction or an exponent, and
    [float] reads it back as the same float. *)
Class FloatLaws (env : PyEnv) : Prop := {
  float_repr_literal : forall f : pyfloat,
    float_isfinite f = true ->
    json.match_number (float_repr f) = Some (json.NumFloat (float_repr f), []);
  float_repr_roundtrip : forall f : pyfloat,
    float_isfinite f = true -> float_of_str (float_repr f) = f;
}.

(** Where a scan of a text stands in its current line: nothing read
    yet, only dashes read, or some other character read. *)
Inductive line_state : Set := Fresh | Dashes | Clean.

(** One character on: a carriage return, and a newline that ends a line
    of dashes only, are refused. *)
Definition line_step (st : line_state) (c : N) : option line_state :=
  if c =? creturn then None
  else if c =? newline then
    match st with Dashes => None | _ => Some Fresh end
  else if c =? 45 then
    match st with Clean => Some Clean | _ => Some Dashes end
  else Some Clean.

(** The scan of a text: where it ends, if no character is refused. Then
    the text has no carriage return and none of its lines that end in it
    is made of dashes. *)
Fixpoint line_scan (st : line_state) (text : pystr) : option line_state :=
  match text with
  | [] => Some st
  | c :: text' =>
      match line_step st c with
      | None => None
      | Some st' => line_scan st' text'
      end
  end.

(** What [DumpWriter.write] appends for a document encoded as [text]. *)
Definition blob (separator text : pystr) : pystr :=
  text ++ [newline] ++ separator ++ [newline].

(** The chunk decodes to a document whose canonical hash is in
    [hashes]. *)
Definition chunk_seen {env : PyEnv} (hashes : gset Z) (chunk : list pystr)
    : Prop :=
  ∃ obj h, json.loads (join chunk) = Ok obj
           ∧ DumpReader.canonical_hash obj = Ok h ∧ h ∈ hashes.

(** The text [{"a":1}], with [key] for [a] and [digit] for [1]. *)
Definition small_object (key digit : string) : pystr :=
  str "{" ++ [dquote] ++ str key ++ [dquote] ++ str ":" ++ str digit ++ str "}".

(** The input of the scenario with unterminated trailing content. *)
Definition stray_input : pystr :=
  small_object "a" "1" ++ [newline] ++ str "--" ++ [newline] ++ str "stray".

(** The input of the scenario with a repeated document. *)
Definition repeated_input : pystr :=
  small_object "a" "1" ++ [newline] ++ str "--" ++ [newline]
  ++ small_object "a" "1" ++ [newline] ++ str "--" ++ [newline]
  ++ small_object "b" "2" ++ [newline] ++ str "--" ++ [newline].

(** What [json.dumps(.., sort_keys=True, ..)] gives for [{"a": 1}]. *)
Definition canonical_object (key digit : string) : pystr :=
  str "{" ++ [dquote] ++ str key ++ [dquote] ++ str ": " ++ str digit ++ str "}".

(** The encoding of a document at a nesting level, the line break and
    indentation before an item, and a character that breaks no line. *)
Abbreviation enc indent level :=
  (json.iterencode (json.indent_str indent) (json.item_sep indent) level).
Abbreviation nl indent level :=
  (json.newline_indent (json.indent_str indent) level).
Abbreviation plain := (fun c : N => c <> 10 /\ c <> 13).

Section Vocabulary.

Context {env : PyEnv}.

(** A character a JSON number can hold, and a text that does not go on
    with one. *)
Definition number_char (c : N) : bool :=
  json.is_digit c || (c =? 45) || (c =? 43) || (c =? 46) || (c =? 101) || (c =? 69).

Definition follows_number (rest : pystr) : Prop :=
  match rest with [] => True | c :: _ => number_char c = false end.

(** The text a number token stands for, and its value. *)
Definition number_text (tok : json.number) : pystr :=
  match tok with
  | json.NumInt negative digits => (if negative then [45] else []) ++ digits
  | json.NumFloat text => text
  end.

Definition number_value (tok : json.number) : json.value :=
  match tok with
  | json.NumInt negative digits => json.JInt (json.int_of_digits negative digits)
  | json.NumFloat text => json.JFloat (float_of_str text)
  end.

Definition on_values {A B} (f : A -> B) (kv : pystr * A) : pystr * B :=
  (fst kv, f (snd kv)).

(** A character an encoded document can start with. *)
Definition value_start (c : N) : Prop :=
  c = 34 \/ c = 123 \/ c = 91 \/ c = 110 \/ c = 116 \/ c = 102 \/ c = 45
  \/ 48 <= c <= 57.

(** Scanning the encoding of [x] gives [x] back with sorted keys. *)
Definition scans (indent : option Z) (level : nat) (x : json.value) : Prop :=
  forall fuel rest,
    (length (enc indent level x) <= fuel)%nat ->
    follows_number rest ->
    json.scan_once fuel (enc indent level x ++ rest)
    = Some (json.sort_keys x, rest).

Definition heads (indent : option Z) (level : nat) (x : json.value) : Prop :=
  exists c t, enc indent level x = c :: t /\ value_start c.

(** An item of a dict as [_iterencode_dict] writes it, and the same
    without the quote that opens its key. *)
Definition item (indent : option Z) (level : nat) (kv : pystr * json.value)
    : pystr :=
  json.encode_basestring (fst kv) ++ json.key_separator
  ++ enc indent level (snd kv).

Definition item_tail (indent : option Z) (level : nat)
    (kv : pystr * json.value) : pystr :=
  flat_map json.escape_char (fst kv)
  ++ dquote :: 58 :: 32 :: enc indent level (snd kv).

(** A token: no line break in it, and it starts with a character that
    is no dash, or with one dash and then such a character. From any
    state its scan ends clean. *)
Definition token (t : pystr) : Prop :=
  Forall plain t
  /\ exists sign c t', t = sign ++ c :: t' /\ (sign = [] \/ sign = [45]) /\ c <> 45.

(** What [writemany] appends for [docs] with the default sentinel, and
    the chunk the framer makes of one document. *)
Definition written_text (indent : option Z) (docs : list json.value) : pystr :=
  concat (map (fun d => blob default_separator (enc indent 0 d)) docs).

Definition chunk_of (indent : option Z) (d : json.value) : list pystr :=
  readlines (enc indent 0 d ++ [newline]).

End Vocabulary.

(** ** Reading many files: [load] (jdump.py, lines 207-228) *)

(** [sorted(paths)] on strings. *)
Fixpoint insert_sorted (p : pystr) (paths : list pystr) : list pystr :=
  match paths with
  | [] => [p]
  | q :: paths' =>
      if str_ltb p q then p :: paths else q :: insert_sorted p paths'
  end.

Definition sorted (paths : list pystr) : list pystr :=
  fold_right insert_sorted [] paths.

Section Load.

Context {env : PyEnv}.

(** The loop [for json_obj in f] of [load] on one file: the documents
    it yields, the exception that ends it if one does, and the reader
    and the seen hashes afterwards. [f] is pulled until it raises; one
    pull more than it has chunks is always enough. *)
Fixpoint load_file (turns : nat) (f : DumpReader.t) (seen : option (gset Z))
    : list json.value * option exn * (DumpReader.t * option (gset Z)) :=
  match turns with
  | O => ([], None, (f, seen))
  | S turns' =>
      match DumpReader.__next__ f with
      | (Err StopIteration, f') => ([], None, (f', seen))
      | (Err e, f') => ([], Some e, (f', seen))
      | (Ok json_obj, f') =>
          match seen with
          | None =>
              let '(objs, ending, state) := load_file turns' f' None in
              (json_obj :: objs, ending, state)
          | Some hashes =>
              match DumpReader.canonical_hash json_obj with
              | Err e => ([], Some e, (f', seen))
              | Ok json_hash =>
                  if bool_decide (json_hash ∈ hashes)
                  then load_file turns' f' seen
                  else
                    let '(objs, ending, state) :=
                      load_file turns' f' (Some ({[json_hash]} ∪ hashes)) in
                    (json_obj :: objs, ending, state)
              end
          end
      end
  end.

(** The loop over [input_paths]: each file is opened with
    [DumpOpener(path)] (mode [r], no override, dedup on), read to its
    end and closed; an exception ends the generator after what was
    yielded before it. Mode [r] hands out a reader; for a writer, which
    cannot be iterated, the branch stands for the [TypeError] [exn] has
    no name for. *)
Fixpoint load_paths (input_paths : list pystr) (seen : option (gset Z))
    (w : world) : generator json.value * world :=
  match input_paths with
  | [] => (Return, w)
  | path :: rest =>
      match DumpOpener.__init__ path (str "r") None true w with
      | (Err e, w1) => (Raise e, w1)
      | (Ok self, w1) =>
          match DumpOpener.__enter__ self with
          | DumpOpener.Writer _ => (Raise AttributeError, w1)
          | DumpOpener.Reader f =>
              let '(objs, ending, (f', seen')) :=
                load_file (S (length (gen_items (DumpReader.self_reader f)))) f seen in
              match DumpOpener.__exit__
                      (DumpOpener.with_rw_obj self (DumpOpener.Reader f')) w1 with
              | (Err e, w2) => (yield_all objs (Raise e), w2)
              | (Ok _, w2) =>
                  match ending with
                  | Some e => (yield_all objs (Raise e), w2)
                  | None =>
                      let '(g, w3) := load_paths rest seen' w2 in
                      (yield_all objs g, w3)
                  end
              end
          end
      end
  end.

(** [load(input_glob, unique, verbose=False)], run to its end.
    [glob_glob pattern] is [glob.glob(pattern, recursive=True)]; the
    warning for no file is not modelled. *)
Definition load (glob_glob : pystr → list pystr) (input_glob : pystr)
    (unique : bool) (w : world) : generator json.value * world :=
  let input_paths := sorted (glob_glob (abspath input_glob)) in
  load_paths input_paths (if unique then Some ∅ else None) w.

End Load.

(** ** The vocabulary of the further properties *)

(** Chunks and the sentinel lines that closed them, back in one list. *)
Definition reassemble (chunks : list (list pystr)) (sentinels : list pystr)
    : list pystr :=
  concat (zip_with (λ chunk line, chunk ++ [line]) chunks sentinels).

(** An event that opens a file for reading. *)
Definition opens_for_reading (ev : io_event) : Prop :=
  match ev with
  | EvOpen _ (RB | RT) _ => True
  | _ => False
  end.

(** [a <= b] on strings. *)
Definition str_le (a b : pystr) : Prop := str_ltb b a = false.

Section FurtherVocabulary.

Context {env : PyEnv}.

(** The chunks a reader has still to pull. *)
Definition chunks_left (self : DumpReader.t) : nat :=
  length (gen_items (DumpReader.self_reader self)).

(** The documents dedup lets through: those whose text, encoded with
    [indent], has a hash that is not in [hashes] and is not the hash of
    a document before them. *)
Fixpoint keep_new (indent : option Z) (hashes : gset Z)
    (docs : list json.value) : list json.value :=
  match docs with
  | [] => []
  | d :: rest =>
      let h := hash (enc indent 0 d) in
      if bool_decide (h ∈ hashes) then keep_new indent hashes rest
      else d :: keep_new indent ({[h]} ∪ hashes) rest
  end.

(** The chunks of [g] decode to [docs], one by one, and [g] ends as an
    exhausted generator does. *)
Fixpoint decodes (g : generator (list pystr)) (docs : list json.value) : Prop :=
  match g, docs with
  | Yield chunk g', d :: docs' => json.loads (join chunk) = Ok d ∧ decodes g' docs'
  | Return, [] => True
  | Raise e, [] => e = StopIteration
  | _, _ => False
  end.

(** What a writer appends for [docs], one after the other. *)
Definition appended (indent : option Z) (separator_blob : pystr)
    (docs : list json.value) : pystr :=
  concat (map (λ d, enc indent 0 d ++ separator_blob) docs).

(** The text [DumpOpener]'s writers, which indent by four spaces,
    write for the document is one [utf8] can encode: no string of the
    document holds a lone surrogate. *)
Definition encodable (d : json.value) : bool :=
  utf8_text (enc (Some 4%Z) 0 d).

End FurtherVocabulary.

(** The stream [stream], whatever it holds, takes [text]: a write of it
    returns and appends it. *)
Definition takes (stream : pystr -> file_like) (text : pystr) : Prop :=
  forall before, file_write (stream before) text = Ok (stream (before ++ text)).

(** ** Sample documents and files *)

(** The documents [{"a": 1}], [[2]] and [nan] of the sample runtime. *)
Definition doc_a : @json.value sample_env := json.JDict [(str "a", json.JInt 1)].
Definition doc_list : @json.value sample_env := json.JList [json.JInt 2].
Definition doc_nan : @json.value sample_env := @json.JFloat sample_env F_nan.

(** A file system with one file, holding [old]. *)
Definition out_path : pystr := str "/data/out.json".
Definition world_with_old : world :=
  {| fs := {[out_path := PlainText (str "old")]}; log := [] |}.

(** What [dump] writes for [doc_a] and [doc_list]. *)
Definition two_documents : pystr :=
  str "{" ++ [newline] ++ str "    " ++ [dquote] ++ str "a" ++ [dquote]
  ++ str ": 1" ++ [newline] ++ str "}" ++ [newline] ++ str "--" ++ [newline]
  ++ str "[" ++ [newline] ++ str "    2" ++ [newline] ++ str "]" ++ [newline]
  ++ str "--" ++ [newline].

(** A reader without dedup over the two sample documents, and one with
    dedup over the scenario's input with a repeated document. *)
Definition sample_reader : DumpReader.t :=
  DumpReader.__init__ (readlines two_documents) default_separator false false.

Definition sample_dedup_reader : DumpReader.t :=
  DumpReader.__init__ (readlines repeated_input) default_separator true false.

(** A writer on an empty text file, with dedup as asked. *)
Definition sample_writer (unique : bool) : DumpWriter.t :=
  DumpWriter.__init__ (TextFile []) default_separator unique (Some 4%Z).

(** [glob] when the pattern matches [paths]. *)
Definition glob_of (paths : list pystr) : pystr → list pystr := λ _, paths.

(** The input [NaN], closed by a sentinel line. *)
Definition nan_input : pystr :=
  str "NaN" ++ [newline] ++ str "--" ++ [newline].

(** The document ["\ud800"]: a string that is one lone surrogate. *)
Definition doc_surrogate : @json.value sample_env := json.JStr [55296].

(** * Properties *)

Section Properties.

Context {env : PyEnv}.

(** ** Python strings *)

Lemma forallb_lstrip_by (p : N → bool) (s : pystr) :
  forallb p (lstrip_by p s) = forallb p s.
Proof.
  induction s as [|c s IH]; simpl; [done|].
  destruct (p c) eqn:Hc; simpl; [done|]. by rewrite Hc.
Qed.

Lemma lstrip_by_nil_iff (p : N → bool) (s : pystr) :
  lstrip_by p s = [] ↔ forallb p s = true.
Proof.
  induction s as [|c s IH]; simpl; [done|].
  destruct (p c); simpl; [done|]. split; discriminate.
Qed.

Lemma forallb_rev {A} (p : A → bool) (l : list A) :
  forallb p (rev l) = forallb p l.
Proof.
  induction l as [|x l IH]; simpl; [done|].
  rewrite forallb_app, IH. simpl. rewrite andb_true_r. apply andb_comm.
Qed.

Lemma rstrip_by_nil_iff (p : N → bool) (s : pystr) :
  rstrip_by p s = [] ↔ forallb p s = true.
Proof.
  unfold rstrip_by. rewrite <- (forallb_rev p s), <- lstrip_by_nil_iff.
  split; intros H.
  - apply (f_equal (@rev N)) in H. by rewrite rev_involutive in H.
  - by rewrite H.
Qed.

(** [s.strip()] is empty exactly when [s] is whitespace only. *)
Lemma strip_nil_iff (s : pystr) : strip s = [] ↔ forallb isspace s = true.
Proof.
  unfold strip. by rewrite rstrip_by_nil_iff, forallb_lstrip_by.
Qed.

Lemma has_content_false_iff (s : pystr) :
  has_content s = false ↔ forallb isspace s = true.
Proof.
  unfold has_content. induction s as [|c s IH]; simpl; [done|].
  destruct (isspace c); simpl; [done|]. split; discriminate.
Qed.

(** ** The framer *)

Lemma unflushed_no_separator (separator : pystr) (lines : list pystr) :
  existsb (is_separator separator) lines = false →
  unflushed separator lines = lines.
Proof. destruct lines; simpl; [done|]. by intros ->. Qed.

(** How the framer ends, in terms of the lines not flushed: those after
    the last sentinel line, after the buffer if there is no sentinel. *)
Lemma _reader_loop_end (separator : pystr) (lines buffer : list pystr) :
  gen_end (_reader_loop separator lines buffer) =
  if has_content
       (join (if existsb (is_separator separator) lines
              then unflushed separator lines else buffer ++ lines))
  then Some AssertionError else None.
Proof.
  revert buffer. induction lines as [|line lines IH]; intros buffer.
  - simpl. rewrite app_nil_r.
    destruct (has_content (join buffer)) eqn:Hc.
    + rewrite bool_decide_eq_false_2; [done|].
      rewrite strip_nil_iff, <- has_content_false_iff. congruence.
    + rewrite bool_decide_eq_true_2; [done|].
      by rewrite strip_nil_iff, <- has_content_false_iff.
  - cbn [_reader_loop existsb unflushed].
    destruct (is_separator separator line) eqn:Hsep; cbn [negb orb gen_end].
    + rewrite IH. simpl.
      destruct (existsb (is_separator separator) lines) eqn:Hex; [done|].
      by rewrite unflushed_no_separator.
    + rewrite IH. simpl.
      destruct (existsb (is_separator separator) lines) eqn:Hex; [done|].
      by rewrite <- app_assoc.
Qed.

Lemma _reader_end (separator : pystr) (lines : list pystr) :
  gen_end (_reader lines separator) =
  if has_content (join (unflushed separator lines))
  then Some AssertionError else None.
Proof.
  unfold _reader. rewrite _reader_loop_end. simpl.
  destruct (existsb (is_separator separator) lines) eqn:Hex; [done|].
  by rewrite unflushed_no_separator.
Qed.

(** Lines with no sentinel among them, then a sentinel line: the framer
    yields them as one chunk and starts afresh. *)
Lemma _reader_loop_chunk (separator : pystr) (chunk rest buffer : list pystr)
    (line : pystr) :
  existsb (is_separator separator) chunk = false →
  is_separator separator line = true →
  _reader_loop separator (chunk ++ line :: rest) buffer =
  Yield (buffer ++ chunk) (_reader rest separator).
Proof.
  revert buffer. induction chunk as [|l chunk IH]; intros buffer Hno Hsep.
  - simpl. rewrite Hsep. simpl. by rewrite app_nil_r.
  - simpl in Hno. apply orb_false_iff in Hno as [Hl Hno].
    simpl. rewrite Hl. simpl. rewrite IH by done. by rewrite <- app_assoc.
Qed.

Lemma _reader_chunk (separator : pystr) (chunk rest : list pystr) (line : pystr) :
  existsb (is_separator separator) chunk = false →
  is_separator separator line = true →
  _reader (chunk ++ line :: rest) separator =
  Yield chunk (_reader rest separator).
Proof. intros. unfold _reader at 1. by rewrite _reader_loop_chunk. Qed.


(** ** The decoder on text that holds no document *)

Ltac norm_str :=
  repeat match goal with
         | |- context [str ?s] =>
             let x := eval vm_compute in (str s) in change (str s) with x
         end.

Ltac char_neq c k :=
  replace (N.eqb c k) with false by (symmetry; apply N.eqb_neq; lia).

Lemma isspace_range (c : N) : isspace c = true → (c ≤ 32 ∨ 133 ≤ c) ∧ c ≤ 12288.
Proof.
  unfold isspace.
  rewrite !orb_true_iff, !andb_true_iff, !N.leb_le, !N.eqb_eq. lia.
Qed.

Lemma is_digit_range (c : N) : json.is_digit c = true ↔ 48 ≤ c ≤ 57.
Proof. unfold json.is_digit. rewrite andb_true_iff, !N.leb_le. lia. Qed.

Lemma is_digit_outside (c : N) : c < 48 ∨ 57 < c → json.is_digit c = false.
Proof.
  intros H. destruct (json.is_digit c) eqn:Hd; [|done].
  apply is_digit_range in Hd. lia.
Qed.

(** No JSON value starts with a character below U+0021 or above
    U+0084: [scan_once] finds nothing there, whatever the fuel. *)
Lemma scan_once_not_json (fuel : nat) (c : N) (s : pystr) :
  c ≤ 32 ∨ 133 ≤ c → json.scan_once fuel (c :: s) = None.
Proof.
  intros Hc. destruct fuel as [|fuel]; [done|].
  cbn [json.scan_once]. unfold dquote. norm_str.
  unfold json.match_number, json.match_integer. cbn [startswith].
  char_neq c 34. char_neq c 123. char_neq c 91. char_neq c 110.
  char_neq c 116. char_neq c 102. char_neq c 45. char_neq c 48.
  char_neq c 78. char_neq c 73.
  rewrite is_digit_outside by lia. done.
Qed.

Lemma lstrip_by_head_in (p : N → bool) (s s' : pystr) (c : N) :
  lstrip_by p s = c :: s' → In c s.
Proof.
  induction s as [|a s IH]; simpl; [done|].
  destruct (p a); [auto|]. intros [= -> _]. by left.
Qed.

(** [json.loads] of an empty or whitespace-only text raises
    [JSONDecodeError], whatever Python means by whitespace. *)
Lemma loads_whitespace (s : pystr) :
  forallb isspace s = true → json.loads s = Err JSONDecodeError.
Proof.
  intros Hs. unfold json.loads.
  assert (Hbom : startswith s [65279] = false).
  { destruct s as [|c s]; [done|]. simpl in *.
    apply andb_true_iff in Hs as [Hc _]. apply isspace_range in Hc.
    char_neq c 65279. done. }
  rewrite Hbom.
  destruct (json.skip_ws s) as [|c s'] eqn:Hskip.
  - done.
  - apply lstrip_by_head_in in Hskip.
    rewrite forallb_forall in Hs. apply Hs, isspace_range in Hskip.
    rewrite scan_once_not_json by lia. done.
Qed.

(** ** The reader on the scenarios' inputs *)

Lemma unflushed_app_separator (separator : pystr) (lines : list pystr)
    (line : pystr) :
  is_separator separator line = true →
  unflushed separator (lines ++ [line]) = [].
Proof.
  intros Hsep. induction lines as [|l lines IH]; simpl.
  - by rewrite Hsep.
  - rewrite existsb_app. simpl. rewrite Hsep.
    by rewrite orb_true_r, orb_true_r.
Qed.

Lemma stray_input_frames :
  _reader (readlines stray_input) default_separator =
  Yield [small_object "a" "1" ++ [newline]] (Raise AssertionError).
Proof. vm_compute. reflexivity. Qed.

Lemma loads_object_a :
  json.loads (join [small_object "a" "1" ++ [newline]]) =
  Ok (json.JDict [(str "a", json.JInt 1)]).
Proof. vm_compute. reflexivity. Qed.

Lemma loads_object_b :
  json.loads (join [small_object "b" "2" ++ [newline]]) =
  Ok (json.JDict [(str "b", json.JInt 2)]).
Proof. vm_compute. reflexivity. Qed.

Lemma canonical_hash_object_a :
  DumpReader.canonical_hash (json.JDict [(str "a", json.JInt 1)]) =
  Ok (hash (canonical_object "a" "1")).
Proof. reflexivity. Qed.

Lemma canonical_hash_object_b :
  DumpReader.canonical_hash (json.JDict [(str "b", json.JInt 2)]) =
  Ok (hash (canonical_object "b" "2")).
Proof. reflexivity. Qed.

Lemma reader_on_stray_input :
  ∃ r1 r2,
    DumpReader.__next__
      (DumpReader.__init__ (readlines stray_input) default_separator true false)
    = (Ok (json.JDict [(str "a", json.JInt 1)]), r1)
    ∧ DumpReader.__next__ r1 = (Err AssertionError, r2).
Proof.
  unfold DumpReader.__next__, DumpReader.__init__.
  cbn [DumpReader.self_reader DumpReader.seen DumpReader.obj_num
       DumpReader.close].
  rewrite stray_input_frames.
  unfold DumpReader.load_next; cbn [next mbind result_bind].
  rewrite loads_object_a, canonical_hash_object_a.
  cbn [DumpReader.skip_seen].
  rewrite bool_decide_eq_false_2 by set_solver.
  eexists _, _; split; reflexivity.
Qed.

(** C2: the framer ends with its assertion error exactly when something
    other than whitespace follows the last sentinel line, and without
    error otherwise (so when the input ends with a sentinel line); that
    error is a FormatError; on the input [{"a":1}], [--], [stray] the
    reader hands over the document and raises the error at the next
    pull. *)
Theorem framer_error_iff_unterminated (lines : list pystr) (separator : pystr) :
  (gen_end (_reader lines separator) = Some AssertionError
     ↔ has_content (join (unflushed separator lines)) = true)
  ∧ (gen_end (_reader lines separator) = None
     ↔ has_content (join (unflushed separator lines)) = false)
  ∧ (∀ line, is_separator separator line = true →
       gen_end (_reader (lines ++ [line]) separator) = None)
  ∧ is_FormatError AssertionError = true
  ∧ (∃ r1 r2,
       DumpReader.__next__
         (DumpReader.__init__ (readlines stray_input) default_separator true false)
       = (Ok (json.JDict [(str "a", json.JInt 1)]), r1)
       ∧ DumpReader.__next__ r1 = (Err AssertionError, r2)).
Proof.
  split; [|split; [|split; [|split]]].
  - rewrite _reader_end. by destruct (has_content _).
  - rewrite _reader_end. by destruct (has_content _).
  - intros line Hsep. by rewrite _reader_end, unflushed_app_separator.
  - done.
  - apply reader_on_stray_input.
Qed.

(** ** Empty chunks *)

Lemma next_empty_chunk (self : DumpReader.t) (separator : pystr)
    (blank rest : list pystr) (line : pystr) :
  DumpReader.self_reader self = _reader (blank ++ line :: rest) separator →
  existsb (is_separator separator) blank = false →
  is_separator separator line = true →
  has_content (join blank) = false →
  DumpReader.__next__ self =
  (Err JSONDecodeError, DumpReader.with_reader self (_reader rest separator)).
Proof.
  intros Hg Hblank Hline Hws.
  unfold DumpReader.__next__, DumpReader.load_next.
  rewrite Hg, _reader_chunk by done. cbn [next mbind result_bind].
  rewrite loads_whitespace; [done|]. by apply has_content_false_iff.
Qed.

Lemma skip_seen_empty_chunk (hashes : gset Z) (separator : pystr)
    (blank rest : list pystr) (line : pystr) (obj : json.value) (h : Z) :
  h ∈ hashes →
  existsb (is_separator separator) blank = false →
  is_separator separator line = true →
  has_content (join blank) = false →
  DumpReader.skip_seen hashes (_reader (blank ++ line :: rest) separator) obj h =
  (Err JSONDecodeError, _reader rest separator).
Proof.
  intros Hin Hblank Hline Hws.
  rewrite _reader_chunk by done. cbn [DumpReader.skip_seen].
  rewrite bool_decide_eq_true_2 by done.
  rewrite loads_whitespace; [done|]. by apply has_content_false_iff.
Qed.

(** C10: when the lines up to the next sentinel line hold nothing but
    whitespace (none at all when the input starts with a sentinel line
    or two sentinel lines are adjacent), the pull that reaches this
    chunk raises [JSONDecodeError], a FormatError: at the start of
    [__next__], and in its loop over documents already seen. The chunk
    is consumed, not skipped. *)
Theorem empty_chunk_raises (self : DumpReader.t) (separator : pystr)
    (blank rest : list pystr) (line : pystr) :
  DumpReader.self_reader self = _reader (blank ++ line :: rest) separator →
  existsb (is_separator separator) blank = false →
  is_separator separator line = true →
  has_content (join blank) = false →
  DumpReader.__next__ self =
    (Err JSONDecodeError, DumpReader.with_reader self (_reader rest separator))
  ∧ (∀ hashes obj h, h ∈ hashes →
       DumpReader.skip_seen hashes (DumpReader.self_reader self) obj h =
       (Err JSONDecodeError, _reader rest separator))
  ∧ is_FormatError JSONDecodeError = true.
Proof.
  intros Hg Hblank Hline Hws. split; [|split].
  - by eapply next_empty_chunk.
  - intros hashes obj h Hin. rewrite Hg. by apply skip_seen_empty_chunk.
  - done.
Qed.

(** ** Writing a document twice *)

(** C4: on a writer with dedup enabled that has written nothing yet,
    the first [write] of a document that can be encoded returns [True]
    and appends the encoded text, a newline, the sentinel and a newline
    to the stream, once; the second returns [False] and leaves the
    writer, its stream, seen-set and count as they were. *)
Theorem write_twice_writes_once (before : pystr) (separator : pystr)
    (indent : option Z) (D : json.value) :
  json.isfinite D = true →
  ∃ text w1,
    json.dumps D indent = Ok text
    ∧ DumpWriter.write
        (DumpWriter.__init__ (TextFile before) separator true indent) D
      = (Ok true, w1)
    ∧ DumpWriter.file_obj w1 =
        TextFile (before ++ text ++ [newline] ++ separator ++ [newline])
    ∧ DumpWriter.obj_num w1 = 1%Z
    ∧ DumpWriter.seen w1 = Some ({[hash text]} ∪ ∅)
    ∧ DumpWriter.write w1 D = (Ok false, w1).
Proof.
  intros Hfin. unfold DumpWriter.write, DumpWriter.__init__, json.dumps.
  rewrite Hfin. cbn [DumpWriter.indent DumpWriter.seen].
  rewrite bool_decide_eq_false_2 by set_solver.
  unfold DumpWriter.emit.
  cbn [DumpWriter.file_obj DumpWriter.separator_blob file_write
       DumpWriter.obj_num DumpWriter.close DumpWriter.indent].
  eexists _, _. split; [reflexivity|]. split; [reflexivity|].
  cbn [DumpWriter.file_obj DumpWriter.obj_num DumpWriter.seen
       DumpWriter.indent].
  rewrite bool_decide_eq_true_2 by set_solver.
  done.
Qed.

(** ** Reading with dedup *)

Lemma yield_all_nil {A} (g : generator A) : yield_all [] g = g.
Proof. reflexivity. Qed.

Lemma yield_all_cons {A} (x : A) (xs : list A) (g : generator A) :
  yield_all (x :: xs) g = Yield x (yield_all xs g).
Proof. reflexivity. Qed.

(** The loop of [__next__] drops the chunks already seen and stops at
    the first new document. *)
Lemma skip_seen_new (hashes : gset Z) (dups : list (list pystr))
    (chunk : list pystr) (g : generator (list pystr))
    (obj0 obj : json.value) (h0 h : Z) :
  h0 ∈ hashes →
  Forall (chunk_seen hashes) dups →
  json.loads (join chunk) = Ok obj →
  DumpReader.canonical_hash obj = Ok h →
  h ∉ hashes →
  DumpReader.skip_seen hashes (yield_all dups (Yield chunk g)) obj0 h0 =
  (Ok (obj, h), g).
Proof.
  intros Hin Hdups Hload Hhash Hnew. revert obj0 h0 Hin.
  induction Hdups as [|dup dups (o & k & Ho & Hk & Hkin) _ IH];
    intros obj0 h0 Hin;
    rewrite ?yield_all_nil, ?yield_all_cons; cbn [DumpReader.skip_seen].
  - rewrite bool_decide_eq_true_2, Hload, Hhash by done.
    destruct g; cbn [DumpReader.skip_seen];
      by rewrite bool_decide_eq_false_2.
  - rewrite bool_decide_eq_true_2, Ho, Hk by done. by apply IH.
Qed.

(** ... or at the end of the input. *)
Lemma skip_seen_exhausted (hashes : gset Z) (dups : list (list pystr))
    (obj0 : json.value) (h0 : Z) :
  h0 ∈ hashes →
  Forall (chunk_seen hashes) dups →
  DumpReader.skip_seen hashes (yield_all dups Return) obj0 h0 =
  (Err StopIteration, Return).
Proof.
  intros Hin Hdups. revert obj0 h0 Hin.
  induction Hdups as [|dup dups (o & k & Ho & Hk & Hkin) _ IH];
    intros obj0 h0 Hin;
    rewrite ?yield_all_nil, ?yield_all_cons; cbn [DumpReader.skip_seen].
  - by rewrite bool_decide_eq_true_2.
  - rewrite bool_decide_eq_true_2, Ho, Hk by done. by apply IH.
Qed.

Lemma next_skips_seen (self : DumpReader.t) (hashes : gset Z)
    (dups : list (list pystr)) (chunk : list pystr)
    (g : generator (list pystr)) (obj : json.value) (h : Z) :
  DumpReader.seen self = Some hashes →
  DumpReader.self_reader self = yield_all dups (Yield chunk g) →
  Forall (chunk_seen hashes) dups →
  json.loads (join chunk) = Ok obj →
  DumpReader.canonical_hash obj = Ok h →
  h ∉ hashes →
  DumpReader.__next__ self =
  (Ok obj,
   {| DumpReader.self_reader := g;
      DumpReader.obj_num := DumpReader.obj_num self + 1;
      DumpReader.close := DumpReader.close self;
      DumpReader.seen := Some ({[h]} ∪ hashes) |}).
Proof.
  intros Hseen Hg Hdups Hload Hhash Hnew.
  unfold DumpReader.__next__, DumpReader.load_next. rewrite Hg, Hseen.
  destruct Hdups as [|dup dups (o & k & Ho & Hk & Hkin) Hdups];
    rewrite ?yield_all_nil, ?yield_all_cons; cbn [next mbind result_bind].
  - rewrite Hload, Hhash.
    destruct g; cbn [DumpReader.skip_seen];
      by rewrite bool_decide_eq_false_2.
  - rewrite Ho, Hk.
    by rewrite (skip_seen_new hashes dups chunk g o obj k h).
Qed.

Lemma next_exhausted (self : DumpReader.t) (hashes : gset Z)
    (dups : list (list pystr)) :
  DumpReader.seen self = Some hashes →
  DumpReader.self_reader self = yield_all dups Return →
  Forall (chunk_seen hashes) dups →
  DumpReader.__next__ self = (Err StopIteration, DumpReader.with_reader self Return).
Proof.
  intros Hseen Hg Hdups.
  unfold DumpReader.__next__, DumpReader.load_next. rewrite Hg, Hseen.
  destruct Hdups as [|dup dups (o & k & Ho & Hk & Hkin) Hdups];
    rewrite ?yield_all_nil, ?yield_all_cons; cbn [next mbind result_bind].
  - done.
  - rewrite Ho, Hk. by rewrite (skip_seen_exhausted hashes dups o k).
Qed.

Lemma repeated_input_frames :
  _reader (readlines repeated_input) default_separator =
  yield_all [[small_object "a" "1" ++ [newline]];
             [small_object "a" "1" ++ [newline]];
             [small_object "b" "2" ++ [newline]]] Return.
Proof. vm_compute. reflexivity. Qed.

(** C5: on the input [{"a":1}], [--], [{"a":1}], [--], [{"b":2}], [--]
    with dedup enabled, reading everything yields [{"a":1}] and
    [{"b":2}] in this order and leaves the count at 2, provided [hash]
    tells the two canonical texts apart. In general a pull drops the
    chunks whose canonical hash is in the seen-set, returns the first
    document whose hash is not, adding it to the set and one to the
    count, and raises [StopIteration] when the input ends first. *)
Theorem dedup_read_skips_seen :
  hash (canonical_object "a" "1") ≠ hash (canonical_object "b" "2") →
  (∃ r,
     DumpReader.read
       (DumpReader.__init__ (readlines repeated_input) default_separator true false)
       (-1)
     = (Ok [json.JDict [(str "a", json.JInt 1)];
            json.JDict [(str "b", json.JInt 2)]], r)
     ∧ DumpReader.obj_num r = 2%Z)
  ∧ (∀ (self : DumpReader.t) hashes dups chunk g obj h,
       DumpReader.seen self = Some hashes →
       DumpReader.self_reader self = yield_all dups (Yield chunk g) →
       Forall (chunk_seen hashes) dups →
       json.loads (join chunk) = Ok obj →
       DumpReader.canonical_hash obj = Ok h →
       h ∉ hashes →
       DumpReader.__next__ self =
       (Ok obj,
        {| DumpReader.self_reader := g;
           DumpReader.obj_num := DumpReader.obj_num self + 1;
           DumpReader.close := DumpReader.close self;
           DumpReader.seen := Some ({[h]} ∪ hashes) |}))
  ∧ (∀ (self : DumpReader.t) hashes dups,
       DumpReader.seen self = Some hashes →
       DumpReader.self_reader self = yield_all dups Return →
       Forall (chunk_seen hashes) dups →
       DumpReader.__next__ self =
       (Err StopIteration, DumpReader.with_reader self Return)).
Proof.
  intros Hhash. split; [|split].
  - unfold DumpReader.read, DumpReader.__init__.
    cbn [Z.leb Z.compare DumpReader.self_reader].
    rewrite repeated_input_frames.
    assert (Hlen : ∀ g : generator (list pystr),
               g = yield_all
                     [[small_object "a" "1" ++ [newline]];
                      [small_object "a" "1" ++ [newline]];
                      [small_object "b" "2" ++ [newline]]] Return →
               S (length (gen_items g)) = 4%nat) by (by intros ? ->).
    rewrite (Hlen _ eq_refl). clear Hlen.
    cbn [DumpReader.read_loop].
    unfold DumpReader.__next__ at 1, DumpReader.load_next.
    cbn [DumpReader.self_reader DumpReader.seen DumpReader.obj_num
         DumpReader.close].
    rewrite !yield_all_cons, yield_all_nil. cbn [next mbind result_bind].
    (* first pull: the document is new *)
    rewrite loads_object_a, canonical_hash_object_a.
    cbn [DumpReader.skip_seen].
    rewrite bool_decide_eq_false_2 by set_solver.
    cbn [DumpReader.read_loop app].
    unfold DumpReader.__next__ at 1, DumpReader.load_next.
    cbn [DumpReader.self_reader DumpReader.seen DumpReader.obj_num
         DumpReader.close next mbind result_bind].
    (* second pull: the same document was seen, the next one is new *)
    rewrite loads_object_a, canonical_hash_object_a.
    cbn [DumpReader.skip_seen].
    rewrite bool_decide_eq_true_2 by set_solver.
    rewrite loads_object_b, canonical_hash_object_b.
    cbn [DumpReader.skip_seen].
    rewrite bool_decide_eq_false_2
      by (intros [Hx|Hx]%elem_of_union;
          [apply elem_of_singleton in Hx; congruence
          |by apply elem_of_empty in Hx]).
    cbn [DumpReader.read_loop app].
    (* third pull: the input is exhausted *)
    unfold DumpReader.__next__, DumpReader.load_next.
    cbn [DumpReader.self_reader next mbind result_bind].
    eexists. split; reflexivity.
  - intros. by eapply next_skips_seen.
  - intros. by eapply next_exhausted.
Qed.

(** ** The opener: modes *)

(** A mode that is no substring of [rwax] is refused before anything is
    opened, removed or renamed. *)
Lemma mode_outside_rwax_refused (path mode : pystr) (gz : option bool)
    (unique : bool) (w : world) :
  contains (str "rwax") mode = false →
  DumpOpener.__init__ path mode gz unique w = (Err IOError, w).
Proof. intros H. unfold DumpOpener.__init__. by rewrite H. Qed.

(** C6, where the code departs from it: the empty mode and the mode
    [rw] are substrings of [rwax], so the check of the mode lets them
    pass. With the empty mode and no override the file is opened to
    look at its first bytes before an assertion fails; with [rw] an
    assertion fails. Neither raises the error for an unsupported
    mode. *)
Theorem substring_modes_pass_the_check (path : pystr) (data : file_data)
    (gz : option bool) (unique : bool) (w : world) :
  DumpOpener.__init__ path (str "") None unique
    {| fs := {[abspath path := data]}; log := [] |}
  = (Err AssertionError,
     {| fs := {[abspath path := data]};
        log := [EvOpen (abspath path) RB false] |})
  ∧ DumpOpener.__init__ path (str "rw") gz unique w = (Err AssertionError, w).
Proof.
  split.
  - unfold DumpOpener.__init__, DumpOpener.init_read_append, open_file.
    cbn [contains startswith str negb orb fs log].
    by rewrite lookup_singleton_eq.
  - reflexivity.
Qed.

(** ** The opener: files that do not exist *)

(** Read mode, and append mode with no override, raise
    [FileNotFoundError] on a path that does not exist and leave the
    file system and the log as they were. *)
Lemma missing_file_not_found (path mode : pystr) (gz : option bool)
    (unique : bool) (w : world) :
  fs w !! abspath path = None →
  mode = str "r" ∨ (mode = str "a" ∧ gz = None) →
  DumpOpener.__init__ path mode gz unique w = (Err FileNotFoundError, w).
Proof.
  intros Hnone [-> | [-> ->]];
    unfold DumpOpener.__init__, DumpOpener.init_read_append, open_file;
    cbn [contains startswith str negb orb]; rewrite ?Hnone.
  - destruct gz as [b|]; cbn; by rewrite ?Hnone.
  - done.
Qed.

(** C9, where the code departs from it: append mode with an override
    opens the path with mode [at], which creates the file that is not
    there; no error is raised. *)
Theorem append_with_override_creates (path : pystr) (override unique : bool) :
  ∃ self,
    DumpOpener.__init__ path (str "a") (Some override) unique
      {| fs := ∅; log := [] |}
    = (Ok self,
       {| fs := {[abspath path := PlainText []]};
          log := [EvOpen (abspath path) AT override] |})
    ∧ DumpOpener.mode self = str "a"
    ∧ DumpOpener.temp_path self = None.
Proof.
  unfold DumpOpener.__init__, DumpOpener.init_read_append, open_file.
  cbn [contains startswith str negb orb fs log].
  rewrite lookup_empty. eexists. split; [|split]; reflexivity.
Qed.

(** ** The opener: write and create mode *)

Lemma startswith_app (s p q : pystr) :
  startswith s (p ++ q) = true → startswith s p = true.
Proof.
  revert s. induction p as [|a p IH]; intros [|c s]; simpl; try done.
  rewrite !andb_true_iff. intros [? ?]. eauto.
Qed.

(** [self.gz] is set from the file name exactly when the name ends in
    [gz]: a name that ends in [.gz] does. *)
Lemma gz_of_filename_spec (filename : pystr) :
  DumpOpener.gz_of_filename filename =
  if endswith filename (str "gz") then DumpOpener.GzTrue else DumpOpener.GzNone.
Proof.
  unfold DumpOpener.gz_of_filename.
  destruct (endswith filename (str ".gz")) eqn:Hdot.
  - assert (endswith filename (str "gz") = true) as ->.
    { unfold endswith in *. revert Hdot. norm_str.
      apply (startswith_app _ [122; 103] [46]). }
    by destruct (endswith (drop_last 3 filename) (str "gz")).
  - done.
Qed.

Lemma path_ne_partial (path : pystr) : path ≠ path ++ str ".partial".
Proof.
  intros H. apply (f_equal length) in H. rewrite length_app in H.
  simpl in H. lia.
Qed.

(** What [__init__] gives in write or create mode when nothing is in
    the way: the staging file is opened, through gzip or as plain text,
    and handed to a writer. [override false] on a name ending in [gz] is
    left out. *)
Lemma init_write_create_ok (path mode : pystr) (gz : option bool)
    (unique : bool) (w : world) :
  mode = str "w" ∨ (mode = str "x" ∧ os_path_exists (abspath path) w = false) →
  (gz = Some false → endswith (basename (abspath path)) (str "gz") = false) →
  let gzip := match gz with
              | Some override => override
              | None => endswith (basename (abspath path)) (str "gz")
              end in
  let temp := abspath path ++ str ".partial" in
  DumpOpener.__init__ path mode gz unique w =
  (Ok {| DumpOpener.mode := mode;
         DumpOpener.path := abspath path;
         DumpOpener.temp_path := Some temp;
         DumpOpener.file_obj :=
           {| h_path := temp; h_mode := if gzip then WB else WT; h_gzip := gzip |};
         DumpOpener.gz := if gzip then DumpOpener.GzWrapper else DumpOpener.GzNone;
         DumpOpener.rw_obj :=
           DumpOpener.Writer
             (DumpWriter.__init__ (Utf8File []) default_separator unique (Some 4%Z)) |},
   {| fs := <[temp := PlainText []]> (fs w);
      log := log w ++ [EvOpen temp (if gzip then WB else WT) gzip] |}).
Proof.
  intros Hmode Hslip gzip temp. subst gzip temp.
  unfold DumpOpener.__init__, DumpOpener.init_write_create.
  rewrite gz_of_filename_spec.
  assert (Hexists : bool_decide (mode = str "x")
                    && os_path_exists (abspath path) w = false).
  { destruct Hmode as [-> | [-> ->]]; [done|]. apply andb_false_r. }
  assert (Hpass : contains (str "rwax") mode = true
                  ∧ contains (str "ra") mode = false
                  ∧ contains (str "wx") mode = true).
  { by destruct Hmode as [-> | [-> _]]. }
  destruct Hpass as (-> & -> & ->). cbn [negb]. rewrite Hexists.
  unfold open_file.
  destruct gz as [[|]|].
  - by destruct (endswith _ _).
  - rewrite Hslip by done. done.
  - by destruct (endswith _ _).
Qed.


(** Closing a write transaction that may replace the final path: the
    staging file is installed there, whatever the body did or raised;
    [__exit__] is not told. *)
Lemma exit_installs_staging (mode path : pystr) (gzip : bool)
    (wr : DumpWriter.t) (text : pystr) (w : world) :
  let temp := path ++ str ".partial" in
  let self :=
    {| DumpOpener.mode := mode;
       DumpOpener.path := path;
       DumpOpener.temp_path := Some temp;
       DumpOpener.file_obj :=
         {| h_path := temp; h_mode := if gzip then WB else WT; h_gzip := gzip |};
       DumpOpener.gz := if gzip then DumpOpener.GzWrapper else DumpOpener.GzNone;
       DumpOpener.rw_obj := DumpOpener.Writer wr |} in
  let data := if gzip then GzipText text else PlainText text in
  DumpWriter.file_obj wr = Utf8File text →
  mode = str "w" ∨ os_path_exists path w = false →
  ∃ w', DumpOpener.__exit__ self w = (Ok tt, w')
        ∧ fs w' !! path = Some data
        ∧ fs w' !! temp = None
        ∧ (∀ other, other ≠ path → other ≠ temp → fs w' !! other = fs w !! other).
Proof.
  intros temp self data Hwr Hmode.
  assert (Hne : temp ≠ path).
  { intros Heq. by apply (path_ne_partial path). }
  assert (Hclose : close_file (DumpOpener.file_obj self) (DumpOpener.written self) w
                   = {| fs := <[temp := data]> (fs w); log := log w |}).
  { unfold close_file, DumpOpener.written. subst self data.
    cbn [DumpOpener.file_obj DumpOpener.rw_obj h_mode h_path h_gzip].
    rewrite Hwr. by destruct gzip. }
  unfold DumpOpener.__exit__. rewrite Hclose.
  assert (DumpOpener.gz self ≠ DumpOpener.GzTrue) by (subst self; by destruct gzip).
  destruct (DumpOpener.gz self) eqn:Hgz; [|done|].
  all: cbn [DumpOpener.temp_path DumpOpener.path DumpOpener.mode self].
  all: unfold os_path_exists at 1; cbn [fs]; rewrite lookup_insert_ne by done.
  all: destruct (fs w !! path) as [old|] eqn:Hold.
  all: try (rewrite bool_decide_eq_true_2 by eauto;
            destruct Hmode as [-> | Hno];
            [|unfold os_path_exists in Hno; rewrite Hold in Hno;
              by rewrite bool_decide_eq_true_2 in Hno by eauto];
            rewrite bool_decide_eq_false_2 by done;
            unfold os_remove; cbn [fs log];
            rewrite lookup_insert_ne, Hold by done).
  all: try rewrite bool_decide_eq_false_2 by (by intros [? ?]).
  all: unfold os_rename; cbn [fs log].
  all: rewrite ?lookup_delete_ne by done; rewrite lookup_insert_eq.
  all: eexists; split; [reflexivity|]; cbn [fs].
  all: split; [by rewrite lookup_insert_eq|].
  all: split; [by rewrite lookup_insert_ne, lookup_delete_eq|].
  all: intros other Hp Ht.
  all: by rewrite lookup_insert_ne, !lookup_delete_ne, ?lookup_insert_ne.
Qed.

(** Away from an override [False] on a file name ending in [gz], the
    staging file is opened as the specification says: through gzip when
    the name ends in [gz] (so when it ends in [.gz]), else as the
    override says, else as plain text; the writer writes to it, and in
    write mode the final path ends up holding what was written in that
    transport. *)
Lemma write_transport_name_then_override (path mode : pystr)
    (gz : option bool) (unique : bool) (w : world) :
  mode = str "w" ∨ (mode = str "x" ∧ os_path_exists (abspath path) w = false) →
  (gz = Some false → endswith (basename (abspath path)) (str "gz") = false) →
  let gzip := if endswith (basename (abspath path)) (str "gz") then true
              else match gz with
                   | Some override => override
                   | None => false
                   end in
  (endswith (basename (abspath path)) (str ".gz") = true → gzip = true)
  ∧ ∃ self w',
      DumpOpener.__init__ path mode gz unique w = (Ok self, w')
      ∧ h_gzip (DumpOpener.file_obj self) = gzip
      ∧ h_path (DumpOpener.file_obj self) = abspath path ++ str ".partial"
      ∧ DumpOpener.rw_obj self =
          DumpOpener.Writer
            (DumpWriter.__init__ (Utf8File []) default_separator unique (Some 4%Z))
      ∧ (∀ wr text,
           mode = str "w" →
           DumpWriter.file_obj wr = Utf8File text →
           ∃ w'',
             DumpOpener.__exit__
               (DumpOpener.with_rw_obj self (DumpOpener.Writer wr)) w'
             = (Ok tt, w'')
             ∧ fs w'' !! abspath path =
                 Some (if gzip then GzipText text else PlainText text)).
Proof.
  intros Hmode Hslip gzip.
  assert (Hgzip : gzip = match gz with
                         | Some override => override
                         | None => endswith (basename (abspath path)) (str "gz")
                         end).
  { subst gzip. destruct (endswith (basename (abspath path)) (str "gz")) eqn:Hgz;
      [|done].
    destruct gz as [[|]|]; [done| |done]. by specialize (Hslip eq_refl). }
  split.
  - intros Hdot. subst gzip.
    pose proof (gz_of_filename_spec (basename (abspath path))) as Hspec.
    unfold DumpOpener.gz_of_filename in Hspec. rewrite Hdot in Hspec.
    destruct (endswith (basename (abspath path)) (str "gz")) eqn:Hgz; [done|].
    by destruct (endswith (drop_last 3 _) _).
  - rewrite (init_write_create_ok path mode gz unique w Hmode Hslip).
    rewrite <- Hgzip. eexists _, _. split; [reflexivity|].
    cbn [DumpOpener.file_obj DumpOpener.rw_obj h_gzip h_path].
    repeat split.
    intros wr text Hw Hwr.
    destruct (exit_installs_staging mode (abspath path) gzip wr text
                {| fs := <[abspath path ++ str ".partial" := PlainText []]> (fs w);
                   log := log w ++ [EvOpen (abspath path ++ str ".partial")
                                      (if gzip then WB else WT) gzip] |}
                Hwr (or_introl Hw))
      as (w'' & Hexit & Hpath & _).
    exists w''. split; [|done].
    rewrite <- Hexit. reflexivity.
Qed.

(** ** Writing documents and reading them back *)

Section Roundtrip.

Context {laws : FloatLaws env}.

(** *** Induction on documents *)

Lemma value_ind' (P : json.value → Prop) :
  P json.JNull →
  (∀ b, P (json.JBool b)) →
  (∀ z, P (json.JInt z)) →
  (∀ f, P (json.JFloat f)) →
  (∀ s, P (json.JStr s)) →
  (∀ items, Forall P items → P (json.JList items)) →
  (∀ items, Forall (λ kv, P (snd kv)) items → P (json.JDict items)) →
  ∀ o, P o.
Proof.
  intros Hnull Hbool Hint Hfloat Hstr Hlist Hdict.
  fix IH 1. intros [| b | z | f | s | items | items].
  - exact Hnull.
  - apply Hbool.
  - apply Hint.
  - apply Hfloat.
  - apply Hstr.
  - apply Hlist. induction items as [|x items IHitems]; constructor.
    + apply IH.
    + exact IHitems.
  - apply Hdict. induction items as [|[k v] items IHitems]; constructor.
    + apply IH.
    + exact IHitems.
Qed.

(** *** Integers *)

Lemma uint_of_digits_chars (u : Decimal.uint) :
  json.uint_of_digits (json.uint_chars u) = u.
Proof. induction u; simpl; unfold json.digit_cons; simpl; congruence. Qed.

Lemma uint_chars_digits (u : Decimal.uint) :
  forallb json.is_digit (json.uint_chars u) = true.
Proof. induction u; simpl; auto. Qed.

Lemma span_digits_all (ds rest : pystr) :
  forallb json.is_digit ds = true →
  match rest with [] => True | c :: _ => json.is_digit c = false end →
  json.span_digits (ds ++ rest) = (ds, rest).
Proof.
  intros Hds Hrest. induction ds as [|d ds IH]; simpl in *.
  - destruct rest as [|c rest]; [done|]. simpl. by rewrite Hrest.
  - apply andb_true_iff in Hds as [Hd Hds]. rewrite Hd, IH by done. done.
Qed.

(** The digits of a positive number start with a digit that is not 0. *)
Lemma to_uint_head (p : positive) :
  ∃ c ds, json.uint_chars (Pos.to_uint p) = c :: ds
          ∧ 49 ≤ c ≤ 57 ∧ forallb json.is_digit ds = true.
Proof.
  pose proof (DecimalPos.Unsigned.to_uint_nonnil p) as Hnil.
  pose proof (DecimalPos.Unsigned.of_to p) as Hof.
  pose proof (DecimalPos.Unsigned.to_of (Pos.to_uint p)) as Hto.
  rewrite Hof in Hto. simpl in Hto.
  pose proof (uint_chars_digits (Pos.to_uint p)) as Hdig.
  destruct (Pos.to_uint p) as [|u|u|u|u|u|u|u|u|u|u] eqn:Hu; try done;
    simpl in Hdig |- *.
  2-10: eexists _, _; split; [reflexivity|]; split; [lia|done].
  (* a leading zero: the normal form would be shorter *)
  exfalso. rewrite unorm_D0 in Hto.
  destruct (uint_eq_dec u Nil) as [->|Hne].
  - by apply (DecimalPos.Unsigned.to_uint_nonzero p).
  - pose proof (nb_digits_unorm u Hne) as Hlen.
    rewrite <- Hto in Hlen. simpl in Hlen. lia.
Qed.

(** [match_number] on the [repr] of an integer. *)
Lemma match_number_int_repr (z : Z) :
  ∃ negative digits,
    json.match_number (json.int_repr z) = Some (json.NumInt negative digits, [])
    ∧ json.int_of_digits negative digits = z.
Proof.
  unfold json.int_repr, json.int_of_digits.
  pose proof (DecimalZ.of_to z) as Hof.
  destruct z as [|p|p]; cbn [Z.to_int] in *.
  - exists false, [48]. split; reflexivity.
  - destruct (to_uint_head p) as (c & ds & Hc & Hrange & Hds).
    exists false, (c :: ds). split.
    + rewrite Hc. unfold json.match_number, json.match_integer.
      char_neq c 45. char_neq c 48.
      replace (json.is_digit c) with true
        by (symmetry; apply is_digit_range; lia).
      pose proof (span_digits_all ds [] Hds I) as Hsp.
      rewrite app_nil_r in Hsp. rewrite Hsp. done.
    + rewrite <- Hc, uint_of_digits_chars. exact Hof.
  - destruct (to_uint_head p) as (c & ds & Hc & Hrange & Hds).
    exists true, (c :: ds). split.
    + rewrite Hc. unfold json.match_number, json.match_integer.
      cbn [N.eqb Pos.eqb].
      char_neq c 48.
      replace (json.is_digit c) with true
        by (symmetry; apply is_digit_range; lia).
      pose proof (span_digits_all ds [] Hds I) as Hsp.
      rewrite app_nil_r in Hsp. rewrite Hsp. done.
    + rewrite <- Hc, uint_of_digits_chars. exact Hof.
Qed.

(** *** Numbers *)

Lemma number_char_false (c : N) :
  number_char c = false →
  json.is_digit c = false ∧ c ≠ 45 ∧ c ≠ 43 ∧ c ≠ 46 ∧ c ≠ 101 ∧ c ≠ 69.
Proof.
  unfold number_char. rewrite !orb_false_iff, !N.eqb_neq. tauto.
Qed.

Lemma span_digits_spec (s : pystr) :
  s = (json.span_digits s).1 ++ (json.span_digits s).2
  ∧ forallb json.is_digit (json.span_digits s).1 = true.
Proof.
  induction s as [|c s [IH1 IH2]]; simpl; [done|].
  destruct (json.is_digit c) eqn:Hc; simpl; [|done].
  rewrite Hc, IH2. split; [congruence|done].
Qed.

Lemma span_digits_app (s rest : pystr) :
  follows_number rest →
  json.span_digits (s ++ rest) =
  ((json.span_digits s).1, (json.span_digits s).2 ++ rest).
Proof.
  intros Hrest. induction s as [|c s IH]; simpl.
  - destruct rest as [|c rest]; [done|]. simpl.
    apply number_char_false in Hrest as [-> _]. done.
  - destruct (json.is_digit c); [|done]. by rewrite IH.
Qed.

Lemma match_integer_spec (s t r : pystr) :
  json.match_integer s = Some (t, r) →
  s = t ++ r ∧ forallb json.is_digit t = true
  ∧ ∃ d ds, t = d :: ds ∧ json.is_digit d = true.
Proof.
  unfold json.match_integer. destruct s as [|c s]; [done|].
  destruct (N.eqb_spec c 48) as [->|Hc].
  - intros [= <- <-]. repeat split; eauto.
  - destruct (json.is_digit c) eqn:Hd; [|done]. intros [= <- <-].
    destruct (span_digits_spec s) as [Hs Hds].
    simpl. rewrite Hd, Hds. split; [congruence|]. split; [done|]. eauto.
Qed.

Lemma match_integer_app (s rest t r : pystr) :
  follows_number rest →
  json.match_integer s = Some (t, r) →
  json.match_integer (s ++ rest) = Some (t, r ++ rest).
Proof.
  intros Hrest. unfold json.match_integer. destruct s as [|c s]; [done|]. simpl.
  destruct (c =? 48); [by intros [= <- <-]|].
  destruct (json.is_digit c); [|done]. intros [= <- <-].
  by rewrite span_digits_app.
Qed.

Lemma forallb_digit_number (ds : pystr) :
  forallb json.is_digit ds = true → forallb number_char ds = true.
Proof.
  rewrite !forallb_forall. intros H c Hc. unfold number_char.
  by rewrite (H c Hc).
Qed.

Lemma match_frac_spec (s : pystr) :
  s = (json.match_frac s).1 ++ (json.match_frac s).2
  ∧ forallb number_char (json.match_frac s).1 = true.
Proof.
  unfold json.match_frac. destruct s as [|c s]; [done|].
  destruct (N.eqb_spec c 46) as [->|Hc]; [|done].
  destruct (span_digits_spec s) as [Hs Hds].
  destruct (json.span_digits s) as [[|d ds] r]; [done|]. cbn [fst snd] in *.
  apply forallb_digit_number in Hds.
  split; [by rewrite Hs|]. cbn [forallb] in *. by rewrite Hds.
Qed.

Lemma match_frac_app (s rest : pystr) :
  follows_number rest →
  json.match_frac (s ++ rest) =
  ((json.match_frac s).1, (json.match_frac s).2 ++ rest).
Proof.
  intros Hrest. unfold json.match_frac. destruct s as [|c s]; simpl.
  - destruct rest as [|c rest]; [done|].
    apply number_char_false in Hrest as (_ & _ & _ & Hdot & _).
    by char_neq c 46.
  - destruct (c =? 46); [|done]. rewrite span_digits_app by done.
    by destruct (json.span_digits s) as [[|d ds] r].
Qed.

Lemma match_exp_spec (s : pystr) :
  s = (json.match_exp s).1 ++ (json.match_exp s).2
  ∧ forallb number_char (json.match_exp s).1 = true.
Proof.
  unfold json.match_exp. destruct s as [|e s]; [done|].
  destruct ((e =? 101) || (e =? 69)) eqn:He; [|done].
  assert (Hen : number_char e = true).
  { unfold number_char. apply orb_true_iff in He as [->| ->];
      by rewrite ?orb_true_r. }
  destruct s as [|sign s]; [done|].
  destruct ((sign =? 45) || (sign =? 43)) eqn:Hsign.
  - assert (Hsn : number_char sign = true).
    { unfold number_char. apply orb_true_iff in Hsign as [->| ->];
        by rewrite ?orb_true_r. }
    destruct (span_digits_spec s) as [Hs Hds].
    destruct (json.span_digits s) as [[|d ds] r]; [done|]. cbn [fst snd] in *.
    apply forallb_digit_number in Hds.
    split; [by rewrite Hs|]. cbn [forallb] in *. by rewrite Hen, Hsn, Hds.
  - destruct (span_digits_spec (sign :: s)) as [Hs Hds].
    destruct (json.span_digits (sign :: s)) as [[|d ds] r]; [done|].
    cbn [fst snd] in *. apply forallb_digit_number in Hds.
    split; [by rewrite Hs|]. cbn [forallb] in *. by rewrite Hen, Hds.
Qed.

Lemma match_exp_app (s rest : pystr) :
  follows_number rest →
  json.match_exp (s ++ rest) =
  ((json.match_exp s).1, (json.match_exp s).2 ++ rest).
Proof.
  intros Hrest. unfold json.match_exp. destruct s as [|e s]; simpl.
  - destruct rest as [|c rest]; [done|].
    apply number_char_false in Hrest as (_ & _ & _ & _ & ? & ?).
    char_neq c 101. by char_neq c 69.
  - destruct ((e =? 101) || (e =? 69)); [|done].
    destruct s as [|sign s]; simpl.
    + destruct rest as [|c rest]; [done|].
      pose proof Hrest as Hrest'.
      apply number_char_false in Hrest as (Hd & ? & ? & _).
      char_neq c 45. char_neq c 43. cbn [orb json.span_digits].
      by rewrite Hd.
    + destruct ((sign =? 45) || (sign =? 43)).
      * rewrite span_digits_app by done.
        by destruct (json.span_digits s) as [[|d ds] r].
      * change (sign :: s ++ rest) with ((sign :: s) ++ rest).
        rewrite span_digits_app by done.
        by destruct (json.is_digit sign).
Qed.

(** What [match_number] consumed: a minus sign maybe, a digit, then
    characters of numbers only. *)
Lemma match_number_spec (s : pystr) (tok : json.number) (r : pystr) :
  json.match_number s = Some (tok, r) →
  s = number_text tok ++ r
  ∧ ∃ sign d more,
      number_text tok = sign ++ d :: more
      ∧ (sign = [] ∨ sign = [45])
      ∧ json.is_digit d = true
      ∧ forallb number_char more = true.
Proof.
  unfold json.match_number.
  set (split_sign := match s with
                     | c :: s' => if c =? 45 then (true, s') else (false, s)
                     | [] => (false, s)
                     end).
  assert (Hsign : s = (if split_sign.1 then [45] else []) ++ split_sign.2).
  { subst split_sign. destruct s as [|c s]; [done|].
    by destruct (N.eqb_spec c 45) as [->|]. }
  destruct split_sign as [negative s1]. simpl in Hsign.
  destruct (json.match_integer s1) as [[digits s2]|] eqn:Hint; [|done].
  apply match_integer_spec in Hint as (Hs1 & Hdigits & d & ds & -> & Hd).
  destruct (match_frac_spec s2) as [Hs2 Hfrac].
  destruct (json.match_frac s2) as [frac s3]. simpl in Hs2, Hfrac.
  destruct (match_exp_spec s3) as [Hs3 Hexp].
  destruct (json.match_exp s3) as [exp s4]. simpl in Hs3, Hexp.
  simpl in Hdigits. apply andb_true_iff in Hdigits as [_ Hds].
  apply forallb_digit_number in Hds.
  intros Htok.
  assert (number_text tok
                  = (if negative then [45] else []) ++ d :: ds ++ frac ++ exp
                  ∧ r = s4) as [Htext ->].
  { destruct frac, exp; injection Htok as <- <-; simpl.
      all: by rewrite ?app_nil_r. }
  rewrite Htext. split.
  - rewrite Hsign, Hs1, Hs2, Hs3.
    destruct negative; simpl; by rewrite <- !app_assoc.
  - exists (if negative then [45] else []), d, (ds ++ frac ++ exp).
    split; [done|]. split; [destruct negative; auto|]. split; [done|].
    by rewrite !forallb_app, Hds, Hfrac, Hexp.
Qed.

Lemma match_number_app (s rest : pystr) (tok : json.number) (r : pystr) :
  follows_number rest →
  json.match_number s = Some (tok, r) →
  json.match_number (s ++ rest) = Some (tok, r ++ rest).
Proof.
  intros Hrest. unfold json.match_number.
  destruct s as [|c s].
  - done.
  - cbn [app]. destruct (c =? 45).
    + destruct (json.match_integer s) as [[digits s2]|] eqn:Hint; [|done].
      rewrite (match_integer_app _ _ _ _ Hrest Hint).
      rewrite match_frac_app by done.
      destruct (json.match_frac s2) as [frac s3]. simpl.
      rewrite match_exp_app by done.
      destruct (json.match_exp s3) as [exp s4]. simpl.
      destruct frac, exp; by intros [= <- <-].
    + destruct (json.match_integer (c :: s)) as [[digits s2]|] eqn:Hint; [|done].
      change (c :: s ++ rest) with ((c :: s) ++ rest).
      rewrite (match_integer_app _ _ _ _ Hrest Hint).
      rewrite match_frac_app by done.
      destruct (json.match_frac s2) as [frac s3]. simpl.
      rewrite match_exp_app by done.
      destruct (json.match_exp s3) as [exp s4]. simpl.
      destruct frac, exp; by intros [= <- <-].
Qed.

(** *** Strings *)

Lemma scanstring_escape (c : N) (t : pystr) :
  json.py_scanstring (json.escape_char c ++ t) = json.prepend c <$> json.py_scanstring t.
Proof.
  destruct (N.lt_ge_cases c 32) as [Hlt|Hge].
  - assert (c = 0 ∨ c = 1 ∨ c = 2 ∨ c = 3 ∨ c = 4 ∨ c = 5 ∨ c = 6 ∨ c = 7
            ∨ c = 8 ∨ c = 9 ∨ c = 10 ∨ c = 11 ∨ c = 12 ∨ c = 13 ∨ c = 14
            ∨ c = 15 ∨ c = 16 ∨ c = 17 ∨ c = 18 ∨ c = 19 ∨ c = 20 ∨ c = 21
            ∨ c = 22 ∨ c = 23 ∨ c = 24 ∨ c = 25 ∨ c = 26 ∨ c = 27 ∨ c = 28
            ∨ c = 29 ∨ c = 30 ∨ c = 31) as Hcases by lia.
    repeat (destruct Hcases as [->|Hcases]; [reflexivity|]).
    subst c. reflexivity.
  - destruct (N.eqb_spec c 34) as [->|H34]; [reflexivity|].
    destruct (N.eqb_spec c 92) as [->|H92]; [reflexivity|].
    unfold json.escape_char, dquote, backslash, newline, creturn.
    char_neq c 34. char_neq c 92. char_neq c 10. char_neq c 13.
    char_neq c 9. char_neq c 8. char_neq c 12.
    replace (c <? 32) with false by (symmetry; apply N.ltb_ge; lia).
    cbn [app json.py_scanstring]. unfold dquote, backslash.
    char_neq c 34. char_neq c 92.
    replace (c <? 32) with false by (symmetry; apply N.ltb_ge; lia).
    done.
Qed.

Lemma scanstring_encoded (s rest : pystr) :
  json.py_scanstring (flat_map json.escape_char s ++ dquote :: rest)
  = Some (s, rest).
Proof.
  induction s as [|c s IH]; [done|].
  cbn [flat_map]. rewrite <- app_assoc, scanstring_escape, IH. done.
Qed.

(** *** Whitespace *)

Lemma skip_ws_app (ws t : pystr) :
  forallb json.is_ws ws = true → json.skip_ws (ws ++ t) = json.skip_ws t.
Proof.
  unfold json.skip_ws. induction ws as [|c ws IH]; [done|]. simpl.
  intros [-> ?]%andb_true_iff. auto.
Qed.

Lemma skip_ws_stop (c : N) (t : pystr) :
  json.is_ws c = false → json.skip_ws (c :: t) = c :: t.
Proof. unfold json.skip_ws. simpl. by intros ->. Qed.

Lemma newline_indent_ws (indent : option Z) (level : nat) :
  forallb json.is_ws (json.newline_indent (json.indent_str indent) level) = true.
Proof.
  destruct indent as [n|]; [|done]. simpl.
  assert (Hspaces : ∀ k, forallb json.is_ws (replicate k 32) = true).
  { induction k as [|k IHk]; [done|]. exact IHk. }
  induction level as [|level IH]; [done|]. simpl.
  by rewrite forallb_app, Hspaces, IH.
Qed.

Lemma item_sep_shape (indent : option Z) :
  ∃ ws, json.item_sep indent = 44 :: ws ∧ forallb json.is_ws ws = true.
Proof. destruct indent; [by exists []|by exists [32]]. Qed.

(** *** Scanning a number that is followed by something else *)

Lemma scan_once_number (fuel : nat) (s rest : pystr) (tok : json.number) :
  json.match_number s = Some (tok, []) →
  follows_number rest →
  json.scan_once (S fuel) (s ++ rest) = Some (number_value tok, rest).
Proof.
  intros Hnum Hrest.
  pose proof (match_number_app s rest tok [] Hrest Hnum) as Happ.
  apply match_number_spec in Hnum
    as (Hs & sign & d & more & Htext & Hsign & Hd & _).
  rewrite app_nil_r in Hs. rewrite <- Hs in Htext.
  apply is_digit_range in Hd.
  assert (∃ c t, s ++ rest = c :: t ∧ (c = 45 ∨ 48 ≤ c ≤ 57))
    as (c & t & Hct & Hc).
  { rewrite Htext. destruct Hsign as [-> | ->]; simpl; eauto. }
  rewrite Hct in Happ |- *. cbn [json.scan_once]. unfold dquote. norm_str.
  cbn [startswith].
  char_neq c 34. char_neq c 123. char_neq c 91. char_neq c 110.
  char_neq c 116. char_neq c 102. cbn [andb]. rewrite Happ.
  by destruct tok.
Qed.

(** *** Sorting the items of a dict *)

Lemma insert_item_map {A B} (f : A → B) (kv : pystr * A) (l : list (pystr * A)) :
  json.insert_item (on_values f kv) (map (on_values f) l)
  = map (on_values f) (json.insert_item kv l).
Proof.
  induction l as [|kv' l IH]; [done|]. simpl.
  destruct (str_ltb kv'.1 kv.1); simpl; [by rewrite IH|done].
Qed.

Lemma sort_items_map {A B} (f : A → B) (l : list (pystr * A)) :
  json.sort_items (map (on_values f) l) = map (on_values f) (json.sort_items l).
Proof.
  induction l as [|kv l IH]; [done|]. simpl.
  by rewrite IH, insert_item_map.
Qed.

Lemma insert_item_perm {A} (kv : pystr * A) (l : list (pystr * A)) :
  json.insert_item kv l ≡ₚ kv :: l.
Proof.
  induction l as [|kv' l IH]; [done|]. simpl.
  destruct (str_ltb kv'.1 kv.1); [|done].
  rewrite IH. apply Permutation_swap.
Qed.

Lemma sort_items_perm {A} (l : list (pystr * A)) : json.sort_items l ≡ₚ l.
Proof.
  induction l as [|kv l IH]; [done|]. simpl.
  by rewrite insert_item_perm, IH.
Qed.

Lemma dict_set_fresh {A} (k : pystr) (v : A) (d : list (pystr * A)) :
  k ∉ map fst d → json.dict_set k v d = d ++ [(k, v)].
Proof.
  induction d as [|[k' v'] d IH]; [done|]. simpl.
  intros Hk. apply not_elem_of_cons in Hk as [Hne Hk].
  rewrite bool_decide_eq_false_2 by done. by rewrite IH.
Qed.

Lemma dict_of_pairs_nodup {A} (l : list (pystr * A)) :
  NoDup (map fst l) → json.dict_of_pairs l = l.
Proof.
  unfold json.dict_of_pairs.
  assert (∀ acc, NoDup (map fst (acc ++ l)) →
                 fold_left (λ d kv, json.dict_set kv.1 kv.2 d) l acc = acc ++ l)
    as Hgen.
  { induction l as [|[k v] l IH]; intros acc Hnd; simpl.
    - by rewrite app_nil_r.
    - rewrite dict_set_fresh.
      + rewrite IH; rewrite <- app_assoc; done.
      + rewrite map_app in Hnd. simpl in Hnd.
        apply NoDup_app in Hnd as (_ & Hdisj & _).
        intros Hin. apply (Hdisj k Hin). by left. }
  intros Hnd. by apply (Hgen []).
Qed.

Lemma dict_get_nodup {A} (l : list (pystr * A)) (k : pystr) (v : A) :
  NoDup (map fst l) → (k, v) ∈ l → json.dict_get k l = Some v.
Proof.
  induction l as [|[k' v'] l IH]; simpl; intros Hnd Hin.
  - by apply elem_of_nil in Hin.
  - apply NoDup_cons in Hnd as [Hk' Hnd].
    apply elem_of_cons in Hin as [[= -> ->]|Hin].
    + by rewrite bool_decide_eq_true_2.
    + rewrite bool_decide_eq_false_2; [by apply IH|].
      intros ->. apply Hk'.
      by apply list_elem_of_In, (in_map fst _ (k', v)), list_elem_of_In.
Qed.

(** *** Scanning what the encoder wrote *)

Lemma value_start_not_ws (c : N) : value_start c → json.is_ws c = false.
Proof.
  unfold value_start, json.is_ws. intros H.
  rewrite !orb_false_iff, !N.eqb_neq. lia.
Qed.

Lemma number_head (s : pystr) (tok : json.number) :
  json.match_number s = Some (tok, []) →
  ∃ c t, s = c :: t ∧ value_start c.
Proof.
  intros (Hs & sign & d & more & Htext & Hsign & Hd & _)%match_number_spec.
  rewrite app_nil_r in Hs. rewrite <- Hs in Htext.
  apply is_digit_range in Hd. unfold value_start.
  destruct Hsign as [-> | ->]; simpl in Htext; eexists _, _; split; eauto.
  all: lia.
Qed.

Lemma enc_head (indent : option Z) (level : nat) (o : json.value) :
  json.isfinite o = true →
  ∃ c t, enc indent level o = c :: t ∧ value_start c.
Proof.
  unfold value_start.
  destruct o as [| [|] | z | f | s | [|x items] | [|kv items]]; intros Hfin;
    cbn [json.iterencode]; norm_str.
  1-3, 6-10: unfold json.encode_basestring, dquote; cbn [app];
    eexists _, _; split; [reflexivity|lia].
  - destruct (match_number_int_repr z) as (n & ds & Hm & _).
    by apply number_head in Hm.
  - apply float_repr_literal in Hfin. by apply number_head in Hfin.
Qed.

Lemma follows_closing (indent : option Z) (level : nat) (c : N) (rest : pystr) :
  c = 93 ∨ c = 125 → follows_number (nl indent level ++ c :: rest).
Proof. destruct indent; intros [-> | ->]; done. Qed.

Lemma follows_item_sep (indent : option Z) (rest : pystr) :
  follows_number (json.item_sep indent ++ rest).
Proof. by destruct indent. Qed.

Lemma skip_ws_closing (indent : option Z) (level : nat) (c : N) (rest : pystr) :
  c = 93 ∨ c = 125 → json.skip_ws (nl indent level ++ c :: rest) = c :: rest.
Proof.
  intros Hc. rewrite skip_ws_app by apply newline_indent_ws.
  apply skip_ws_stop. by destruct Hc as [-> | ->].
Qed.

(** After a comma: the rest of the separator and the indentation are
    skipped, up to the next item. *)
Lemma skip_ws_item_sep (indent : option Z) (level : nat) (c : N) (t : pystr) :
  value_start c →
  ∃ ws, json.item_sep indent ++ nl indent level ++ c :: t = 44 :: ws ++ c :: t
        ∧ json.skip_ws (ws ++ c :: t) = c :: t.
Proof.
  intros Hc. destruct (item_sep_shape indent) as (ws & -> & Hws).
  exists (ws ++ nl indent level). split; [by rewrite <- app_assoc|].
  rewrite <- app_assoc, skip_ws_app, skip_ws_app by (done || apply newline_indent_ws).
  by apply skip_ws_stop, value_start_not_ws.
Qed.

Lemma join_with_cons (sep x : pystr) (y : pystr) (ys : list pystr) :
  join_with sep (x :: y :: ys) = x ++ sep ++ join_with sep (y :: ys).
Proof. reflexivity. Qed.

Lemma join_with_head (sep : pystr) (f : json.value → pystr) (x : json.value)
    (xs : list json.value) (c : N) (t : pystr) :
  f x = c :: t → ∃ t', join_with sep (map f (x :: xs)) = c :: t'.
Proof.
  intros Hx. destruct xs as [|y ys]; simpl; rewrite Hx; eauto.
Qed.

Lemma array_loop_items (indent : option Z) (level closing : nat)
    (xs : list json.value) :
  xs ≠ [] →
  Forall (scans indent level) xs →
  Forall (heads indent level) xs →
  ∀ acc fuel rest,
    (length (join_with (json.item_sep indent ++ nl indent level)
               (map (enc indent level) xs)) < fuel)%nat →
    json.JSONArray_loop fuel
      (join_with (json.item_sep indent ++ nl indent level) (map (enc indent level) xs)
       ++ nl indent closing ++ 93 :: rest) acc
    = Some (json.JList (acc ++ map json.sort_keys xs), rest).
Proof.
  intros Hne Hscan Hhead.
  induction xs as [|x xs IH]; [done|]. clear Hne.
  apply Forall_cons in Hscan as [Hx Hscan].
  apply Forall_cons in Hhead as [Hhx Hhead].
  intros acc fuel rest Hfuel.
  destruct fuel as [|fuel]; [lia|].
  destruct xs as [|y ys].
  - cbn [map join_with] in *. cbn [json.JSONArray_loop].
    rewrite Hx by (lia || by apply follows_closing; left).
    rewrite skip_ws_closing by (by left). done.
  - cbn [map] in *. rewrite join_with_cons in *.
    rewrite !length_app in Hfuel.
    apply Forall_cons in Hhead as Hhy. destruct Hhy as [(c & t & Hy & Hc) _].
    destruct (join_with_head (json.item_sep indent ++ nl indent level)
                (enc indent level) y ys c t Hy) as (t' & Hj).
    cbn [map] in Hj. rewrite Hj in Hfuel |- *.
    rewrite <- !app_assoc. cbn [json.JSONArray_loop].
    rewrite Hx by (lia || apply follows_item_sep).
    destruct (skip_ws_item_sep indent level c
                (t' ++ nl indent closing ++ 93 :: rest) Hc) as (ws & Heq & Hskip).
    cbn [app] in Heq |- *. rewrite Heq.
    rewrite skip_ws_stop by done. cbn [N.eqb Pos.eqb]. rewrite Hskip.
    specialize (IH ltac:(done) Hscan Hhead (acc ++ [json.sort_keys x]) fuel rest).
    cbn [map] in IH. rewrite Hj in IH. cbn [app] in IH. rewrite IH.
    + by rewrite <- app_assoc.
    + destruct Hhx as (? & ? & Heqx & _). rewrite Heqx in Hfuel.
      cbn [length] in Hfuel |- *. lia.
Qed.

Lemma item_unfold (indent : option Z) (level : nat) (kv : pystr * json.value) :
  item indent level kv = dquote :: item_tail indent level kv.
Proof.
  unfold item, item_tail, json.encode_basestring, json.key_separator.
  norm_str. cbn [app]. by rewrite <- app_assoc.
Qed.

Lemma join_items_head (indent : option Z) (level : nat) (sep : pystr)
    (kv : pystr * json.value) (kvs : list (pystr * json.value)) :
  ∃ t, join_with sep (map (item indent level) (kv :: kvs)) = dquote :: t.
Proof.
  destruct kvs as [|kv' kvs]; cbn [map join_with]; rewrite item_unfold;
    cbn [app]; eauto.
Qed.

Lemma object_loop_items (indent : option Z) (level closing : nat)
    (kvs : list (pystr * json.value)) :
  kvs ≠ [] →
  Forall (λ kv, scans indent level kv.2) kvs →
  Forall (λ kv, heads indent level kv.2) kvs →
  ∀ pairs fuel rest text,
    join_with (json.item_sep indent ++ nl indent level) (map (item indent level) kvs)
    = dquote :: text →
    (length text < fuel)%nat →
    json.JSONObject_loop fuel (text ++ nl indent closing ++ 125 :: rest) pairs
    = Some (json.JDict
              (json.dict_of_pairs (pairs ++ map (on_values json.sort_keys) kvs)),
            rest).
Proof.
  intros Hne Hscan Hhead.
  induction kvs as [|kv kvs IH]; [done|]. clear Hne.
  apply Forall_cons in Hscan as [Hv Hscan].
  apply Forall_cons in Hhead as [Hhv Hhead].
  intros pairs fuel rest text Htext Hfuel.
  destruct fuel as [|fuel]; [lia|].
  destruct Hhv as (c & t & Hc & Hstart).
  assert (Hspace : ∀ more, json.skip_ws (32 :: enc indent level kv.2 ++ more)
                           = enc indent level kv.2 ++ more).
  { intros more. change (32 :: ?x) with ([32] ++ x).
    rewrite skip_ws_app by done. rewrite Hc. cbn [app].
    by apply skip_ws_stop, value_start_not_ws. }
  destruct kvs as [|kv' kvs].
  - cbn [map join_with] in Htext. rewrite item_unfold in Htext.
    injection Htext as <-. unfold item_tail in *.
    rewrite length_app in Hfuel. cbn [length] in Hfuel.
    rewrite <- app_assoc. cbn [app json.JSONObject_loop].
    rewrite scanstring_encoded, skip_ws_stop by done.
    cbn [N.eqb Pos.eqb]. rewrite <- ?app_assoc, Hspace.
    rewrite Hv by (lia || by apply follows_closing; right).
    rewrite skip_ws_closing by (by right). done.
  - cbn [map] in Htext. rewrite join_with_cons, item_unfold in Htext.
    destruct (join_items_head indent level (json.item_sep indent ++ nl indent level)
                kv' kvs) as (text' & Hj).
    cbn [map] in Hj. rewrite Hj in Htext.
    injection Htext as <-. unfold item_tail in *.
    rewrite ?length_app in Hfuel. cbn [length] in Hfuel.
    rewrite ?length_app in Hfuel. cbn [length] in Hfuel.
    rewrite <- !app_assoc. cbn [app json.JSONObject_loop].
    rewrite scanstring_encoded, skip_ws_stop by done.
    cbn [N.eqb Pos.eqb]. rewrite <- ?app_assoc, Hspace.
    rewrite Hv by (lia || apply follows_item_sep).
    destruct (skip_ws_item_sep indent level dquote
                (text' ++ nl indent closing ++ 125 :: rest))
      as (ws & Heq & Hskip); [by left|].
    rewrite Heq, skip_ws_stop by done. cbn [N.eqb Pos.eqb]. rewrite Hskip.
    unfold dquote. cbn [N.eqb Pos.eqb]. fold dquote.
    rewrite (IH ltac:(done) Hscan Hhead (pairs ++ [(kv.1, json.sort_keys kv.2)])
               fuel rest text' Hj) by lia.
    by rewrite <- app_assoc.
Qed.

Lemma enter_array (fuel : nat) (J R : pystr) (c : N) (t : pystr) (ws : pystr) :
  forallb json.is_ws ws = true →
  J = c :: t → value_start c →
  json.scan_once (S fuel) (91 :: ws ++ J ++ R)
  = json.JSONArray_loop fuel (J ++ R) [].
Proof.
  intros Hws -> Hc. cbn [json.scan_once]. unfold dquote.
  cbn [N.eqb Pos.eqb]. rewrite skip_ws_app by done. cbn [app].
  rewrite skip_ws_stop by by apply value_start_not_ws.
  unfold value_start in Hc. by char_neq c 93.
Qed.

Lemma enter_object (fuel : nat) (text R : pystr) (ws : pystr) :
  forallb json.is_ws ws = true →
  json.scan_once (S fuel) (123 :: ws ++ dquote :: text ++ R)
  = json.JSONObject_loop fuel (text ++ R) [].
Proof.
  intros Hws. cbn [json.scan_once]. unfold dquote.
  cbn [N.eqb Pos.eqb]. rewrite skip_ws_app by done. cbn [app].
  by rewrite skip_ws_stop.
Qed.

Lemma forallb_Forall_eq {A} (p : A → bool) (l : list A) :
  forallb p l = true ↔ Forall (λ x, p x = true) l.
Proof. rewrite forallb_forall, Forall_forall. by setoid_rewrite list_elem_of_In. Qed.

(** Scanning what [iterencode] wrote gives the document back, its keys
    sorted. *)
Lemma scan_encoded (o : json.value) :
  json.dict_ok o = true → json.isfinite o = true →
  ∀ indent level, scans indent level o.
Proof.
  induction o as [| b | z | f | s | items IH | items IH] using value_ind';
    intros Hok Hfin indent level fuel rest Hfuel Hrest.
  - destruct fuel; [simpl in Hfuel; lia|]. exact eq_refl.
  - destruct fuel; [destruct b; simpl in Hfuel; lia|]. destruct b; exact eq_refl.
  - cbn [json.iterencode] in *.
    destruct (match_number_int_repr z) as (negative & digits & Hm & Hz).
    destruct fuel.
    { apply number_head in Hm as (? & ? & Heq & _). rewrite Heq in Hfuel.
      simpl in Hfuel. lia. }
    rewrite (scan_once_number _ _ _ _ Hm Hrest). simpl. by rewrite Hz.
  - cbn [json.iterencode json.isfinite] in *.
    pose proof (float_repr_literal f Hfin) as Hm.
    destruct fuel.
    { apply number_head in Hm as (? & ? & Heq & _). rewrite Heq in Hfuel.
      simpl in Hfuel. lia. }
    rewrite (scan_once_number _ _ _ _ Hm Hrest). simpl.
    by rewrite float_repr_roundtrip.
  - cbn [json.iterencode] in *. unfold json.encode_basestring in *.
    destruct fuel; [simpl in Hfuel; lia|].
    cbn [app json.scan_once]. rewrite N.eqb_refl, <- app_assoc.
    cbn [app]. by rewrite scanstring_encoded.
  - cbn [json.dict_ok json.isfinite] in Hok, Hfin.
    apply forallb_Forall_eq in Hok, Hfin.
    destruct items as [|x xs]; [destruct fuel; [simpl in Hfuel; lia|done]|].
    assert (Hscans : Forall (scans indent (S level)) (x :: xs)).
    { apply Forall_forall. intros y Hy.
      rewrite Forall_forall in IH, Hok, Hfin. by apply IH; auto. }
    assert (Hheads : Forall (heads indent (S level)) (x :: xs)).
    { apply Forall_forall. intros y Hy. rewrite Forall_forall in Hfin.
      by apply enc_head, Hfin. }
    cbn [json.iterencode] in *.
    destruct fuel; [rewrite length_app in Hfuel; simpl in Hfuel; lia|].
    apply Forall_cons in Hheads as Hx. destruct Hx as [(c & t & Hx & Hc) _].
    destruct (join_with_head (json.item_sep indent ++ nl indent (S level))
                (enc indent (S level)) x xs c t Hx) as (t' & Hj).
    rewrite <- !app_assoc. cbn [app].
    rewrite (enter_array _ _ _ c t' _ (newline_indent_ws _ _) Hj Hc).
    rewrite array_loop_items; [done|done|done|done|].
    rewrite !length_app in Hfuel. cbn [length] in Hfuel.
    lia.
  - cbn [json.dict_ok json.isfinite] in Hok, Hfin.
    apply andb_true_iff in Hok as [Hnodup Hok].
    apply bool_decide_eq_true in Hnodup.
    apply forallb_Forall_eq in Hok, Hfin.
    destruct items as [|kv kvs]; [destruct fuel; [simpl in Hfuel; lia|done]|].
    set (items := kv :: kvs) in *.
    assert (Hperm : json.sort_items items ≡ₚ items) by apply sort_items_perm.
    assert (Hscans : Forall (λ kv, scans indent (S level) kv.2)
                       (json.sort_items items)).
    { rewrite Hperm. apply Forall_forall. intros y Hy.
      rewrite Forall_forall in IH, Hok, Hfin. by apply IH; auto. }
    assert (Hheads : Forall (λ kv, heads indent (S level) kv.2)
                       (json.sort_items items)).
    { rewrite Hperm. apply Forall_forall. intros y Hy.
      rewrite Forall_forall in Hfin. by apply enc_head, Hfin. }
    assert (Hne : json.sort_items items ≠ []).
    { intros Hnil. rewrite Hnil in Hperm. by apply Permutation_nil_l in Hperm. }
    assert (Henc : enc indent level (json.JDict items)
                   = [123] ++ nl indent (S level)
                     ++ join_with (json.item_sep indent ++ nl indent (S level))
                          (map (item indent (S level)) (json.sort_items items))
                     ++ nl indent level ++ [125]).
    { subst items. cbn [json.iterencode].
      fold (on_values (json.iterencode (json.indent_str indent) (json.item_sep indent)
                         (S level))).
      rewrite sort_items_map, map_map. done. }
    rewrite Henc in *.
    assert (Hsorted : json.sort_keys (json.JDict items)
                      = json.JDict (map (on_values json.sort_keys)
                                      (json.sort_items items))).
    { subst items. cbn [json.sort_keys].
      fold (on_values json.sort_keys). by rewrite sort_items_map. }
    rewrite Hsorted.
    destruct fuel; [rewrite length_app in Hfuel; simpl in Hfuel; lia|].
    assert (Hkeys : json.dict_of_pairs
                      (map (on_values json.sort_keys) (json.sort_items items))
                    = map (on_values json.sort_keys) (json.sort_items items)).
    { apply dict_of_pairs_nodup. rewrite map_map. cbn [on_values fst].
      change (map (λ x : pystr * json.value, x.1)) with (map (@fst pystr json.value)).
      by rewrite Hperm. }
    destruct (json.sort_items items) as [|kv' kvs'] eqn:Hsort; [done|].
    destruct (join_items_head indent (S level)
                (json.item_sep indent ++ nl indent (S level)) kv' kvs')
      as (text & Hj).
    rewrite Hj in *. rewrite <- !app_assoc. cbn [app].
    rewrite (enter_object _ text _ _ (newline_indent_ws _ _)).
    rewrite (object_loop_items indent (S level) level (kv' :: kvs')
               Hne Hscans Hheads [] fuel rest text Hj).
    + cbn [app]. by rewrite Hkeys.
    + rewrite ?length_app in Hfuel. cbn [length] in Hfuel.
      rewrite ?length_app in Hfuel. cbn [length] in Hfuel. lia.
Qed.

(** [json.loads] reads back what [json.dumps] wrote, a newline after it
    or not. *)
Lemma loads_dumps (o : json.value) (indent : option Z) (text : pystr) :
  json.dict_ok o = true →
  json.dumps o indent = Ok text →
  json.loads (text ++ [newline]) = Ok (json.sort_keys o).
Proof.
  intros Hok.
  change (json.dumps o indent)
    with (if json.isfinite o then Ok (enc indent 0 o) else Err ValueError).
  destruct (json.isfinite o) eqn:Hfin; [|done]. intros [= <-].
  destruct (enc_head indent 0 o Hfin) as (c & t & Hc & Hstart).
  assert (Hbom : startswith (enc indent 0 o ++ [newline]) [65279] = false).
  { rewrite Hc. cbn [app startswith]. unfold value_start in Hstart.
    by char_neq c 65279. }
  assert (Hskip : json.skip_ws (enc indent 0 o ++ [newline])
                  = enc indent 0 o ++ [newline]).
  { rewrite Hc. cbn [app]. by apply skip_ws_stop, value_start_not_ws. }
  unfold json.loads. rewrite Hbom, Hskip.
  rewrite (scan_encoded o Hok Hfin indent 0%nat _ [newline]);
    [done|rewrite length_app; lia|done].
Qed.

(** *** No line of an encoded document is a sentinel line *)

Lemma line_scan_app (st : line_state) (a b : pystr) :
  line_scan st (a ++ b) = line_scan st a ≫= λ st', line_scan st' b.
Proof.
  revert st. induction a as [|c a IH]; intros st; [done|]. simpl.
  destruct (line_step st c); [apply IH|done].
Qed.

(** Characters that are neither a line break nor a dash keep a scan
    clean. *)
Lemma line_scan_clean (t : pystr) :
  Forall (λ c, c ≠ 10 ∧ c ≠ 13) t → line_scan Clean t = Some Clean.
Proof.
  induction 1 as [|c t [H10 H13] _ IH]; [done|]. simpl. unfold line_step, creturn, newline.
  char_neq c 13. char_neq c 10. by destruct (c =? 45).
Qed.

Lemma line_scan_token (st : line_state) (t : pystr) :
  token t → line_scan st t = Some Clean.
Proof.
  intros (Hchars & sign & c & t' & -> & Hsign & Hc).
  apply Forall_app in Hchars as [_ Hchars].
  apply Forall_cons in Hchars as [[H10 H13] Hchars].
  rewrite line_scan_app.
  assert (∃ st', line_scan st sign = Some st') as [st' ->].
  { destruct Hsign as [-> | ->]; [by eexists|]. destruct st; by eexists. }
  simpl. unfold line_step, creturn, newline.
  char_neq c 13. char_neq c 10. char_neq c 45.
  by apply line_scan_clean.
Qed.

Lemma line_scan_plain (t : pystr) (st : line_state) :
  Forall (λ c, c ≠ 10 ∧ c ≠ 13) t → ∃ st', line_scan st t = Some st'.
Proof.
  intros Ht. revert st. induction Ht as [|c t [H10 H13] _ IH]; intros st.
  - by eexists.
  - simpl. unfold line_step, creturn, newline. char_neq c 13. char_neq c 10.
    destruct (c =? 45); [destruct st|]; apply IH.
Qed.

Lemma escape_char_plain (c : N) :
  Forall (λ x, x ≠ 10 ∧ x ≠ 13) (json.escape_char c).
Proof.
  destruct (N.lt_ge_cases c 32) as [Hlt|Hge].
  - assert (c = 0 ∨ c = 1 ∨ c = 2 ∨ c = 3 ∨ c = 4 ∨ c = 5 ∨ c = 6 ∨ c = 7
            ∨ c = 8 ∨ c = 9 ∨ c = 10 ∨ c = 11 ∨ c = 12 ∨ c = 13 ∨ c = 14
            ∨ c = 15 ∨ c = 16 ∨ c = 17 ∨ c = 18 ∨ c = 19 ∨ c = 20 ∨ c = 21
            ∨ c = 22 ∨ c = 23 ∨ c = 24 ∨ c = 25 ∨ c = 26 ∨ c = 27 ∨ c = 28
            ∨ c = 29 ∨ c = 30 ∨ c = 31) as Hcases by lia.
    repeat (destruct Hcases as [->|Hcases]; [by repeat constructor|]).
    subst c. by repeat constructor.
  - destruct (N.eqb_spec c 34) as [->|H34]; [by repeat constructor|].
    destruct (N.eqb_spec c 92) as [->|H92]; [by repeat constructor|].
    unfold json.escape_char, dquote, backslash, newline, creturn.
    char_neq c 34. char_neq c 92. char_neq c 10. char_neq c 13.
    char_neq c 9. char_neq c 8. char_neq c 12.
    replace (c <? 32) with false by (symmetry; apply N.ltb_ge; lia).
    repeat constructor; lia.
Qed.

Lemma token_basestring (s : pystr) : token (json.encode_basestring s).
Proof.
  unfold json.encode_basestring, dquote. split.
  - constructor; [done|]. apply Forall_app. split; [|by repeat constructor].
    induction s as [|c s IH]; [constructor|]. simpl.
    apply Forall_app. split; [apply escape_char_plain|done].
  - exists [], 34, (flat_map json.escape_char s ++ [34]). auto.
Qed.

Lemma number_char_plain (c : N) : number_char c = true → c ≠ 10 ∧ c ≠ 13.
Proof.
  unfold number_char, json.is_digit.
  rewrite !orb_true_iff, andb_true_iff, !N.leb_le, !N.eqb_eq. lia.
Qed.

Lemma token_number (s : pystr) (tok : json.number) :
  json.match_number s = Some (tok, []) → token s.
Proof.
  intros (Hs & sign & d & more & Htext & Hsign & Hd & Hmore)%match_number_spec.
  rewrite app_nil_r in Hs. rewrite Hs, Htext. clear Hs Htext.
  apply is_digit_range in Hd. split.
  - apply Forall_app. split.
    + destruct Hsign as [-> | ->]; by repeat constructor.
    + constructor; [lia|]. apply Forall_forall. intros c Hc.
      apply number_char_plain. rewrite forallb_forall in Hmore.
      by apply Hmore, list_elem_of_In.
  - exists sign, d, more. split; [done|]. split; [done|lia].
Qed.

Lemma newline_indent_scan (indent : option Z) (level : nat) :
  ∃ st', line_scan Clean (nl indent level) = Some st'.
Proof.
  destruct indent as [n|]; [|by eexists]. cbn.
  apply line_scan_plain.
  assert (Hspaces : ∀ k, Forall (λ c, c ≠ 10 ∧ c ≠ 13) (replicate k 32)).
  { induction k as [|k IHk]; by constructor. }
  induction level as [|level IH]; [constructor|]. simpl.
  apply Forall_app. split; [apply Hspaces|done].
Qed.

Lemma item_sep_token (indent : option Z) : token (json.item_sep indent).
Proof.
  destruct indent; (split; [by repeat constructor|]).
  - exists [], 44, []. split; [reflexivity|]. split; [by left|done].
  - exists [], 44, [32]. split; [reflexivity|]. split; [by left|done].
Qed.

(** From wherever a scan stands, the items of a list or dict, written
    with their separators, leave it clean. *)
Lemma line_scan_items {A} (indent : option Z) (level : nat) (f : A → pystr)
    (xs : list A) (st : line_state) :
  xs ≠ [] →
  Forall (λ x, ∀ st, line_scan st (f x) = Some Clean) xs →
  line_scan st (join_with (json.item_sep indent ++ nl indent level) (map f xs))
  = Some Clean.
Proof.
  intros Hne Hxs. revert st.
  induction Hxs as [|x xs Hx Hxs IH]; [done|]. intros st.
  destruct xs as [|y ys]; [apply Hx|].
  cbn [map]. rewrite join_with_cons, line_scan_app, Hx. cbn [mbind option_bind].
  rewrite <- app_assoc, line_scan_app.
  rewrite (line_scan_token _ _ (item_sep_token indent)). cbn [mbind option_bind].
  rewrite line_scan_app.
  destruct (newline_indent_scan indent level) as [st' ->]. cbn [mbind option_bind].
  by apply IH.
Qed.

(** The encoding of a document leaves a scan clean: it has no carriage
    return, and none of its lines is made of dashes. *)
Lemma line_scan_encoded (o : json.value) :
  json.isfinite o = true →
  ∀ indent level st, line_scan st (enc indent level o) = Some Clean.
Proof.
  induction o as [| b | z | f | s | items IH | items IH] using value_ind';
    intros Hfin indent level st.
  - apply line_scan_token. split; [by repeat constructor|].
    exists [], 110, (str "ull"). split; [reflexivity|]. split; [by left|done].
  - apply line_scan_token. destruct b; (split; [by repeat constructor|]).
    + exists [], 116, (str "rue"). split; [reflexivity|]. split; [by left|done].
    + exists [], 102, (str "alse"). split; [reflexivity|]. split; [by left|done].
  - destruct (match_number_int_repr z) as (n & ds & Hm & _).
    by eapply line_scan_token, token_number.
  - by eapply line_scan_token, token_number, float_repr_literal.
  - apply line_scan_token, token_basestring.
  - destruct items as [|x xs].
    { apply line_scan_token. split; [by repeat constructor|].
      exists [], 91, [93]. split; [reflexivity|]. split; [by left|done]. }
    cbn [json.isfinite] in Hfin. apply forallb_Forall_eq in Hfin.
    cbn [json.iterencode]. rewrite line_scan_app.
    assert (line_scan st [91] = Some Clean) as -> by by destruct st.
    cbn [mbind option_bind]. rewrite line_scan_app.
    destruct (newline_indent_scan indent (S level)) as [st1 ->].
    cbn [mbind option_bind]. rewrite line_scan_app, line_scan_items; [|done|].
    + cbn [mbind option_bind]. rewrite line_scan_app.
      destruct (newline_indent_scan indent level) as [st2 ->].
      cbn [mbind option_bind]. by destruct st2.
    + apply Forall_forall. intros y Hy st'.
      rewrite Forall_forall in IH, Hfin. by apply IH; auto.
  - destruct items as [|kv kvs].
    { apply line_scan_token. split; [by repeat constructor|].
      exists [], 123, [125]. split; [reflexivity|]. split; [by left|done]. }
    cbn [json.isfinite] in Hfin. apply forallb_Forall_eq in Hfin.
    set (items := kv :: kvs) in *.
    assert (Hperm : json.sort_items items ≡ₚ items) by apply sort_items_perm.
    assert (Hne : json.sort_items items ≠ []).
    { intros Hnil. rewrite Hnil in Hperm. by apply Permutation_nil_l in Hperm. }
    assert (Henc : enc indent level (json.JDict items)
                   = [123] ++ nl indent (S level)
                     ++ join_with (json.item_sep indent ++ nl indent (S level))
                          (map (item indent (S level)) (json.sort_items items))
                     ++ nl indent level ++ [125]).
    { subst items. cbn [json.iterencode].
      fold (on_values (json.iterencode (json.indent_str indent) (json.item_sep indent)
                         (S level))).
      rewrite sort_items_map, map_map. done. }
    rewrite Henc, line_scan_app.
    assert (line_scan st [123] = Some Clean) as -> by by destruct st.
    cbn [mbind option_bind]. rewrite line_scan_app.
    destruct (newline_indent_scan indent (S level)) as [st1 ->].
    cbn [mbind option_bind]. rewrite line_scan_app, line_scan_items; [|done|].
    + cbn [mbind option_bind]. rewrite line_scan_app.
      destruct (newline_indent_scan indent level) as [st2 ->].
      cbn [mbind option_bind]. by destruct st2.
    + rewrite Hperm. apply Forall_forall. intros y Hy st'.
      rewrite Forall_forall in IH, Hfin. unfold item.
      rewrite line_scan_app.
      rewrite (line_scan_token _ _ (token_basestring _)).
      cbn [mbind option_bind]. rewrite line_scan_app.
      assert (line_scan Clean json.key_separator = Some Clean) as -> by done.
      cbn [mbind option_bind]. by apply IH; auto.
Qed.

(** *** Reading the lines of what was written *)

Lemma lstrip_by_stop (p : N → bool) (l : pystr) :
  Forall (λ c, p c = false) l → lstrip_by p l = l.
Proof. destruct 1 as [|c l Hc _]; simpl; [done|by rewrite Hc]. Qed.

(** A line with no line break in it, then a newline: [rstrip] takes the
    newline off and nothing else. *)
Lemma rstrip_line (cur : pystr) :
  Forall plain cur → rstrip (cur ++ [newline]) [creturn; newline] = cur.
Proof.
  intros Hcur. unfold rstrip, rstrip_by. rewrite rev_app_distr. simpl.
  rewrite lstrip_by_stop; [apply rev_involutive|].
  apply Forall_forall. intros c Hc%list_elem_of_In%in_rev%list_elem_of_In.
  rewrite Forall_forall in Hcur. destruct (Hcur c Hc) as [H10 H13].
  unfold char_in, creturn, newline. simpl. char_neq c 13. by char_neq c 10.
Qed.

Lemma not_separator_line (cur : pystr) (st : line_state) :
  Forall plain cur → line_scan Fresh cur = Some st → st ≠ Dashes →
  is_separator default_separator (cur ++ [newline]) = false.
Proof.
  intros Hcur Hscan Hst. unfold is_separator. rewrite rstrip_line by done.
  apply bool_decide_eq_false_2. intros ->. vm_compute in Hscan. congruence.
Qed.

Lemma line_step_newline (st st' : line_state) :
  line_step st newline = Some st' → st ≠ Dashes ∧ st' = Fresh.
Proof. destruct st; vm_compute; intros [= <-]; done. Qed.

Lemma readlines_chunk (t cur more : pystr) (st st' : line_state) :
  Forall plain cur →
  line_scan Fresh cur = Some st →
  line_scan st (t ++ [newline]) = Some st' →
  readlines_from cur (t ++ newline :: more)
    = readlines_from cur (t ++ [newline]) ++ readlines more
  ∧ existsb (is_separator default_separator)
      (readlines_from cur (t ++ [newline])) = false
  ∧ join (readlines_from cur (t ++ [newline])) = cur ++ t ++ [newline].
Proof.
  revert cur st. induction t as [|c t IH]; intros cur st Hcur Hscan Ht.
  - cbn [app readlines_from] in *. rewrite N.eqb_refl.
    cbn [line_scan] in Ht.
    destruct (line_step st newline) as [st1|] eqn:Hstep; [|done].
    apply line_step_newline in Hstep as [Hst _].
    cbn [existsb]. rewrite (not_separator_line cur st) by done.
    split; [done|]. split; [done|]. unfold join. simpl. by rewrite app_nil_r.
  - cbn [app readlines_from line_scan] in *.
    destruct (line_step st c) as [st1|] eqn:Hstep; [|done].
    destruct (N.eqb_spec c newline) as [->|H10].
    + apply line_step_newline in Hstep as [Hst ->].
      destruct (IH [] Fresh ltac:(constructor) eq_refl Ht) as (IH1 & IH2 & IH3).
      fold (readlines more) in *.
      rewrite IH1. cbn [existsb]. rewrite (not_separator_line cur st) by done.
      rewrite IH2. split; [done|]. split; [done|].
      unfold join in *. cbn [concat]. rewrite IH3. by rewrite <- app_assoc.
    + assert (H13 : c ≠ creturn).
      { intros ->. by vm_compute in Hstep. }
      rewrite (proj2 (N.eqb_neq c creturn)) by done.
      assert (Hscan' : line_scan Fresh (cur ++ [c]) = Some st1).
      { rewrite line_scan_app, Hscan. cbn [mbind option_bind line_scan].
        by rewrite Hstep. }
      destruct (IH (cur ++ [c]) st1) as (IH1 & IH2 & IH3); [|done|done|].
      { apply Forall_app. split; [done|]. by repeat constructor. }
      rewrite IH1, IH2, IH3. by rewrite <- !app_assoc.
Qed.

(** *** Writing, then reading *)

Lemma readlines_blob (indent : option Z) (d : json.value) (more : pystr) :
  json.isfinite d = true →
  readlines (blob default_separator (enc indent 0 d) ++ more)
    = chunk_of indent d ++ (default_separator ++ [newline]) :: readlines more
  ∧ existsb (is_separator default_separator) (chunk_of indent d) = false
  ∧ join (chunk_of indent d) = enc indent 0 d ++ [newline].
Proof.
  intros Hfin.
  pose proof (line_scan_encoded d Hfin indent 0%nat Fresh) as Hscan.
  destruct (readlines_chunk (enc indent 0 d) []
              (default_separator ++ newline :: more) Fresh Fresh)
    as (H1 & H2 & H3); [constructor|done|by rewrite line_scan_app, Hscan|].
  unfold chunk_of, readlines, blob. rewrite <- !app_assoc. cbn [app].
  split; [|done]. rewrite H1. done.
Qed.

Lemma reader_frames (indent : option Z) (docs : list json.value) :
  Forall (λ d, json.isfinite d = true) docs →
  _reader (readlines (written_text indent docs)) default_separator
  = yield_all (map (chunk_of indent) docs) Return.
Proof.
  induction 1 as [|d docs Hfin _ IH]; [done|].
  unfold written_text. cbn [map concat]. fold (written_text indent docs).
  destruct (readlines_blob indent d (written_text indent docs) Hfin)
    as (-> & Hnone & _).
  rewrite _reader_chunk by done. by rewrite IH.
Qed.

(** Pulling everything from a reader without dedup over the chunks of
    [docs]. *)
Lemma read_loop_chunks (indent : option Z) (docs : list json.value) :
  Forall (λ d, json.dict_ok d = true ∧ json.isfinite d = true) docs →
  ∀ turns n close ret,
    (length docs < turns)%nat →
    DumpReader.read_loop turns
      {| DumpReader.self_reader := yield_all (map (chunk_of indent) docs) Return;
         DumpReader.obj_num := n;
         DumpReader.close := close;
         DumpReader.seen := None |} ret
    = (Ok (ret ++ map json.sort_keys docs),
       {| DumpReader.self_reader := Return;
          DumpReader.obj_num := n + Z.of_nat (length docs);
          DumpReader.close := close;
          DumpReader.seen := None |}).
Proof.
  induction 1 as [|d docs [Hok Hfin] _ IH]; intros turns n close ret Hturns;
    (destruct turns as [|turns]; [simpl in Hturns; lia|]).
  - cbn. by rewrite app_nil_r, Z.add_0_r.
  - cbn [map length]. rewrite yield_all_cons. cbn [DumpReader.read_loop].
    unfold DumpReader.__next__, DumpReader.load_next.
    cbn [DumpReader.self_reader DumpReader.seen DumpReader.obj_num
         DumpReader.close next mbind result_bind].
    destruct (readlines_blob indent d [] Hfin) as (_ & _ & ->).
    rewrite (loads_dumps d indent (enc indent 0 d)); [|done|].
    + rewrite IH by (simpl in Hturns; lia).
      rewrite <- app_assoc. cbn [app].
      by replace (n + Z.of_nat (S (length docs)))%Z
        with (n + 1 + Z.of_nat (length docs))%Z by lia.
    + change (json.dumps d indent)
        with (if json.isfinite d then Ok (enc indent 0 d) else Err ValueError).
      by rewrite Hfin.
Qed.

Lemma gen_items_yield_all {A} (chunks : list A) :
  gen_items (yield_all chunks Return) = chunks.
Proof. induction chunks as [|c chunks IH]; [done|]. simpl. by rewrite IH. Qed.

(** Writing without dedup appends the blob of every document. *)
Lemma writemany_appends (indent : option Z) (docs : list json.value) :
  Forall (λ d, json.isfinite d = true) docs →
  ∀ separator_blob before n close,
    separator_blob = [newline] ++ default_separator ++ [newline] →
    DumpWriter.writemany
      {| DumpWriter.separator_blob := separator_blob;
         DumpWriter.file_obj := TextFile before;
         DumpWriter.obj_num := n;
         DumpWriter.close := close;
         DumpWriter.indent := indent;
         DumpWriter.seen := None |} docs
    = (Ok (Z.of_nat (length docs)),
       {| DumpWriter.separator_blob := separator_blob;
          DumpWriter.file_obj := TextFile (before ++ written_text indent docs);
          DumpWriter.obj_num := n + Z.of_nat (length docs);
          DumpWriter.close := close;
          DumpWriter.indent := indent;
          DumpWriter.seen := None |}).
Proof.
  induction 1 as [|d docs Hfin _ IH]; intros separator_blob before n close ->.
  - cbn. by rewrite app_nil_r, Z.add_0_r.
  - cbn [DumpWriter.writemany]. unfold DumpWriter.write, DumpWriter.emit.
    cbn [DumpWriter.indent DumpWriter.seen DumpWriter.file_obj
         DumpWriter.separator_blob DumpWriter.obj_num DumpWriter.close].
    change (json.dumps d indent)
      with (if json.isfinite d then Ok (enc indent 0 d) else Err ValueError).
    rewrite Hfin. cbn [file_write]. rewrite IH by done.
    unfold written_text, blob. cbn [map concat length].
    rewrite <- !app_assoc.
    replace (n + Z.of_nat (S (length docs)))%Z
      with (n + 1 + Z.of_nat (length docs))%Z by lia.
    by replace (Z.of_nat (S (length docs)))
      with (1 + Z.of_nat (length docs))%Z by lia.
Qed.

(** *** Equality of a document and its key-sorted form *)

Lemma py_eq_sort_keys (o : json.value) :
  json.dict_ok o = true → json.isfinite o = true →
  json.py_eq (json.sort_keys o) o.
Proof.
  induction o as [| b | z | f | s | items IH | items IH] using value_ind';
    intros Hok Hfin; cbn [json.sort_keys]; try by constructor.
  - cbn [json.dict_ok json.isfinite] in Hok, Hfin.
    apply forallb_Forall_eq in Hok, Hfin. constructor.
    induction IH as [|x xs Hx _ IHxs]; [constructor|].
    apply Forall_cons in Hok as [? ?]. apply Forall_cons in Hfin as [? ?].
    constructor; auto.
  - cbn [json.dict_ok json.isfinite] in Hok, Hfin.
    apply andb_true_iff in Hok as [Hnodup Hok].
    apply bool_decide_eq_true in Hnodup.
    apply forallb_Forall_eq in Hok, Hfin.
    fold (on_values json.sort_keys).
    constructor.
    + by rewrite sort_items_perm, length_map.
    + rewrite sort_items_perm. apply Forall_forall.
      intros kv' Hin. apply list_elem_of_In, in_map_iff in Hin as (kv & <- & Hin).
      apply list_elem_of_In in Hin.
      rewrite Forall_forall in IH, Hok, Hfin.
      exists kv.2. split; [|by apply IH; auto].
      apply dict_get_nodup; [done|]. by destruct kv.
Qed.

(** C3: documents with finite numbers only (and, as every Python dict,
    no key twice), written in order by a writer without dedup and read
    back from what was written by a reader without dedup, both with the
    default sentinel: the write counts every document, the read yields
    as many documents as were written, in the order written, each equal
    to the one written (it is that document with the keys of its dicts
    in sorted order). *)
Theorem write_then_read_roundtrip (docs : list json.value) (indent : option Z) :
  Forall (λ d, json.dict_ok d = true ∧ json.isfinite d = true) docs →
  ∃ w text r,
    DumpWriter.writemany
      (DumpWriter.__init__ (TextFile []) default_separator false indent) docs
    = (Ok (Z.of_nat (length docs)), w)
    ∧ DumpWriter.file_obj w = TextFile text
    ∧ DumpReader.read
        (DumpReader.__init__ (readlines text) default_separator false false) (-1)
      = (Ok (map json.sort_keys docs), r)
    ∧ length (map json.sort_keys docs) = length docs
    ∧ DumpReader.obj_num r = Z.of_nat (length docs)
    ∧ Forall2 json.py_eq (map json.sort_keys docs) docs.
Proof.
  intros Hdocs.
  assert (Hfin : Forall (λ d, json.isfinite d = true) docs).
  { eapply Forall_impl; [exact Hdocs|]. by intros d [_ ?]. }
  eexists _, _, _. split; [|split; [|split; [|split; [|split]]]].
  - unfold DumpWriter.__init__. by apply writemany_appends.
  - reflexivity.
  - unfold DumpReader.read, DumpReader.__init__.
    cbn [Z.leb Z.compare DumpReader.self_reader app].
    rewrite reader_frames, gen_items_yield_all, length_map by done.
    rewrite (read_loop_chunks indent docs Hdocs) by lia. reflexivity.
  - apply length_map.
  - cbn [DumpReader.obj_num]. lia.
  - induction Hdocs as [|d docs [Hok Hd] _ IH]; [constructor|].
    apply Forall_cons in Hfin as [_ Hfin]. cbn [map].
    constructor; [by apply py_eq_sort_keys|by apply IH].
Qed.

End Roundtrip.

End Properties.

(** * Further properties of the code *)

Section Further.

Context {env : PyEnv}.

(** ** The framer *)

Lemma reader_loop_reassemble (separator : pystr) (lines buffer : list pystr) :
  existsb (is_separator separator) buffer = false →
  ∃ sentinels tail,
    buffer ++ lines
    = reassemble (gen_items (_reader_loop separator lines buffer)) sentinels ++ tail
    ∧ length sentinels = length (gen_items (_reader_loop separator lines buffer))
    ∧ Forall (λ line, is_separator separator line = true) sentinels
    ∧ Forall (λ chunk, existsb (is_separator separator) chunk = false)
        (gen_items (_reader_loop separator lines buffer))
    ∧ existsb (is_separator separator) tail = false.
Proof.
  revert buffer. induction lines as [|line lines IH]; intros buffer Hbuf.
  - exists [], buffer. cbn [_reader_loop]. rewrite app_nil_r.
    case_bool_decide; cbn; repeat split; auto.
  - cbn [_reader_loop]. destruct (is_separator separator line) eqn:Hline; cbn [negb].
    + destruct (IH [] eq_refl) as (sentinels & tail & Heq & Hlen & Hs & Hc & Ht).
      exists (line :: sentinels), tail. cbn [gen_items].
      set (chunks := gen_items (_reader_loop separator lines [])) in *.
      cbn [app] in Heq. repeat split.
      * unfold reassemble in *. cbn [zip_with concat].
        rewrite <- !app_assoc. cbn [app]. by rewrite <- Heq.
      * cbn. by rewrite Hlen.
      * by constructor.
      * by constructor.
      * done.
    + destruct (IH (buffer ++ [line])) as (sentinels & tail & Heq & Hrest).
      { rewrite existsb_app, Hbuf. cbn. by rewrite Hline. }
      exists sentinels, tail. split; [|done].
      by rewrite <- Heq, <- app_assoc.
Qed.

Lemma tail_is_unflushed (separator : pystr) (sentinels : list pystr)
    (chunks : list (list pystr)) (tail : list pystr) :
  length sentinels = length chunks →
  Forall (λ line, is_separator separator line = true) sentinels →
  existsb (is_separator separator) tail = false →
  unflushed separator (reassemble chunks sentinels ++ tail) = tail.
Proof.
  revert sentinels. induction chunks as [|chunk chunks IH]; intros [|s sentinels] Hlen Hs Ht;
    try discriminate Hlen.
  - cbn. by apply unflushed_no_separator.
  - apply Forall_cons in Hs as [Hs Hss]. injection Hlen as Hlen.
    unfold reassemble. cbn [zip_with concat]. fold (reassemble chunks sentinels).
    rewrite <- !app_assoc. cbn [app].
    induction chunk as [|l chunk IHc].
    + cbn [app unflushed existsb]. rewrite Hs. cbn. by apply IH.
    + cbn [app unflushed]. 
      replace (existsb _ (l :: chunk ++ s :: reassemble chunks sentinels ++ tail)) with true.
      * exact IHc.
      * symmetry. cbn [existsb]. rewrite existsb_app. cbn [existsb]. rewrite Hs.
        by rewrite !orb_true_r.
Qed.

(** X1: the framer loses nothing and moves nothing. The chunks it
    yields, each followed by the sentinel line that closed it, and then
    the lines after the last sentinel line, are the input; there is one
    chunk for every sentinel line, in order; no chunk and no line after
    the last sentinel is a sentinel line. *)
Theorem reader_chunks_reassemble (lines : list pystr) (separator : pystr) :
  let chunks := gen_items (_reader lines separator) in
  ∃ sentinels,
    lines = reassemble chunks sentinels ++ unflushed separator lines
    ∧ length sentinels = length chunks
    ∧ Forall (λ line, is_separator separator line = true) sentinels
    ∧ Forall (λ chunk, existsb (is_separator separator) chunk = false) chunks
    ∧ existsb (is_separator separator) (unflushed separator lines) = false.
Proof.
  cbv zeta. unfold _reader.
  destruct (reader_loop_reassemble separator lines [] eq_refl)
    as (sentinels & tail & Heq & Hlen & Hs & Hc & Ht).
  cbn [app] in Heq. exists sentinels.
  assert (Htail : unflushed separator lines = tail).
  { rewrite Heq at 1. by apply tail_is_unflushed. }
  rewrite Htail. by repeat split.
Qed.

(** ** Sentinel lines *)

Lemma lstrip_by_split (p : N → bool) (s : pystr) :
  ∃ stripped, s = stripped ++ lstrip_by p s ∧ forallb p stripped = true.
Proof.
  induction s as [|c s (stripped & Heq & Hall)]; [by exists []|].
  cbn [lstrip_by]. destruct (p c) eqn:Hc.
  - exists (c :: stripped). cbn. rewrite Hc, Hall. split; [by f_equal|done].
  - by exists [].
Qed.

Lemma lstrip_by_app_all (p : N → bool) (e s : pystr) :
  forallb p e = true → lstrip_by p (e ++ s) = lstrip_by p s.
Proof.
  induction e as [|c e IH]; [done|]. cbn. intros [Hc He]%andb_true_iff.
  rewrite Hc. by apply IH.
Qed.

Lemma lstrip_by_idemp (p : N → bool) (s : pystr) :
  lstrip_by p (lstrip_by p s) = lstrip_by p s.
Proof.
  induction s as [|c s IH]; [done|]. cbn [lstrip_by].
  destruct (p c) eqn:Hc; [done|]. cbn. by rewrite Hc.
Qed.

Lemma rstrip_by_split (p : N → bool) (s : pystr) :
  ∃ stripped, s = rstrip_by p s ++ stripped ∧ forallb p stripped = true.
Proof.
  destruct (lstrip_by_split p (rev s)) as (stripped & Heq & Hall).
  exists (rev stripped). unfold rstrip_by. rewrite forallb_rev. split; [|done].
  rewrite <- rev_app_distr, <- Heq. by rewrite rev_involutive.
Qed.

Lemma rstrip_by_app_all (p : N → bool) (s e : pystr) :
  forallb p e = true → rstrip_by p (s ++ e) = rstrip_by p s.
Proof.
  intros He. unfold rstrip_by. rewrite rev_app_distr, lstrip_by_app_all; [done|].
  by rewrite forallb_rev.
Qed.

Lemma rstrip_by_idemp (p : N → bool) (s : pystr) :
  rstrip_by p (rstrip_by p s) = rstrip_by p s.
Proof. unfold rstrip_by. by rewrite rev_involutive, lstrip_by_idemp. Qed.

Lemma char_in_line_break (c : N) :
  char_in [creturn; newline] c = true ↔ c = creturn ∨ c = newline.
Proof.
  unfold char_in. cbn [existsb]. by rewrite orb_false_r, orb_true_iff, !N.eqb_eq.
Qed.

(** X2: for a sentinel that does not end in a carriage return or a
    newline, the sentinel lines are exactly the sentinel followed by
    carriage returns and newlines only: trailing line breaks do not
    count, anything else before or after the sentinel does. *)
Theorem sentinel_line_iff (separator line : pystr) :
  rstrip separator [creturn; newline] = separator →
  is_separator separator line = true
  ↔ ∃ eol, line = separator ++ eol ∧ Forall (λ c, c = creturn ∨ c = newline) eol.
Proof.
  intros Hsep. unfold is_separator. rewrite bool_decide_eq_true. split.
  - intros Hline. unfold rstrip in Hline.
    destruct (rstrip_by_split (char_in [creturn; newline]) line) as (eol & Heq & Hall).
    exists eol. rewrite Hline in Heq. split; [done|].
    apply Forall_forall. intros c Hc. apply char_in_line_break.
    rewrite forallb_forall in Hall. apply Hall. by apply list_elem_of_In.
  - intros (eol & -> & Hall). unfold rstrip in *.
    rewrite rstrip_by_app_all; [done|].
    apply forallb_forall. intros c Hc. apply char_in_line_break.
    rewrite Forall_forall in Hall. apply Hall. by apply list_elem_of_In.
Qed.

Lemma reader_loop_no_sentinel (separator : pystr) (lines buffer : list pystr) :
  (∀ line, is_separator separator line = false) →
  _reader_loop separator lines buffer =
  if bool_decide (strip (join (buffer ++ lines)) = []) then Return
  else Raise AssertionError.
Proof.
  intros Hnever. revert buffer. induction lines as [|line lines IH]; intros buffer.
  - cbn [_reader_loop]. by rewrite app_nil_r.
  - cbn [_reader_loop]. rewrite Hnever. cbn [negb]. rewrite IH.
    by rewrite <- app_assoc.
Qed.

(** X3: a sentinel that ends in a carriage return or a newline matches
    no line at all. The framer then yields no chunk, whatever the input,
    and ends with [AssertionError] exactly when the input holds
    something else than whitespace. *)
Theorem sentinel_with_line_break_is_never_found (separator : pystr)
    (lines : list pystr) :
  rstrip separator [creturn; newline] ≠ separator →
  (∀ line, is_separator separator line = false)
  ∧ gen_items (_reader lines separator) = []
  ∧ gen_end (_reader lines separator) =
      if has_content (join lines) then Some AssertionError else None.
Proof.
  intros Hsep.
  assert (Hnever : ∀ line, is_separator separator line = false).
  { intros line. unfold is_separator. apply bool_decide_eq_false. intros Hline.
    apply Hsep. rewrite <- Hline. unfold rstrip. apply rstrip_by_idemp. }
  split; [done|]. unfold _reader. rewrite reader_loop_no_sentinel by done.
  cbn [app]. destruct (has_content (join lines)) eqn:Hcontent.
  - rewrite bool_decide_eq_false_2; [done|].
    rewrite strip_nil_iff, <- has_content_false_iff. congruence.
  - rewrite bool_decide_eq_true_2; [done|].
    by rewrite strip_nil_iff, <- has_content_false_iff.
Qed.

(** ** The reader: pulls and reads *)

Lemma loads_error (s : pystr) (e : exn) :
  json.loads s = Err e → e = JSONDecodeError.
Proof.
  unfold json.loads. destruct (startswith s [65279]); [congruence|].
  destruct (json.scan_once _ _) as [[obj rest]|]; [|congruence].
  destruct (json.skip_ws rest); congruence.
Qed.

Lemma canonical_hash_error (obj : json.value) (e : exn) :
  DumpReader.canonical_hash obj = Err e → e = ValueError.
Proof.
  unfold DumpReader.canonical_hash, json.dumps.
  destruct (json.isfinite obj); unfold mbind, result_bind, mret, result_ret;
    congruence.
Qed.

Lemma canonical_hash_finite (obj : json.value) :
  json.isfinite obj = true →
  DumpReader.canonical_hash obj = Ok (hash (enc None 0 obj)).
Proof.
  intros Hfin. unfold DumpReader.canonical_hash, json.dumps. by rewrite Hfin.
Qed.

(** What a pull does to the generator: on [StopIteration] it is
    finished; a document costs a chunk at least. *)
Lemma load_next_stop (g g' : generator (list pystr)) :
  DumpReader.load_next g = (Err StopIteration, g') → g' = Return.
Proof.
  unfold DumpReader.load_next. destruct g as [chunk g0| |e]; cbn.
  - destruct (json.loads (join chunk)) eqn:Hl; [congruence|].
    apply loads_error in Hl. subst. congruence.
  - congruence.
  - congruence.
Qed.

Lemma load_next_ok (g g' : generator (list pystr)) (obj : json.value) :
  DumpReader.load_next g = (Ok obj, g') →
  ∃ chunk, g = Yield chunk g' ∧ json.loads (join chunk) = Ok obj.
Proof.
  unfold DumpReader.load_next. destruct g as [chunk g0| |e]; cbn; try congruence.
  destruct (json.loads (join chunk)) eqn:Hl; [|congruence].
  intros [= <- <-]. by exists chunk.
Qed.

Lemma skip_seen_stop (hashes : gset Z) (g g' : generator (list pystr))
    (obj : json.value) (h : Z) :
  DumpReader.skip_seen hashes g obj h = (Err StopIteration, g') → g' = Return.
Proof.
  revert obj h. induction g as [chunk g0 IH| |e]; intros obj h; cbn [DumpReader.skip_seen];
    case_bool_decide; try congruence.
  destruct (json.loads (join chunk)) eqn:Hl.
  - destruct (DumpReader.canonical_hash a) eqn:Hh; [by apply IH|].
    apply canonical_hash_error in Hh. subst. congruence.
  - apply loads_error in Hl. subst. congruence.
Qed.

(** What [skip_seen] hands over is new, and what it dropped was seen. *)
Lemma skip_seen_ok (hashes : gset Z) (g g' : generator (list pystr))
    (obj obj' : json.value) (h h' : Z) :
  DumpReader.canonical_hash obj = Ok h →
  DumpReader.skip_seen hashes g obj h = (Ok (obj', h'), g') →
  DumpReader.canonical_hash obj' = Ok h' ∧ (h' ∉ hashes)
  ∧ (length (gen_items g') ≤ length (gen_items g))%nat.
Proof.
  revert obj h. induction g as [chunk g0 IH| |e]; intros obj h Hobj;
    cbn [DumpReader.skip_seen]; case_bool_decide; try congruence;
    try (intros [= <- <- <-]; by repeat split).
  destruct (json.loads (join chunk)) eqn:Hl; [|congruence].
  destruct (DumpReader.canonical_hash a) eqn:Hh; [|congruence].
  intros Hskip. destruct (IH _ _ Hh Hskip) as (? & ? & ?).
  repeat split; try done. cbn [gen_items length]. lia.
Qed.

(** One pull: a document counts one and costs a chunk at least; an
    exception leaves the count and the seen hashes as they were. *)
Lemma next_ok (self self' : DumpReader.t) (obj : json.value) :
  DumpReader.__next__ self = (Ok obj, self') →
  DumpReader.obj_num self' = (DumpReader.obj_num self + 1)%Z
  ∧ DumpReader.close self' = DumpReader.close self
  ∧ (chunks_left self' < chunks_left self)%nat
  ∧ match DumpReader.seen self with
    | None => DumpReader.seen self' = None
    | Some hashes =>
        ∃ h, DumpReader.canonical_hash obj = Ok h ∧ (h ∉ hashes)
             ∧ DumpReader.seen self' = Some ({[h]} ∪ hashes)
    end.
Proof.
  unfold DumpReader.__next__, chunks_left.
  destruct (DumpReader.load_next _) as [[obj0|e] g] eqn:Hnext; [|congruence].
  apply load_next_ok in Hnext as (chunk & Hg & Hl). rewrite Hg.
  destruct (DumpReader.seen self) as [hashes|].
  - destruct (DumpReader.canonical_hash obj0) as [h0|] eqn:Hh0; [|congruence].
    destruct (DumpReader.skip_seen hashes g obj0 h0) as [[[obj' h']|e] g'] eqn:Hskip;
      [|congruence].
    intros [= <- <-]. cbn.
    destruct (skip_seen_ok _ _ _ _ _ _ _ Hh0 Hskip) as (Hh' & Hnew & Hlen).
    repeat split; [lia|]. by exists h'.
  - intros [= <- <-]. cbn. repeat split. lia.
Qed.

Lemma next_err (self self' : DumpReader.t) (e : exn) :
  DumpReader.__next__ self = (Err e, self') →
  ∃ g, self' = DumpReader.with_reader self g ∧ (e = StopIteration → g = Return).
Proof.
  unfold DumpReader.__next__.
  destruct (DumpReader.load_next _) as [[obj0|e0] g] eqn:Hnext.
  - destruct (DumpReader.seen self) as [hashes|]; [|congruence].
    destruct (DumpReader.canonical_hash obj0) as [h0|] eqn:Hh0.
    + destruct (DumpReader.skip_seen hashes g obj0 h0) as [[[obj' h']|e1] g'] eqn:Hskip;
        [congruence|].
      intros [= <- <-]. exists g'. split; [done|]. intros ->.
      by apply skip_seen_stop in Hskip.
    + intros [= <- <-]. exists g. split; [done|]. intros ->.
      by apply canonical_hash_error in Hh0.
  - intros [= <- <-]. exists g. split; [done|]. intros ->.
    by apply load_next_stop in Hnext.
Qed.

(** Once exhausted, a reader stays so. *)
Lemma next_stop_again (self self' : DumpReader.t) :
  DumpReader.__next__ self = (Err StopIteration, self') →
  DumpReader.__next__ self' = (Err StopIteration, self').
Proof.
  intros (g & -> & Hg)%next_err. rewrite Hg by done. by destruct self.
Qed.

Lemma read_loop_acc (turns : nat) (self : DumpReader.t) (ret : list json.value) :
  DumpReader.read_loop turns self ret =
  match DumpReader.read_loop turns self [] with
  | (Ok new, self') => (Ok (ret ++ new), self')
  | (Err e, self') => (Err e, self')
  end.
Proof.
  revert self ret. induction turns as [|turns IH]; intros self ret; cbn.
  - by rewrite app_nil_r.
  - destruct (DumpReader.__next__ self) as [[obj|e] self'].
    + rewrite (IH self' (ret ++ [obj])), (IH self' [obj]).
      destruct (DumpReader.read_loop turns self' []) as [[new|e] s]; [|done].
      by rewrite <- app_assoc.
    + destruct e; try done. by rewrite app_nil_r.
Qed.

Lemma read_loop_stopped (turns : nat) (self : DumpReader.t) :
  DumpReader.__next__ self = (Err StopIteration, self) →
  DumpReader.read_loop turns self [] = (Ok [], self).
Proof. intros Hstop. destruct turns; cbn; [done|]. by rewrite Hstop. Qed.

Lemma read_loop_counts (turns : nat) (self self' : DumpReader.t)
    (ret : list json.value) :
  DumpReader.read_loop turns self [] = (Ok ret, self') →
  (length ret ≤ turns)%nat
  ∧ DumpReader.obj_num self' = (DumpReader.obj_num self + Z.of_nat (length ret))%Z
  ∧ DumpReader.close self' = DumpReader.close self
  ∧ ((chunks_left self < turns)%nat →
     DumpReader.__next__ self' = (Err StopIteration, self')).
Proof.
  revert self ret. induction turns as [|turns IH]; intros self ret; cbn.
  - intros [= <- <-]. cbn. repeat split; try done; lia.
  - destruct (DumpReader.__next__ self) as [[obj|e] self1] eqn:Hnext.
    + rewrite read_loop_acc.
      destruct (DumpReader.read_loop turns self1 []) as [[new|e] s] eqn:Hloop;
        [|congruence].
      intros [= <- <-]. destruct (IH _ _ Hloop) as (Hlen & Hnum & Hclose & Hstop).
      apply next_ok in Hnext as (Hnum1 & Hclose1 & Hleft & _).
      cbn [app length]. repeat split; [lia|lia|congruence|].
      intros Hturns. apply Hstop. lia.
    + destruct e; try congruence. intros [= <- <-].
      pose proof (next_err _ _ _ Hnext) as (g & Hself1 & _).
      split; [cbn; lia|]. split; [subst self1; cbn; lia|].
      split; [by subst self1|].
      intros _. by apply next_stop_again in Hnext.
Qed.

Lemma read_loop_within (turns : nat) (self self' : DumpReader.t)
    (ret : list json.value) :
  DumpReader.read_loop turns self [] = (Ok ret, self') →
  (length ret + chunks_left self' ≤ chunks_left self)%nat.
Proof.
  revert self ret. induction turns as [|turns IH]; intros self ret; cbn.
  - intros [= <- <-]. cbn. lia.
  - destruct (DumpReader.__next__ self) as [[obj|e] self1] eqn:Hnext.
    + rewrite read_loop_acc.
      destruct (DumpReader.read_loop turns self1 []) as [[new|e] s] eqn:Hloop;
        [|congruence].
      intros [= <- <-]. apply IH in Hloop.
      apply next_ok in Hnext as (_ & _ & Hleft & _). cbn [app length]. lia.
    + destruct e; try congruence. intros [= <- <-].
      pose proof (next_err _ _ _ Hnext) as (g & Hself1 & Hg).
      rewrite Hself1, Hg by done. unfold chunks_left. cbn. lia.
Qed.

(** With more turns than chunks the loop ends at an exception, so the
    number of turns does not matter. *)
Lemma read_loop_enough (t1 t2 : nat) (self : DumpReader.t) :
  (chunks_left self < t1)%nat → (chunks_left self < t2)%nat →
  DumpReader.read_loop t1 self [] = DumpReader.read_loop t2 self [].
Proof.
  revert t2 self. induction t1 as [|t1 IH]; intros [|t2] self H1 H2; try lia.
  cbn. destruct (DumpReader.__next__ self) as [[obj|e] self1] eqn:Hnext; [|done].
  apply next_ok in Hnext as (_ & _ & Hleft & _).
  rewrite (read_loop_acc t1), (read_loop_acc t2). rewrite (IH t2); [done|lia|lia].
Qed.

Lemma read_loop_more (t : nat) (self self' : DumpReader.t) (ret : list json.value) :
  DumpReader.read_loop t self [] = (Ok ret, self') →
  DumpReader.__next__ self' = (Err StopIteration, self') →
  ∀ t', (t ≤ t')%nat → DumpReader.read_loop t' self [] = (Ok ret, self').
Proof.
  revert self ret. induction t as [|t IH]; intros self ret; cbn.
  - intros [= <- <-] Hstop t' _. by apply read_loop_stopped.
  - destruct (DumpReader.__next__ self) as [[obj|e] self1] eqn:Hnext.
    + rewrite read_loop_acc.
      destruct (DumpReader.read_loop t self1 []) as [[new|e] s] eqn:Hloop; [|congruence].
      intros [= <- <-] Hstop [|t'] Hle; [lia|]. cbn. rewrite Hnext, read_loop_acc.
      rewrite (IH _ _ Hloop Hstop t'); [done|lia].
    + destruct e; try congruence. intros [= <- <-] Hstop [|t'] Hle; [lia|].
      cbn. by rewrite Hnext.
Qed.

Lemma read_loop_compose (n m : nat) (self s1 s2 : DumpReader.t)
    (a b : list json.value) :
  DumpReader.read_loop n self [] = (Ok a, s1) →
  DumpReader.read_loop m s1 [] = (Ok b, s2) →
  DumpReader.read_loop (n + m) self [] = (Ok (a ++ b), s2).
Proof.
  revert self a. induction n as [|n IH]; intros self a; cbn.
  - by intros [= <- <-].
  - destruct (DumpReader.__next__ self) as [[obj|e] self1] eqn:Hnext.
    + rewrite read_loop_acc.
      destruct (DumpReader.read_loop n self1 []) as [[new|e] s] eqn:Hloop; [|congruence].
      intros [= <- <-] Hsecond. rewrite read_loop_acc.
      by rewrite (IH _ _ Hloop Hsecond).
    + destruct e; try congruence. intros [= <- <-].
      apply next_stop_again in Hnext. rewrite read_loop_stopped by done.
      by intros [= <- <-].
Qed.

(** X4: a [read] that returns hands over at most [n] documents when
    [n >= 0], never more documents than the reader had chunks left (each
    document uses up a chunk at least), and [obj_num] has grown by the
    number of documents handed over. *)
Theorem read_counts (self self' : DumpReader.t) (n : Z) (ret : list json.value) :
  DumpReader.read self n = (Ok ret, self') →
  (0 ≤ n → Z.of_nat (length ret) ≤ n)%Z
  ∧ (length ret + chunks_left self' ≤ chunks_left self)%nat
  ∧ DumpReader.obj_num self' = (DumpReader.obj_num self + Z.of_nat (length ret))%Z
  ∧ DumpReader.close self' = DumpReader.close self.
Proof.
  unfold DumpReader.read. intros Hread.
  assert (∃ turns, DumpReader.read_loop turns self [] = (Ok ret, self')
                   ∧ (0 ≤ n → Z.of_nat turns ≤ n)%Z) as (turns & Hloop & Hturns).
  { destruct (Z.leb_spec 0 n); [|eexists; split; [exact Hread|lia]].
    exists (Z.to_nat n). split; [done|lia]. }
  destruct (read_loop_counts _ _ _ _ Hloop) as (Hlen & Hnum & Hclose & _).
  apply read_loop_within in Hloop. repeat split; try done. lia.
Qed.

(** X5: reading in two steps is reading in one. When [read(n)] with
    [n >= 0] returns [a] and a [read(m)] after it returns [b], then on
    the reader as it was, [read(n + m)] (for [m < 0]: [read(m)], which
    reads all) returns [a ++ b] and leaves the reader in the same
    state. *)
Theorem read_in_two_steps (self s1 s2 : DumpReader.t) (n m : Z)
    (a b : list json.value) :
  (0 ≤ n)%Z →
  DumpReader.read self n = (Ok a, s1) →
  DumpReader.read s1 m = (Ok b, s2) →
  DumpReader.read self (if (0 <=? m)%Z then n + m else m)%Z = (Ok (a ++ b), s2).
Proof.
  intros Hn. unfold DumpReader.read.
  destruct (Z.leb_spec 0 n) as [_|]; [|lia]. intros Hfirst.
  destruct (Z.leb_spec 0 m) as [Hm|Hm]; intros Hsecond.
  - destruct (Z.leb_spec 0 (n + m)) as [_|]; [|lia].
    rewrite Z2Nat.inj_add by lia. by eapply read_loop_compose.
  - destruct (Z.leb_spec 0 m) as [|_]; [lia|].
    fold (chunks_left self). fold (chunks_left s1) in Hsecond.
    pose proof (read_loop_compose _ _ _ _ _ _ _ Hfirst Hsecond) as Hboth.
    pose proof (read_loop_counts _ _ _ _ Hsecond) as (_ & _ & _ & Hstop).
    rewrite (read_loop_enough _
               (S (chunks_left self) + (Z.to_nat n + S (chunks_left s1))))
      by lia.
    eapply read_loop_more; [exact Hboth|apply Hstop; lia|lia].
Qed.

(** X6: a [read] of everything ([n < 0]) that returns leaves the reader
    exhausted: the next pull raises [StopIteration] and changes nothing,
    and every later [read] returns the empty list. *)
Theorem read_all_exhausts (self self' : DumpReader.t) (ret : list json.value)
    (n : Z) :
  (n < 0)%Z →
  DumpReader.read self n = (Ok ret, self') →
  DumpReader.__next__ self' = (Err StopIteration, self')
  ∧ ∀ m, DumpReader.read self' m = (Ok [], self').
Proof.
  intros Hn. unfold DumpReader.read at 1.
  destruct (Z.leb_spec 0 n) as [|_]; [lia|]. intros Hloop.
  apply read_loop_counts in Hloop as (_ & _ & _ & Hstop).
  assert (Hnext : DumpReader.__next__ self' = (Err StopIteration, self')).
  { apply Hstop. unfold chunks_left. lia. }
  split; [done|]. intros m. unfold DumpReader.read.
  destruct (0 <=? m)%Z; by apply read_loop_stopped.
Qed.

(** ** The reader: dedup *)

Lemma read_loop_hashes (turns : nat) (self self' : DumpReader.t)
    (ret : list json.value) (hashes : gset Z) :
  DumpReader.seen self = Some hashes →
  DumpReader.read_loop turns self [] = (Ok ret, self') →
  ∃ hs, Forall2 (λ d h, DumpReader.canonical_hash d = Ok h) ret hs
        ∧ NoDup hs
        ∧ Forall (λ h, h ∉ hashes) hs
        ∧ DumpReader.seen self' = Some (list_to_set hs ∪ hashes).
Proof.
  revert self ret hashes. induction turns as [|turns IH]; intros self ret hashes Hseen; cbn.
  - intros [= <- <-]. exists []. repeat split; try constructor.
    rewrite Hseen. f_equal. cbn. by rewrite (left_id_L ∅ (∪)).
  - destruct (DumpReader.__next__ self) as [[obj|e] self1] eqn:Hnext.
    + rewrite read_loop_acc.
      destruct (DumpReader.read_loop turns self1 []) as [[new|e] s] eqn:Hloop;
        [|congruence].
      intros [= <- <-]. apply next_ok in Hnext as (_ & _ & _ & Hseen1).
      rewrite Hseen in Hseen1. destruct Hseen1 as (h & Hh & Hnew & Hseen1).
      destruct (IH _ _ _ Hseen1 Hloop) as (hs & Hhs & Hnodup & Hfresh & Hseen').
      exists (h :: hs). cbn [app]. repeat split.
      * by constructor.
      * constructor; [|done]. intros Hin.
        rewrite Forall_forall in Hfresh. apply (Hfresh h Hin).
        apply elem_of_union. left. by apply elem_of_singleton.
      * constructor; [done|]. eapply Forall_impl; [exact Hfresh|].
        intros x Hx Hin. apply Hx. apply elem_of_union. by right.
      * rewrite Hseen'. f_equal. cbn [list_to_set].
        by rewrite (comm_L (∪) {[h]} (list_to_set hs)), <- (assoc_L (∪)).
    + destruct e; try congruence. intros [= <- <-].
      pose proof (next_err _ _ _ Hnext) as (g & -> & _).
      exists []. repeat split; try constructor. cbn.
      rewrite Hseen. f_equal. by rewrite (left_id_L ∅ (∪)).
Qed.

(** X7: with dedup on, the documents a [read] returns have pairwise
    distinct canonical hashes, none of them a hash the reader had seen
    before, and afterwards the reader has seen exactly these hashes
    besides. *)
Theorem dedup_read_no_repeats (self self' : DumpReader.t) (n : Z)
    (ret : list json.value) (hashes : gset Z) :
  DumpReader.seen self = Some hashes →
  DumpReader.read self n = (Ok ret, self') →
  ∃ hs, Forall2 (λ d h, DumpReader.canonical_hash d = Ok h) ret hs
        ∧ NoDup hs
        ∧ Forall (λ h, h ∉ hashes) hs
        ∧ DumpReader.seen self' = Some (list_to_set hs ∪ hashes).
Proof.
  intros Hseen. unfold DumpReader.read.
  destruct (0 <=? n)%Z; by apply read_loop_hashes.
Qed.

Lemma plain_read_decodes (turns : nat) (self self' : DumpReader.t)
    (docs : list json.value) :
  DumpReader.seen self = None →
  (chunks_left self < turns)%nat →
  DumpReader.read_loop turns self [] = (Ok docs, self') →
  decodes (DumpReader.self_reader self) docs.
Proof.
  revert self docs. induction turns as [|turns IH]; intros self docs Hseen Hturns;
    [lia|].
  cbn [DumpReader.read_loop]. unfold DumpReader.__next__, DumpReader.load_next.
  unfold chunks_left in Hturns. rewrite Hseen.
  destruct (DumpReader.self_reader self) as [chunk g| |e] eqn:Hg; cbn.
  - destruct (json.loads (join chunk)) as [d|e] eqn:Hl; cbn.
    + rewrite read_loop_acc.
      destruct (DumpReader.read_loop turns _ []) as [[new|e] s] eqn:Hloop;
        [|congruence].
      intros [= <- <-]. cbn. split; [done|].
      apply IH in Hloop; [done|done|]. unfold chunks_left. cbn in *. lia.
    + apply loads_error in Hl. subst. congruence.
  - by intros [= <- <-].
  - destruct e; try congruence. by intros [= <- <-].
Qed.

(** The loop of [__next__] on chunks that decode: it stops at the first
    document dedup lets through. *)
Lemma skip_seen_keep_new (hashes : gset Z) (g : generator (list pystr))
    (docs : list json.value) (d : json.value) :
  decodes g docs →
  Forall (λ d, json.isfinite d = true) docs →
  match keep_new None hashes (d :: docs) with
  | [] =>
      DumpReader.skip_seen hashes g d (hash (enc None 0 d))
      = (Err StopIteration, Return)
  | doc1 :: kept =>
      ∃ g' docs',
        DumpReader.skip_seen hashes g d (hash (enc None 0 d))
        = (Ok (doc1, hash (enc None 0 doc1)), g')
        ∧ decodes g' docs'
        ∧ Forall (λ d, json.isfinite d = true) docs'
        ∧ kept = keep_new None ({[hash (enc None 0 doc1)]} ∪ hashes) docs'
        ∧ (length docs' ≤ length docs)%nat
  end.
Proof.
  revert docs d. induction g as [chunk g IH| |e]; intros docs d Hdec Hfin.
  - destruct docs as [|doc2 docs]; [done|]. destruct Hdec as [Hl Hdec].
    apply Forall_cons in Hfin as [Hd2 Hfin].
    cbn [keep_new DumpReader.skip_seen]. case_bool_decide as Hseen.
    + rewrite Hl, (canonical_hash_finite doc2 Hd2).
      specialize (IH docs doc2 Hdec Hfin). cbn [keep_new] in IH.
      destruct (if bool_decide _ then _ else _) as [|doc1 kept]; [done|].
      destruct IH as (g' & docs' & Hskip & ? & ? & ? & ?).
      exists g', docs'. repeat split; try done. cbn. lia.
    + exists (Yield chunk g), (doc2 :: docs). repeat split; try done.
      by constructor.
  - destruct docs; [|done]. cbn [keep_new DumpReader.skip_seen].
    case_bool_decide; [done|]. exists Return, []. by repeat split.
  - destruct docs; [|done]. cbn in Hdec. subst e.
    cbn [keep_new DumpReader.skip_seen].
    case_bool_decide; [done|]. exists (Raise StopIteration), []. by repeat split.
Qed.

Lemma next_keep_new (self : DumpReader.t) (hashes : gset Z)
    (docs : list json.value) :
  DumpReader.seen self = Some hashes →
  decodes (DumpReader.self_reader self) docs →
  Forall (λ d, json.isfinite d = true) docs →
  match keep_new None hashes docs with
  | [] => DumpReader.__next__ self
          = (Err StopIteration, DumpReader.with_reader self Return)
  | doc1 :: kept =>
      ∃ g' docs',
        DumpReader.__next__ self
        = (Ok doc1,
           {| DumpReader.self_reader := g';
              DumpReader.obj_num := DumpReader.obj_num self + 1;
              DumpReader.close := DumpReader.close self;
              DumpReader.seen := Some ({[hash (enc None 0 doc1)]} ∪ hashes) |})
        ∧ decodes g' docs'
        ∧ Forall (λ d, json.isfinite d = true) docs'
        ∧ kept = keep_new None ({[hash (enc None 0 doc1)]} ∪ hashes) docs'
        ∧ (length docs' < length docs)%nat
  end.
Proof.
  intros Hseen Hdec Hfin. unfold DumpReader.__next__, DumpReader.load_next.
  rewrite Hseen.
  destruct (DumpReader.self_reader self) as [chunk g| |e]; cbn [next].
  - destruct docs as [|d docs]; [done|]. destruct Hdec as [Hl Hdec].
    apply Forall_cons in Hfin as [Hd Hfin].
    cbn [mbind result_bind]. rewrite Hl, (canonical_hash_finite d Hd).
    pose proof (skip_seen_keep_new hashes g docs d Hdec Hfin) as Hskip.
    destruct (keep_new None hashes (d :: docs)) as [|doc1 kept].
    + by rewrite Hskip.
    + destruct Hskip as (g' & docs' & -> & ? & ? & ? & ?).
      exists g', docs'. repeat split; try done. cbn. lia.
  - by destruct docs.
  - destruct docs; [|done]. cbn in Hdec. by subst e.
Qed.

Lemma dedup_read_loop (turns : nat) (self : DumpReader.t) (hashes : gset Z)
    (docs : list json.value) :
  DumpReader.seen self = Some hashes →
  decodes (DumpReader.self_reader self) docs →
  Forall (λ d, json.isfinite d = true) docs →
  (length docs < turns)%nat →
  ∃ self',
    DumpReader.read_loop turns self [] = (Ok (keep_new None hashes docs), self')
    ∧ DumpReader.obj_num self'
      = (DumpReader.obj_num self + Z.of_nat (length (keep_new None hashes docs)))%Z.
Proof.
  revert self hashes docs. induction turns as [|turns IH];
    intros self hashes docs Hseen Hdec Hfin Hturns; [lia|].
  cbn [DumpReader.read_loop].
  pose proof (next_keep_new self hashes docs Hseen Hdec Hfin) as Hnext.
  destruct (keep_new None hashes docs) as [|doc1 kept].
  - rewrite Hnext. eexists. split; [done|]. cbn. lia.
  - destruct Hnext as (g' & docs' & -> & Hdec' & Hfin' & -> & Hlen).
    rewrite read_loop_acc.
    destruct (IH {| DumpReader.self_reader := g';
                    DumpReader.obj_num := DumpReader.obj_num self + 1;
                    DumpReader.close := DumpReader.close self;
                    DumpReader.seen := Some ({[hash (enc None 0 doc1)]} ∪ hashes) |}
                 _ docs' eq_refl Hdec' Hfin') as (self' & -> & Hnum); [lia|].
    exists self'. split; [done|]. rewrite Hnum. cbn [DumpReader.obj_num length]. lia.
Qed.

Lemma decodes_length (g : generator (list pystr)) (docs : list json.value) :
  decodes g docs → length docs = length (gen_items g).
Proof.
  revert docs. induction g as [chunk g IH| |e]; intros [|d docs]; try done.
  intros [_ Hdec]. cbn. f_equal. by apply IH.
Qed.

(** X8: what dedup does to a read. When reading all of an input
    without dedup returns [docs], all of finite numbers, reading all of
    the same input with dedup returns the documents of [docs] whose
    canonical hash did not occur before them, in order, and counts
    them. *)
Theorem dedup_read_keeps_first (lines : list pystr) (separator : pystr)
    (close : bool) (docs : list json.value) (r : DumpReader.t) :
  DumpReader.read (DumpReader.__init__ lines separator false close) (-1)
  = (Ok docs, r) →
  Forall (λ d, json.isfinite d = true) docs →
  ∃ r',
    DumpReader.read (DumpReader.__init__ lines separator true close) (-1)
    = (Ok (keep_new None ∅ docs), r')
    ∧ DumpReader.obj_num r' = Z.of_nat (length (keep_new None ∅ docs)).
Proof.
  unfold DumpReader.read. cbn [Z.leb Z.compare]. intros Hplain Hfin.
  apply plain_read_decodes in Hplain; [|done|unfold chunks_left; lia].
  cbn [DumpReader.__init__ DumpReader.self_reader] in *.
  edestruct (dedup_read_loop
               (S (length (gen_items (_reader lines separator))))
               (DumpReader.__init__ lines separator true close) ∅ docs)
    as (r' & Hloop & Hnum); try done.
  { rewrite (decodes_length _ _ Hplain). lia. }
  exists r'. split; [exact Hloop|]. rewrite Hnum. cbn. lia.
Qed.

(** ** The writer *)

Lemma dumps_finite (d : json.value) (indent : option Z) :
  json.isfinite d = true → json.dumps d indent = Ok (enc indent 0 d).
Proof. intros Hd. unfold json.dumps. by rewrite Hd. Qed.

Lemma dumps_not_finite (d : json.value) (indent : option Z) :
  json.isfinite d = false → json.dumps d indent = Err ValueError.
Proof. intros Hd. unfold json.dumps. by rewrite Hd. Qed.

Lemma dumps_ok (d : json.value) (indent : option Z) (text : pystr) :
  json.dumps d indent = Ok text →
  json.isfinite d = true ∧ text = enc indent 0 d.
Proof. unfold json.dumps. destruct (json.isfinite d); [|done]. by intros [= <-]. Qed.

(** One [write] that returns. *)
Lemma write_ok (self self' : DumpWriter.t) (d : json.value) (written : bool) :
  DumpWriter.write self d = (Ok written, self') →
  DumpWriter.obj_num self'
  = (DumpWriter.obj_num self + if written then 1 else 0)%Z
  ∧ DumpWriter.separator_blob self' = DumpWriter.separator_blob self
  ∧ DumpWriter.indent self' = DumpWriter.indent self
  ∧ (DumpWriter.seen self = None → written = true ∧ DumpWriter.seen self' = None)
  ∧ (∀ before, DumpWriter.file_obj self = TextFile before →
       ∃ text, DumpWriter.file_obj self' = TextFile (before ++ text)).
Proof.
  unfold DumpWriter.write, DumpWriter.emit.
  destruct (json.dumps d _) as [text|e]; [|congruence].
  destruct (DumpWriter.seen self) as [hashes|].
  - case_bool_decide.
    + intros [= <- <-]. repeat split; try done; try lia.
      intros before ->. exists []. by rewrite app_nil_r.
    + destruct (file_write _ _) as [f'|e] eqn:Hfile; [|congruence].
      intros [= <- <-]. cbn. repeat split; try done.
      intros before Hbefore. rewrite Hbefore in Hfile. cbn in Hfile.
      injection Hfile as <-. by eexists.
  - destruct (file_write _ _) as [f'|e] eqn:Hfile; [|congruence].
    intros [= <- <-]. cbn. repeat split; try done.
    intros before Hbefore. rewrite Hbefore in Hfile. cbn in Hfile.
    injection Hfile as <-. by eexists.
Qed.

(** X9: a [writemany] that returns gives a count between [0] and the
    number of documents, which is the number of documents when dedup is
    off; [obj_num] has grown by the count; and what the file held is
    still there, at the start of what it holds now. *)
Theorem writemany_counts (self self' : DumpWriter.t) (docs : list json.value)
    (n : Z) :
  DumpWriter.writemany self docs = (Ok n, self') →
  (0 ≤ n ≤ Z.of_nat (length docs))%Z
  ∧ DumpWriter.obj_num self' = (DumpWriter.obj_num self + n)%Z
  ∧ (DumpWriter.seen self = None → n = Z.of_nat (length docs))
  ∧ (∀ before, DumpWriter.file_obj self = TextFile before →
       ∃ text, DumpWriter.file_obj self' = TextFile (before ++ text)).
Proof.
  revert self n. induction docs as [|d docs IH]; intros self n; cbn [DumpWriter.writemany].
  - intros [= <- <-]. cbn. repeat split; try done; try lia.
    intros before ->. exists []. by rewrite app_nil_r.
  - destruct (DumpWriter.write self d) as [[written|e] self1] eqn:Hwrite; [|congruence].
    destruct (DumpWriter.writemany self1 docs) as [[m|e] self2] eqn:Hrest; [|congruence].
    intros [= <- <-].
    apply write_ok in Hwrite as (Hnum1 & _ & _ & Hseen1 & Hfile1).
    apply IH in Hrest as (Hm & Hnum2 & Hseen2 & Hfile2).
    cbn [length]. repeat split.
    + destruct written; lia.
    + destruct written; lia.
    + lia.
    + intros Hseen. destruct (Hseen1 Hseen) as [-> Hseen1']. rewrite (Hseen2 Hseen1'). lia.
    + intros before Hbefore. destruct (Hfile1 _ Hbefore) as (t1 & Ht1).
      destruct (Hfile2 _ Ht1) as (t2 & Ht2). exists (t1 ++ t2). by rewrite app_assoc.
Qed.

Lemma writemany_split (self : DumpWriter.t) (a b : list json.value) :
  DumpWriter.writemany self (a ++ b) =
  match DumpWriter.writemany self a with
  | (Err e, self1) => (Err e, self1)
  | (Ok n, self1) =>
      match DumpWriter.writemany self1 b with
      | (Err e, self2) => (Err e, self2)
      | (Ok m, self2) => (Ok (n + m)%Z, self2)
      end
  end.
Proof.
  revert self. induction a as [|d a IH]; intros self; cbn [app DumpWriter.writemany].
  - destruct (DumpWriter.writemany self b) as [[m|e] self2]; [|done].
    by destruct m.
  - destruct (DumpWriter.write self d) as [[written|e] self1]; [|done].
    rewrite IH. destruct (DumpWriter.writemany self1 a) as [[n|e] self2]; [|done].
    destruct (DumpWriter.writemany self2 b) as [[m|e] self3]; [|done].
    f_equal. f_equal. lia.
Qed.

(** With dedup on, on a stream that takes the text of every document:
    exactly the documents dedup lets through are written. *)
Lemma dedup_writemany_on (stream : pystr → file_like) (docs : list json.value) :
  Forall (λ d, json.isfinite d = true) docs →
  ∀ (self : DumpWriter.t) (hashes : gset Z) (before : pystr),
    DumpWriter.seen self = Some hashes →
    DumpWriter.file_obj self = stream before →
    Forall (λ d, takes stream (enc (DumpWriter.indent self) 0 d
                               ++ DumpWriter.separator_blob self)) docs →
    let kept := keep_new (DumpWriter.indent self) hashes docs in
    ∃ hashes',
      DumpWriter.writemany self docs =
      (Ok (Z.of_nat (length kept)),
       {| DumpWriter.separator_blob := DumpWriter.separator_blob self;
          DumpWriter.file_obj :=
            stream (before ++ appended (DumpWriter.indent self)
                                (DumpWriter.separator_blob self) kept);
          DumpWriter.obj_num := DumpWriter.obj_num self + Z.of_nat (length kept);
          DumpWriter.close := DumpWriter.close self;
          DumpWriter.indent := DumpWriter.indent self;
          DumpWriter.seen := Some hashes' |})
      ∧ hashes ⊆ hashes'
      ∧ Forall (λ d, hash (enc (DumpWriter.indent self) 0 d) ∈ hashes') docs.
Proof.
  induction 1 as [|d docs Hd Hdocs IH]; intros self hashes before Hseen Hfile Htakes.
  - cbn. exists hashes. destruct self; cbn in *. subst.
    rewrite app_nil_r, Z.add_0_r. by repeat split.
  - apply Forall_cons in Htakes as [Htake Htakes].
    cbn [DumpWriter.writemany keep_new]. unfold DumpWriter.write, DumpWriter.emit.
    rewrite (dumps_finite d _ Hd), Hseen. case_bool_decide as Hin.
    + destruct (IH self hashes before Hseen Hfile Htakes)
        as (hashes' & -> & Hsub & Hall).
      cbn zeta. exists hashes'. repeat split; try done.
      constructor; [|done]. by apply Hsub.
    + rewrite Hfile, Htake.
      destruct (IH {| DumpWriter.separator_blob := DumpWriter.separator_blob self;
                      DumpWriter.file_obj :=
                        stream (before ++ enc (DumpWriter.indent self) 0 d
                                ++ DumpWriter.separator_blob self);
                      DumpWriter.obj_num := DumpWriter.obj_num self + 1;
                      DumpWriter.close := DumpWriter.close self;
                      DumpWriter.indent := DumpWriter.indent self;
                      DumpWriter.seen :=
                        Some ({[hash (enc (DumpWriter.indent self) 0 d)]} ∪ hashes) |}
                  _ _ eq_refl eq_refl Htakes)
        as (hashes' & -> & Hsub & Hall).
      cbn zeta. cbn [DumpWriter.separator_blob DumpWriter.indent DumpWriter.obj_num
                     DumpWriter.close] in *.
      exists hashes'. split; [|split].
      * set (kept := keep_new _ _ docs). cbn [length].
        replace (Z.of_nat (S (length kept))) with (1 + Z.of_nat (length kept))%Z by lia.
        replace (DumpWriter.obj_num self + (1 + Z.of_nat (length kept)))%Z
          with (DumpWriter.obj_num self + 1 + Z.of_nat (length kept))%Z by lia.
        unfold appended. cbn [map concat]. by rewrite <- !app_assoc.
      * intros x Hx. apply Hsub. apply elem_of_union. by right.
      * constructor; [|done]. apply Hsub. apply elem_of_union. left.
        by apply elem_of_singleton.
Qed.

(** With dedup off, on a stream that takes the text of every document:
    every document is written. *)
Lemma plain_writemany_on (stream : pystr → file_like) (docs : list json.value) :
  Forall (λ d, json.isfinite d = true) docs →
  ∀ (self : DumpWriter.t) (before : pystr),
    DumpWriter.seen self = None →
    DumpWriter.file_obj self = stream before →
    Forall (λ d, takes stream (enc (DumpWriter.indent self) 0 d
                               ++ DumpWriter.separator_blob self)) docs →
    DumpWriter.writemany self docs =
    (Ok (Z.of_nat (length docs)),
     {| DumpWriter.separator_blob := DumpWriter.separator_blob self;
        DumpWriter.file_obj :=
          stream (before ++ appended (DumpWriter.indent self)
                              (DumpWriter.separator_blob self) docs);
        DumpWriter.obj_num := DumpWriter.obj_num self + Z.of_nat (length docs);
        DumpWriter.close := DumpWriter.close self;
        DumpWriter.indent := DumpWriter.indent self;
        DumpWriter.seen := None |}).
Proof.
  induction 1 as [|d docs Hd Hdocs IH]; intros self before Hseen Hfile Htakes.
  - cbn. destruct self; cbn in *. subst. by rewrite app_nil_r, Z.add_0_r.
  - apply Forall_cons in Htakes as [Htake Htakes].
    cbn [DumpWriter.writemany]. unfold DumpWriter.write, DumpWriter.emit.
    rewrite (dumps_finite d _ Hd), Hseen, Hfile, Htake.
    rewrite (IH {| DumpWriter.separator_blob := DumpWriter.separator_blob self;
                   DumpWriter.file_obj :=
                     stream (before ++ enc (DumpWriter.indent self) 0 d
                             ++ DumpWriter.separator_blob self);
                   DumpWriter.obj_num := DumpWriter.obj_num self + 1;
                   DumpWriter.close := DumpWriter.close self;
                   DumpWriter.indent := DumpWriter.indent self;
                   DumpWriter.seen := None |} _ eq_refl eq_refl Htakes).
    cbn [DumpWriter.separator_blob DumpWriter.indent DumpWriter.obj_num
         DumpWriter.close length].
    replace (Z.of_nat (S (length docs))) with (1 + Z.of_nat (length docs))%Z by lia.
    replace (DumpWriter.obj_num self + (1 + Z.of_nat (length docs)))%Z
      with (DumpWriter.obj_num self + 1 + Z.of_nat (length docs))%Z by lia.
    unfold appended. cbn [map concat]. by rewrite <- !app_assoc.
Qed.

(** A text stream takes any text; a [utf8] file, what [utf8] can
    encode. *)
Lemma takes_any (f : json.value → pystr) (docs : list json.value) :
  Forall (λ d, takes TextFile (f d)) docs.
Proof. apply Forall_forall. by intros d _ before. Qed.

Lemma takes_utf8 (text : pystr) : utf8_text text = true → takes Utf8File text.
Proof. intros Htext before. cbn. by rewrite Htext. Qed.

(** With dedup on, on a text file: exactly the documents dedup lets
    through are written. *)
Lemma dedup_writemany (docs : list json.value) :
  Forall (λ d, json.isfinite d = true) docs →
  ∀ (self : DumpWriter.t) (hashes : gset Z) (before : pystr),
    DumpWriter.seen self = Some hashes →
    DumpWriter.file_obj self = TextFile before →
    let kept := keep_new (DumpWriter.indent self) hashes docs in
    ∃ hashes',
      DumpWriter.writemany self docs =
      (Ok (Z.of_nat (length kept)),
       {| DumpWriter.separator_blob := DumpWriter.separator_blob self;
          DumpWriter.file_obj :=
            TextFile (before ++ appended (DumpWriter.indent self)
                                  (DumpWriter.separator_blob self) kept);
          DumpWriter.obj_num := DumpWriter.obj_num self + Z.of_nat (length kept);
          DumpWriter.close := DumpWriter.close self;
          DumpWriter.indent := DumpWriter.indent self;
          DumpWriter.seen := Some hashes' |})
      ∧ hashes ⊆ hashes'
      ∧ Forall (λ d, hash (enc (DumpWriter.indent self) 0 d) ∈ hashes') docs.
Proof.
  intros Hdocs self hashes before Hseen Hfile.
  apply (dedup_writemany_on TextFile docs Hdocs self hashes before Hseen Hfile).
  apply takes_any.
Qed.

(** With dedup off, on a text file: every document is written. *)
Lemma plain_writemany (docs : list json.value) :
  Forall (λ d, json.isfinite d = true) docs →
  ∀ (self : DumpWriter.t) (before : pystr),
    DumpWriter.seen self = None →
    DumpWriter.file_obj self = TextFile before →
    DumpWriter.writemany self docs =
    (Ok (Z.of_nat (length docs)),
     {| DumpWriter.separator_blob := DumpWriter.separator_blob self;
        DumpWriter.file_obj :=
          TextFile (before ++ appended (DumpWriter.indent self)
                                (DumpWriter.separator_blob self) docs);
        DumpWriter.obj_num := DumpWriter.obj_num self + Z.of_nat (length docs);
        DumpWriter.close := DumpWriter.close self;
        DumpWriter.indent := DumpWriter.indent self;
        DumpWriter.seen := None |}).
Proof.
  intros Hdocs self before Hseen Hfile.
  apply (plain_writemany_on TextFile docs Hdocs self before Hseen Hfile).
  apply takes_any.
Qed.

Lemma writemany_finite (docs : list json.value) (self : DumpWriter.t)
    (before : pystr) :
  Forall (λ d, json.isfinite d = true) docs →
  DumpWriter.file_obj self = TextFile before →
  ∃ n self1 text,
    DumpWriter.writemany self docs = (Ok n, self1)
    ∧ DumpWriter.file_obj self1 = TextFile text
    ∧ DumpWriter.indent self1 = DumpWriter.indent self.
Proof.
  intros Hdocs Hfile. destruct (DumpWriter.seen self) as [hashes|] eqn:Hseen.
  - destruct (dedup_writemany docs Hdocs self hashes before Hseen Hfile)
      as (hashes' & Hw & _).
    by eexists _, _, _.
  - rewrite (plain_writemany docs Hdocs self before Hseen Hfile).
    by eexists _, _, _.
Qed.

(** X10: writing [a ++ b] returns exactly when writing [a] and then
    [b] returns, with the sum of the two counts and the same writer
    afterwards. *)
Theorem writemany_in_two_steps (self self2 : DumpWriter.t)
    (a b : list json.value) (k : Z) :
  DumpWriter.writemany self (a ++ b) = (Ok k, self2)
  ↔ ∃ n m self1,
      DumpWriter.writemany self a = (Ok n, self1)
      ∧ DumpWriter.writemany self1 b = (Ok m, self2)
      ∧ k = (n + m)%Z.
Proof.
  rewrite writemany_split. split.
  - destruct (DumpWriter.writemany self a) as [[n|e] self1]; [|done].
    destruct (DumpWriter.writemany self1 b) as [[m|e] self2'] eqn:Hb; [|done].
    intros [= <- <-]. by exists n, m, self1.
  - intros (n & m & self1 & -> & -> & ->). done.
Qed.

(** X11: [writemany] stops at the first document that holds a number
    that is not finite: it raises [ValueError], the documents before it
    are written, and the writer is as it is after writing just them.
    Nothing of the bad document or of those after it is written. *)
Theorem writemany_stops_at_first_error (self : DumpWriter.t)
    (good rest : list json.value) (bad : json.value) (before : pystr) :
  DumpWriter.file_obj self = TextFile before →
  Forall (λ d, json.isfinite d = true) good →
  json.isfinite bad = false →
  ∃ n self1,
    DumpWriter.writemany self good = (Ok n, self1)
    ∧ DumpWriter.writemany self (good ++ bad :: rest) = (Err ValueError, self1).
Proof.
  intros Hfile Hgood Hbad.
  destruct (writemany_finite good self before Hgood Hfile)
    as (n & self1 & text & Hw & _ & _).
  exists n, self1. split; [done|]. rewrite writemany_split, Hw.
  cbn [DumpWriter.writemany]. unfold DumpWriter.write.
  by rewrite (dumps_not_finite bad _ Hbad).
Qed.

(** What a dedup writer has seen after a [write] that returned. *)
Lemma write_seen (self self' : DumpWriter.t) (d : json.value) (written : bool)
    (hashes : gset Z) :
  DumpWriter.seen self = Some hashes →
  DumpWriter.write self d = (Ok written, self') →
  ∃ hashes',
    DumpWriter.seen self' = Some hashes'
    ∧ hashes ⊆ hashes'
    ∧ json.isfinite d = true
    ∧ hash (enc (DumpWriter.indent self) 0 d) ∈ hashes'
    ∧ DumpWriter.indent self' = DumpWriter.indent self.
Proof.
  intros Hseen. unfold DumpWriter.write, DumpWriter.emit.
  destruct (json.dumps d _) as [text|e] eqn:Hd; [|congruence].
  apply dumps_ok in Hd as [Hfin ->]. rewrite Hseen. case_bool_decide as Hin.
  - intros [= <- <-]. by exists hashes.
  - destruct (file_write _ _) as [f'|e]; [|congruence].
    intros [= <- <-]. cbn. eexists. split; [done|]. repeat split; try done.
    + intros x Hx. apply elem_of_union. by right.
    + apply elem_of_union. left. by apply elem_of_singleton.
Qed.

Lemma writemany_seen (docs : list json.value) (self self' : DumpWriter.t)
    (n : Z) (hashes : gset Z) :
  DumpWriter.seen self = Some hashes →
  DumpWriter.writemany self docs = (Ok n, self') →
  ∃ hashes',
    DumpWriter.seen self' = Some hashes'
    ∧ hashes ⊆ hashes'
    ∧ DumpWriter.indent self' = DumpWriter.indent self
    ∧ Forall (λ d, json.isfinite d = true
                   ∧ hash (enc (DumpWriter.indent self) 0 d) ∈ hashes') docs.
Proof.
  revert self n hashes. induction docs as [|d docs IH]; intros self n hashes Hseen;
    cbn [DumpWriter.writemany].
  - intros [= <- <-]. exists hashes. by repeat split.
  - destruct (DumpWriter.write self d) as [[written|e] self1] eqn:Hwrite; [|congruence].
    destruct (DumpWriter.writemany self1 docs) as [[m|e] self2] eqn:Hrest; [|congruence].
    intros [= <- <-].
    destruct (write_seen _ _ _ _ _ Hseen Hwrite) as (h1 & Hseen1 & Hsub1 & Hfin & Hin & Hind).
    destruct (IH _ _ _ Hseen1 Hrest) as (h2 & Hseen2 & Hsub2 & Hind2 & Hall).
    exists h2. repeat split; try done.
    + by etrans.
    + congruence.
    + constructor; [split; [done|by apply Hsub2]|]. by rewrite <- Hind.
Qed.

Lemma writemany_all_seen (docs : list json.value) (self : DumpWriter.t)
    (hashes : gset Z) :
  DumpWriter.seen self = Some hashes →
  Forall (λ d, json.isfinite d = true
               ∧ hash (enc (DumpWriter.indent self) 0 d) ∈ hashes) docs →
  DumpWriter.writemany self docs = (Ok 0%Z, self).
Proof.
  intros Hseen. induction 1 as [|d docs [Hfin Hin] _ IH]; [done|].
  cbn [DumpWriter.writemany]. unfold DumpWriter.write.
  rewrite (dumps_finite d _ Hfin), Hseen, bool_decide_eq_true_2 by done.
  by rewrite IH.
Qed.

(** X12: with dedup on, writing the same documents once more to the
    writer that wrote them returns [0] and changes nothing. *)
Theorem dedup_writemany_again_writes_nothing (self self' : DumpWriter.t)
    (docs : list json.value) (n : Z) (hashes : gset Z) :
  DumpWriter.seen self = Some hashes →
  DumpWriter.writemany self docs = (Ok n, self') →
  DumpWriter.writemany self' docs = (Ok 0%Z, self').
Proof.
  intros Hseen Hw.
  destruct (writemany_seen _ _ _ _ _ Hseen Hw) as (hashes' & Hseen' & _ & Hind & Hall).
  apply (writemany_all_seen docs self' hashes' Hseen'). by rewrite Hind.
Qed.

(** X13: with dedup on, on a text file, [writemany] appends the text
    and the sentinel of exactly those documents whose text has a hash
    that was not seen before and is not the hash of a document before
    them, in order, and returns their number. *)
Theorem dedup_writemany_writes_new_only (self : DumpWriter.t)
    (docs : list json.value) (hashes : gset Z) (before : pystr) :
  DumpWriter.seen self = Some hashes →
  DumpWriter.file_obj self = TextFile before →
  Forall (λ d, json.isfinite d = true) docs →
  let kept := keep_new (DumpWriter.indent self) hashes docs in
  ∃ self',
    DumpWriter.writemany self docs = (Ok (Z.of_nat (length kept)), self')
    ∧ DumpWriter.file_obj self'
      = TextFile (before ++ appended (DumpWriter.indent self)
                              (DumpWriter.separator_blob self) kept)
    ∧ DumpWriter.obj_num self'
      = (DumpWriter.obj_num self + Z.of_nat (length kept))%Z.
Proof.
  intros Hseen Hfile Hdocs kept.
  destruct (dedup_writemany docs Hdocs self hashes before Hseen Hfile)
    as (hashes' & Hw & _).
  eexists. split; [exact Hw|]. by split.
Qed.

(** ** The reader on numbers that are not finite *)

(** X24: a number that is not finite can be read without dedup only. A
    chunk that decodes to a document with such a number ([NaN],
    [Infinity]) is handed over as it is when dedup is off; with dedup on
    the pull raises [ValueError], from the canonical encoding, and the
    chunk is gone; the count and the seen hashes stay as they were. *)
Theorem dedup_next_rejects_non_finite (self : DumpReader.t) (chunk : list pystr)
    (g : generator (list pystr)) (obj : json.value) :
  DumpReader.self_reader self = Yield chunk g →
  json.loads (join chunk) = Ok obj →
  json.isfinite obj = false →
  DumpReader.__next__ self =
  match DumpReader.seen self with
  | None =>
      (Ok obj,
       {| DumpReader.self_reader := g;
          DumpReader.obj_num := DumpReader.obj_num self + 1;
          DumpReader.close := DumpReader.close self;
          DumpReader.seen := None |})
  | Some _ => (Err ValueError, DumpReader.with_reader self g)
  end.
Proof.
  intros Hreader Hloads Hnan. unfold DumpReader.__next__, DumpReader.load_next.
  rewrite Hreader. cbn [next mbind result_bind]. rewrite Hloads.
  destruct (DumpReader.seen self) as [hashes|]; [|done].
  unfold DumpReader.canonical_hash. by rewrite (dumps_not_finite obj None Hnan).
Qed.

(** ** The opener *)

Ltac literal_str :=
  repeat match goal with
         | |- context [str ?s] =>
             let x := eval vm_compute in (str s) in change (str s) with x
         end.

(** *** Modes *)

Lemma startswith_prefix (s p : pystr) :
  startswith s p = true → ∃ t, s = p ++ t.
Proof.
  revert s. induction p as [|c p IH]; intros s; [by exists s|].
  destruct s as [|c' s]; [done|]. cbn.
  intros [Hc Hp]%andb_true_iff. apply N.eqb_eq in Hc as ->.
  destruct (IH _ Hp) as (t & ->). by exists t.
Qed.

Lemma contains_infix (s sub : pystr) :
  contains s sub = true → ∃ a b, s = a ++ sub ++ b.
Proof.
  induction s as [|c s IH]; cbn [contains].
  - rewrite orb_false_r. intros (t & Ht)%startswith_prefix. by exists [], t.
  - intros [Hs|Hc]%orb_true_iff.
    + apply startswith_prefix in Hs as (t & Ht). by exists [], t.
    + destruct (IH Hc) as (a & b & ->). by exists (c :: a), b.
Qed.

(** What passes the check [mode not in 'rwax'] and is none of the four
    modes goes to neither branch's end. *)
Lemma mode_cases (mode : pystr) :
  contains (str "rwax") mode = true →
  mode = str "r" ∨ mode = str "w" ∨ mode = str "a" ∨ mode = str "x"
  ∨ (mode = [] ∧ contains (str "ra") mode = true)
  ∨ (contains (str "ra") mode = false ∧ contains (str "wx") mode = false).
Proof.
  intros (a & b & Heq)%contains_infix. revert Heq. literal_str.
  destruct a as [|a1 [|a2 [|a3 [|a4 [|a5 a]]]]];
    destruct mode as [|m1 [|m2 [|m3 [|m4 [|m5 mode]]]]];
    destruct b as [|b1 b]; cbn; intros Heq; try discriminate Heq;
    injection Heq as Heq; subst; try discriminate;
    first [ by (left) | by (right; left) | by (right; right; left)
          | by (right; right; right; left)
          | by (right; right; right; right; left)
          | by (right; right; right; right; right) ].
Qed.

Lemma init_read_append_other_mode (mode path : pystr) (gz : option bool)
    (unique : bool) (w : world) :
  mode ≠ str "r" → mode ≠ str "a" →
  ∃ e w',
    DumpOpener.init_read_append mode path gz unique w = (Err e, w')
    ∧ fs w' = fs w
    ∧ (e = AssertionError ∨ e = FileNotFoundError).
Proof.
  intros Hr Ha. unfold DumpOpener.init_read_append.
  rewrite (bool_decide_eq_false_2 _ Hr), (bool_decide_eq_false_2 _ Ha). cbn [negb].
  destruct gz as [b|].
  - exists AssertionError, w. split; [done|]. split; [done|by left].
  - unfold open_file. destruct (fs w !! path).
    + eexists _, _. split; [done|]. split; [done|by left].
    + eexists _, _. split; [done|]. split; [done|by right].
Qed.

(** X14: [DumpOpener] with a mode other than [r], [w], [a] and [x]
    raises ([IOError], [AssertionError] or, for the empty mode on a
    missing file, [FileNotFoundError]) and no file is created or
    changed. *)
Theorem unsupported_mode_changes_no_file (path mode : pystr)
    (gz : option bool) (unique : bool) (w : world) :
  mode ≠ str "r" → mode ≠ str "w" → mode ≠ str "a" → mode ≠ str "x" →
  ∃ e w',
    DumpOpener.__init__ path mode gz unique w = (Err e, w')
    ∧ fs w' = fs w
    ∧ (e = IOError ∨ e = AssertionError ∨ e = FileNotFoundError).
Proof.
  intros Hr Hw Ha Hx. unfold DumpOpener.__init__.
  destruct (contains (str "rwax") mode) eqn:Hcheck; cbn [negb].
  - destruct (mode_cases mode Hcheck)
      as [?|[?|[?|[?|[[-> Hra]|[Hra Hwx]]]]]]; try done.
    + rewrite Hra.
      destruct (init_read_append_other_mode [] (abspath path) gz unique w Hr Ha)
        as (e & w' & -> & Hfs & He).
      exists e, w'. split; [done|]. split; [done|]. destruct He; auto.
    + rewrite Hra. unfold DumpOpener.init_write_create. rewrite Hwx. cbn [negb].
      exists AssertionError, w. auto.
  - exists IOError, w. auto.
Qed.

(** *** Read mode *)

Lemma open_read_keeps_files (path : pystr) (mode : open_mode) (gzip : bool)
    (w : world) :
  mode = RB ∨ mode = RT →
  fs (snd (open_file path mode gzip w)) = fs w.
Proof. unfold open_file. intros [-> | ->]; by destruct (fs w !! path). Qed.

(** What [__init__] gives in read mode on a file that is there: a
    reader over the lines of the file, dedup as asked, gzip as the
    override or the first two bytes say. *)
Lemma init_read_ok (path : pystr) (gz : option bool) (unique : bool)
    (w : world) (data : file_data) :
  fs w !! abspath path = Some data →
  let gzip := match gz with
              | Some override => override
              | None => starts_with_gzip_magic data
              end in
  ∃ w' r,
    DumpOpener.__init__ path (str "r") gz unique w
    = (Ok {| DumpOpener.mode := str "r";
             DumpOpener.path := abspath path;
             DumpOpener.temp_path := None;
             DumpOpener.file_obj :=
               {| h_path := abspath path; h_mode := RT; h_gzip := gzip |};
             DumpOpener.gz := DumpOpener.GzNone;
             DumpOpener.rw_obj := DumpOpener.Reader r |}, w')
    ∧ fs w' = fs w
    ∧ DumpReader.obj_num r = 0%Z
    ∧ DumpReader.seen r = (if unique then Some ∅ else None)
    ∧ DumpReader.self_reader r =
        match lines_of gzip data with
        | Ok lines => _reader lines default_separator
        | Err e => Raise e
        end.
Proof.
  intros Hdata gzip. unfold DumpOpener.__init__, DumpOpener.init_read_append.
  replace (contains (str "rwax") (str "r")) with true by done.
  replace (contains (str "ra") (str "r")) with true by done.
  cbn [negb]. rewrite bool_decide_eq_true_2 by done.
  destruct gz as [b|]; unfold open_file; rewrite Hdata; cbn [fs]; rewrite Hdata;
    cbn [default from_option fs]; rewrite ?Hdata; cbn [from_option]; unfold id;
    subst gzip.
  - destruct (lines_of b data); eexists _, _; by repeat split.
  - destruct (lines_of _ data); eexists _, _; by repeat split.
Qed.

(** X15: opening in mode [r] changes no file, whether it succeeds or
    raises; when it succeeds, [__enter__] hands out a reader, and
    [__exit__] returns and changes nothing, whatever was read in
    between. *)
Theorem read_mode_keeps_files (path : pystr) (gz : option bool)
    (unique : bool) (w : world) :
  fs (snd (DumpOpener.__init__ path (str "r") gz unique w)) = fs w
  ∧ ∀ self w1,
      DumpOpener.__init__ path (str "r") gz unique w = (Ok self, w1) →
      (∃ r, DumpOpener.__enter__ self = DumpOpener.Reader r)
      ∧ ∀ r' w', DumpOpener.__exit__
                   (DumpOpener.with_rw_obj self (DumpOpener.Reader r')) w'
                 = (Ok tt, w').
Proof.
  destruct (fs w !! abspath path) as [data|] eqn:Hdata.
  - destruct (init_read_ok path gz unique w data Hdata) as (w' & r & Hinit & Hfs & _).
    rewrite Hinit. split; [done|]. intros self w1 [= <- <-].
    split; [by exists r|]. intros r' w2. reflexivity.
  - assert (Hinit : DumpOpener.__init__ path (str "r") gz unique w
                    = (Err FileNotFoundError, w)).
    { apply missing_file_not_found; [done|by left]. }
    rewrite Hinit. split; [done|]. intros self w1 [=].
Qed.

(** *** Write mode: what a [dump] that succeeds leaves behind *)

Lemma takes_encodable (docs : list json.value) :
  Forall (λ d, encodable d = true) docs →
  Forall (λ d, takes Utf8File (enc (Some 4%Z) 0 d
                               ++ [newline] ++ default_separator ++ [newline])) docs.
Proof.
  intros Hdocs. eapply Forall_impl; [exact Hdocs|]. intros d Hd.
  apply takes_utf8. unfold utf8_text. rewrite forallb_app.
  unfold encodable, utf8_text in Hd. by rewrite Hd.
Qed.

Lemma writemany_from_empty (docs : list json.value) (unique : bool) :
  Forall (λ d, json.isfinite d = true) docs →
  Forall (λ d, encodable d = true) docs →
  let kept := if unique then keep_new (Some 4%Z) ∅ docs else docs in
  ∃ wr,
    DumpWriter.writemany
      (DumpWriter.__init__ (Utf8File []) default_separator unique (Some 4%Z)) docs
    = (Ok (Z.of_nat (length kept)), wr)
    ∧ DumpWriter.file_obj wr
      = Utf8File (appended (Some 4%Z) ([newline] ++ default_separator ++ [newline]) kept).
Proof.
  intros Hdocs Hutf8. destruct unique; cbv zeta.
  - destruct (dedup_writemany_on Utf8File docs Hdocs
                (DumpWriter.__init__ (Utf8File []) default_separator true (Some 4%Z))
                ∅ [] eq_refl eq_refl (takes_encodable docs Hutf8))
      as (hashes' & Hw & _).
    eexists. split; [exact Hw|]. reflexivity.
  - rewrite (plain_writemany_on Utf8File docs Hdocs
               (DumpWriter.__init__ (Utf8File []) default_separator false (Some 4%Z))
               [] eq_refl eq_refl (takes_encodable docs Hutf8)).
    eexists. split; reflexivity.
Qed.



(** *** Append mode *)

Lemma append_ok (docs : list json.value) (path : pystr)
    (unique gzip : bool) (old : pystr) (w : world) :
  Forall (λ d, json.isfinite d = true) docs →
  Forall (λ d, encodable d = true) docs →
  fs w !! abspath path = Some (if gzip then GzipText old else PlainText old) →
  let kept := if unique then keep_new (Some 4%Z) ∅ docs else docs in
  let text := appended (Some 4%Z) ([newline] ++ default_separator ++ [newline]) kept in
  ∃ w',
    DumpOpener.with_open path (str "a") None unique
      (DumpOpener.rw_writemany docs) w
    = (Ok (Z.of_nat (length kept)), w')
    ∧ fs w' = <[abspath path := if gzip then GzipText (old ++ text)
                                else PlainText (old ++ text)]> (fs w).
Proof.
  intros Hdocs Hutf8 Hdata kept text.
  unfold DumpOpener.with_open, DumpOpener.__init__, DumpOpener.init_read_append.
  replace (contains (str "rwax") (str "a")) with true by done.
  replace (contains (str "ra") (str "a")) with true by done.
  cbn [negb]. rewrite bool_decide_eq_false_2 by done.
  rewrite bool_decide_eq_true_2 by done. cbn [negb].
  unfold open_file. rewrite Hdata. cbn [fs]. rewrite Hdata.
  cbn [default from_option]. unfold id.
  cbn [DumpOpener.__enter__ DumpOpener.rw_obj DumpOpener.rw_writemany].
  destruct (writemany_from_empty docs unique Hdocs Hutf8) as (wr & -> & Hfile).
  fold kept in Hfile |- *. fold text in Hfile.
  unfold DumpOpener.__exit__, DumpOpener.with_rw_obj, DumpOpener.written, close_file.
  cbn [DumpOpener.gz DumpOpener.rw_obj DumpOpener.file_obj DumpOpener.temp_path
       h_mode h_path h_gzip fs].
  rewrite Hfile, Hdata. cbn [default from_option]. unfold id.
  eexists. split; [done|]. cbn [fs]. clear Hdata. destruct gzip; [reflexivity|by destruct old].
Qed.

(** X17: appending (mode [a], no override) documents with finite
    numbers only whose text [utf8] can encode to a file that holds text,
    plain or compressed, keeps what it held and adds the text of the
    documents after it, in the same form; no other file changes. *)
Theorem append_extends_file (docs : list json.value) (path : pystr)
    (unique gzip : bool) (old : pystr) (w : world) :
  Forall (λ d, json.isfinite d = true) docs →
  Forall (λ d, encodable d = true) docs →
  fs w !! abspath path = Some (if gzip then GzipText old else PlainText old) →
  let kept := if unique then keep_new (Some 4%Z) ∅ docs else docs in
  let text := appended (Some 4%Z) ([newline] ++ default_separator ++ [newline]) kept in
  ∃ w',
    DumpOpener.with_open path (str "a") None unique
      (DumpOpener.rw_writemany docs) w
    = (Ok (Z.of_nat (length kept)), w')
    ∧ fs w' = <[abspath path := if gzip then GzipText (old ++ text)
                                else PlainText (old ++ text)]> (fs w).
Proof. apply append_ok. Qed.

(** ** [load] *)

Lemma gen_items_yield_all_app {A} (xs : list A) (g : generator A) :
  gen_items (yield_all xs g) = xs ++ gen_items g.
Proof. induction xs as [|x xs IH]; [done|]. cbn. by rewrite <- IH. Qed.

(** *** [load] leaves the files as they are *)

Lemma init_read_log (path : pystr) (unique : bool) (w : world) :
  ∃ opens,
    log (snd (DumpOpener.__init__ path (str "r") None unique w)) = log w ++ opens
    ∧ Forall opens_for_reading opens.
Proof.
  unfold DumpOpener.__init__, DumpOpener.init_read_append.
  replace (contains (str "rwax") (str "r")) with true by done.
  replace (contains (str "ra") (str "r")) with true by done.
  cbn [negb]. rewrite bool_decide_eq_true_2 by done.
  unfold open_file. destruct (fs w !! abspath path) as [data|] eqn:Hdata.
  - cbn [fs]. rewrite Hdata. cbn [snd log]. rewrite <- app_assoc.
    eexists. split; [done|]. by repeat constructor.
  - exists []. by rewrite app_nil_r.
Qed.

Lemma load_paths_keeps_files (paths : list pystr) (seen : option (gset Z))
    (w : world) :
  fs (snd (load_paths paths seen w)) = fs w
  ∧ ∃ opens, log (snd (load_paths paths seen w)) = log w ++ opens
             ∧ Forall opens_for_reading opens.
Proof.
  revert seen w. induction paths as [|path paths IH]; intros seen w.
  { split; [done|]. exists []. by rewrite app_nil_r. }
  cbn [load_paths].
  destruct (init_read_log path true w) as (opens & Hlog & Hopens).
  destruct (fs w !! abspath path) as [data|] eqn:Hdata.
  - destruct (init_read_ok path None true w data Hdata) as (w' & r & Hinit & Hfs & _).
    rewrite Hinit in Hlog |- *. cbn [snd] in Hlog.
    cbn [DumpOpener.__enter__ DumpOpener.rw_obj].
    destruct (load_file _ r seen) as [[objs ending] [f' seen']].
    change (DumpOpener.__exit__ _ w') with (Ok tt, w').
    destruct ending as [e|]; [by eauto|].
    destruct (IH seen' w') as (Hfs' & opens' & Hlog' & Hopens').
    destruct (load_paths paths seen' w') as [g w3]. cbn [snd] in *.
    split; [congruence|]. exists (opens ++ opens').
    rewrite Hlog', Hlog, app_assoc. split; [done|]. by apply Forall_app.
  - rewrite (missing_file_not_found path (str "r") None true w Hdata) in Hlog |- *;
      [|by left|by left].
    eauto.
Qed.

(** X18: [load] changes no file, and every call it makes on the file
    system opens a file for reading. *)
Theorem load_only_reads (glob_glob : pystr → list pystr) (input_glob : pystr)
    (unique : bool) (w : world) :
  fs (snd (load glob_glob input_glob unique w)) = fs w
  ∧ ∃ opens, log (snd (load glob_glob input_glob unique w)) = log w ++ opens
             ∧ Forall opens_for_reading opens.
Proof. apply load_paths_keeps_files. Qed.

(** *** What [load] yields with dedup on *)

Lemma load_file_hashes (turns : nat) (f f' : DumpReader.t) (hashes : gset Z)
    (objs : list json.value) (ending : option exn) (seen' : option (gset Z)) :
  load_file turns f (Some hashes) = (objs, ending, (f', seen')) →
  ∃ hs, Forall2 (λ d h, DumpReader.canonical_hash d = Ok h) objs hs
        ∧ NoDup hs
        ∧ Forall (λ h, h ∉ hashes) hs
        ∧ seen' = Some (list_to_set hs ∪ hashes).
Proof.
  revert f hashes objs. induction turns as [|turns IH]; intros f hashes objs;
    cbn [load_file].
  - intros [= <- <- <- <-]. exists []. repeat split; try constructor.
    cbn. by rewrite (left_id_L ∅ (∪)).
  - destruct (DumpReader.__next__ f) as [[obj|e] f1].
    + destruct (DumpReader.canonical_hash obj) as [h|e] eqn:Hh.
      * case_bool_decide as Hin; [by apply IH|].
        destruct (load_file turns f1 _) as [[objs1 ending1] [f2 seen2]] eqn:Hload.
        intros [= <- <- <- <-].
        destruct (IH _ _ _ Hload) as (hs & Hhs & Hnodup & Hfresh & Hseen).
        exists (h :: hs). repeat split.
        -- by constructor.
        -- constructor; [|done]. intros Hdup.
           rewrite Forall_forall in Hfresh. apply (Hfresh h Hdup).
           apply elem_of_union. left. by apply elem_of_singleton.
        -- constructor; [done|]. eapply Forall_impl; [exact Hfresh|].
           intros x Hx Hxin. apply Hx. apply elem_of_union. by right.
        -- rewrite Hseen. f_equal. cbn [list_to_set].
           by rewrite (comm_L (∪) {[h]} (list_to_set hs)), <- (assoc_L (∪)).
      * intros [= <- <- <- <-]. exists []. repeat split; try constructor.
        cbn. by rewrite (left_id_L ∅ (∪)).
    + destruct e; intros [= <- <- <- <-]; exists []; repeat split; try constructor;
        cbn; by rewrite (left_id_L ∅ (∪)).
Qed.

Lemma load_paths_hashes (paths : list pystr) (hashes : gset Z) (w : world) :
  ∃ hs, Forall2 (λ d h, DumpReader.canonical_hash d = Ok h)
          (gen_items (fst (load_paths paths (Some hashes) w))) hs
        ∧ NoDup hs
        ∧ Forall (λ h, h ∉ hashes) hs.
Proof.
  revert hashes w. induction paths as [|path paths IH]; intros hashes w.
  { exists []. repeat split; constructor. }
  cbn [load_paths].
  destruct (DumpOpener.__init__ path _ None true w) as [[self|e] w1];
    [|exists []; repeat split; constructor].
  destruct (DumpOpener.__enter__ self) as [f|wr];
    [|exists []; repeat split; constructor].
  destruct (load_file _ f (Some hashes)) as [[objs ending] [f' seen']] eqn:Hload.
  destruct (load_file_hashes _ _ _ _ _ _ _ Hload) as (hs1 & Hhs & Hnodup & Hfresh & ->).
  assert (Hstop : ∀ e (w2 : world),
            ∃ hs, Forall2 (λ d h, DumpReader.canonical_hash d = Ok h)
                    (gen_items (fst (yield_all objs (Raise e), w2))) hs
                  ∧ NoDup hs ∧ Forall (λ h, h ∉ hashes) hs).
  { intros e w2. exists hs1. cbn [fst]. rewrite gen_items_yield_all_app. cbn.
    by rewrite app_nil_r. }
  destruct (DumpOpener.__exit__ _ w1) as [[[]|e] w2]; [|apply Hstop].
  destruct ending as [e|]; [apply Hstop|].
  destruct (IH (list_to_set hs1 ∪ hashes) w2) as (hs2 & Hhs2 & Hnodup2 & Hfresh2).
  destruct (load_paths paths _ w2) as [g w3]. cbn [fst] in *.
  exists (hs1 ++ hs2). rewrite gen_items_yield_all_app. repeat split.
  - by apply Forall2_app.
  - apply NoDup_app. split; [done|]. split; [|done].
    intros x Hx Hx2. rewrite Forall_forall in Hfresh2. apply (Hfresh2 x Hx2).
    apply elem_of_union. left. by apply elem_of_list_to_set.
  - apply Forall_app. split; [done|]. eapply Forall_impl; [exact Hfresh2|].
    intros x Hx Hxin. apply Hx. apply elem_of_union. by right.
Qed.

(** X19: with [unique], the documents [load] yields, over all files,
    have pairwise distinct canonical hashes. *)
Theorem load_yields_no_repeats (glob_glob : pystr → list pystr)
    (input_glob : pystr) (w : world) :
  ∃ hs, Forall2 (λ d h, DumpReader.canonical_hash d = Ok h)
          (gen_items (fst (load glob_glob input_glob true w))) hs
        ∧ NoDup hs.
Proof.
  destruct (load_paths_hashes (sorted (glob_glob (abspath input_glob))) ∅ w)
    as (hs & Hhs & Hnodup & _).
  by exists hs.
Qed.

(** *** One file: the reader has dropped the repeats already *)

Lemma load_file_flag (turns : nat) (f f' : DumpReader.t) (read shown : gset Z)
    (objs : list json.value) (ending : option exn) (seen' : option (gset Z)) :
  DumpReader.seen f = Some read →
  shown ⊆ read →
  load_file turns f None = (objs, ending, (f', seen')) →
  ∃ shown', load_file turns f (Some shown) = (objs, ending, (f', Some shown')).
Proof.
  revert f read shown objs. induction turns as [|turns IH];
    intros f read shown objs Hseen Hsub; cbn [load_file].
  - intros [= <- <- <- <-]. by eexists.
  - destruct (DumpReader.__next__ f) as [[obj|e] f1] eqn:Hnext.
    + apply next_ok in Hnext as (_ & _ & _ & Hseen1). rewrite Hseen in Hseen1.
      destruct Hseen1 as (h & -> & Hnew & Hseen1).
      destruct (load_file turns f1 None) as [[objs1 ending1] [f2 seen2]] eqn:Hload.
      intros [= <- <- <- <-].
      rewrite bool_decide_eq_false_2 by (intros Hin; by apply Hnew, Hsub).
      edestruct (IH f1 ({[h]} ∪ read) ({[h]} ∪ shown)) as (shown' & ->); [done| |done|].
      * intros x [Hx|Hx]%elem_of_union; apply elem_of_union; [by left|right; by apply Hsub].
      * by eexists.
    + destruct e; intros [= <- <- <- <-]; by eexists.
Qed.

(** X20: when the pattern matches one file, [load] yields the same
    with [unique=False] as with [unique=True]: [DumpOpener(path)] builds
    its reader with dedup on, so the repeats within a file are dropped
    before [load] looks at [unique]. *)
Theorem load_of_one_file_ignores_unique (glob_glob : pystr → list pystr)
    (input_glob path : pystr) (w : world) :
  glob_glob (abspath input_glob) = [path] →
  load glob_glob input_glob false w = load glob_glob input_glob true w.
Proof.
  intros Hglob. unfold load. rewrite Hglob.
  cbn [sorted fold_right insert_sorted load_paths].
  destruct (fs w !! abspath path) as [data|] eqn:Hdata.
  - destruct (init_read_ok path None true w data Hdata)
      as (w' & r & -> & _ & _ & Hseen & _).
    cbn [DumpOpener.__enter__ DumpOpener.rw_obj].
    destruct (load_file _ r None) as [[objs ending] [f' seen']] eqn:Hload.
    destruct (load_file_flag _ _ _ ∅ ∅ _ _ _ Hseen ltac:(done) Hload) as (shown' & ->).
    done.
  - rewrite (missing_file_not_found path (str "r") None true w Hdata); [done|by left].
Qed.

(** *** The order in which [glob] lists the files does not matter *)

Lemma str_ltb_irrefl (a : pystr) : str_ltb a a = false.
Proof.
  induction a as [|c a IH]; [done|]. cbn. rewrite N.ltb_irrefl, N.eqb_refl. done.
Qed.

Lemma str_ltb_trans (a b c : pystr) :
  str_ltb a b = true → str_ltb b c = true → str_ltb a c = true.
Proof.
  revert b c. induction a as [|x a IH]; intros [|y b] [|z c]; cbn; try done.
  rewrite !orb_true_iff, !andb_true_iff, !N.ltb_lt, !N.eqb_eq.
  intros [Hxy|[-> Hab]] [Hyz|[-> Hbc]].
  - left. lia.
  - by left.
  - by left.
  - right. split; [done|]. by eapply IH.
Qed.

Lemma str_ltb_total (a b : pystr) :
  str_ltb a b = false → str_ltb b a = false → a = b.
Proof.
  revert b. induction a as [|x a IH]; intros [|y b]; cbn; try done.
  rewrite !orb_false_iff, !andb_false_iff, !N.ltb_ge, !N.eqb_neq.
  intros [Hxy Hab] [Hyx Hba].
  assert (x = y) as -> by lia. f_equal. apply IH.
  - by destruct Hab.
  - by destruct Hba.
Qed.

#[local] Instance str_le_antisymm : AntiSymm (=) str_le.
Proof. intros a b Hab Hba. by apply str_ltb_total. Qed.

Lemma insert_sorted_perm (p : pystr) (paths : list pystr) :
  insert_sorted p paths ≡ₚ p :: paths.
Proof.
  induction paths as [|q paths IH]; [done|]. cbn.
  destruct (str_ltb p q); [done|]. rewrite IH. apply Permutation_swap.
Qed.

Lemma sorted_perm (paths : list pystr) : sorted paths ≡ₚ paths.
Proof.
  induction paths as [|p paths IH]; [done|]. cbn.
  by rewrite insert_sorted_perm, IH.
Qed.

Lemma insert_sorted_sorted (p : pystr) (paths : list pystr) :
  StronglySorted str_le paths → StronglySorted str_le (insert_sorted p paths).
Proof.
  induction 1 as [|q paths Hsorted IH Hq]; cbn.
  - by repeat constructor.
  - destruct (str_ltb p q) eqn:Hpq.
    + constructor; [by constructor|]. constructor.
      * unfold str_le. destruct (str_ltb q p) eqn:Hqp; [|done].
        by rewrite <- (str_ltb_irrefl p), <- (str_ltb_trans p q p Hpq Hqp).
      * eapply Forall_impl; [exact Hq|]. intros x Hx. unfold str_le in *.
        destruct (str_ltb x p) eqn:Hxp; [|done].
        by rewrite <- Hx, (str_ltb_trans x p q Hxp Hpq).
    + constructor; [done|].
      rewrite insert_sorted_perm. by constructor.
Qed.

Lemma sorted_sorted (paths : list pystr) : StronglySorted str_le (sorted paths).
Proof.
  induction paths as [|p paths IH]; [constructor|]. by apply insert_sorted_sorted.
Qed.

Lemma sorted_of_perm (l1 l2 : list pystr) : l1 ≡ₚ l2 → sorted l1 = sorted l2.
Proof.
  intros Hperm. apply (StronglySorted_unique str_le); try apply sorted_sorted.
  by rewrite !sorted_perm.
Qed.

(** X21: [load] reads the files in sorted order of their paths, so the
    order in which [glob] lists them does not matter. *)
Theorem load_ignores_order_of_glob (glob1 glob2 : pystr → list pystr)
    (input_glob : pystr) (unique : bool) (w : world) :
  glob1 (abspath input_glob) ≡ₚ glob2 (abspath input_glob) →
  load glob1 input_glob unique w = load glob2 input_glob unique w
  ∧ StronglySorted str_le (sorted (glob1 (abspath input_glob))).
Proof.
  intros Hperm. unfold load. rewrite (sorted_of_perm _ _ Hperm).
  split; [done|apply sorted_sorted].
Qed.

(** ** Files written, then read *)

Section FurtherRoundtrip.

Context {laws : FloatLaws env}.














End FurtherRoundtrip.

End Further.

(** * The model run on the sample runtime *)

(** C1, where the code departs from it: a [dump] of five documents whose
    third cannot be encoded raises [ValueError], and [__exit__], which
    runs all the same and does not look at the exception, removes the
    final path and renames the staging file onto it. The final path held
    [old]; it now holds the first two documents, and no staging file is
    left. *)
Theorem failed_dump_replaces_destination :
  let result :=
    DumpOpener.dump (env := sample_env)
      [doc_a; doc_list; doc_nan; doc_a; doc_list] out_path true true
      world_with_old in
  fst result = Err ValueError
  ∧ fs (snd result) !! out_path = Some (PlainText two_documents)
  ∧ fs (snd result) !! (out_path ++ str ".partial") = None
  ∧ log (snd result) =
      [EvOpen (out_path ++ str ".partial") WT false;
       EvRemove out_path;
       EvRename (out_path ++ str ".partial") out_path].
Proof. vm_compute. repeat split; reflexivity. Qed.

(** C7, where the code departs from it: a file name ending in [.gz]
    opened for writing with the override [False]. The name sets
    [self.gz] to [True], but the staging file is opened as plain text,
    with no gzip in between, and the writer is bound to the value
    [True]: the first write raises [AttributeError], [__exit__] raises
    it again on closing [self.gz], nothing reaches the final path, and
    the staging file is left behind, empty. *)
Theorem gz_name_with_override_false_is_not_gzip :
  let path := str "/data/out.gz" in
  let w := {| fs := ∅; log := [] |} in
  let result :=
    DumpOpener.with_open (env := sample_env) path (str "w") (Some false) true
      (DumpOpener.rw_writemany [doc_a]) w in
  endswith (basename path) (str ".gz") = true
  ∧ match DumpOpener.__init__ (env := sample_env) path (str "w") (Some false) true w
    with
    | (Ok self, w') =>
        h_gzip (DumpOpener.file_obj self) = false
        ∧ h_mode (DumpOpener.file_obj self) = WT
        ∧ DumpOpener.gz self = DumpOpener.GzTrue
        ∧ DumpOpener.rw_obj self =
            DumpOpener.Writer
              (DumpWriter.__init__ PyTrue default_separator true (Some 4%Z))
        ∧ fst (DumpOpener.__exit__ self w') = Err AttributeError
    | (Err _, _) => False
    end
  ∧ fst (DumpWriter.write (env := sample_env)
           (DumpWriter.__init__ PyTrue default_separator true (Some 4%Z)) doc_a)
    = Err AttributeError
  ∧ fst result = Err AttributeError
  ∧ fs (snd result) !! path = None
  ∧ fs (snd result) !! (path ++ str ".partial") = Some (PlainText [])
  ∧ log (snd result) = [EvOpen (path ++ str ".partial") WT false].
Proof. vm_compute. repeat split; reflexivity. Qed.

(** C10 on an input that starts with a sentinel line. *)
Lemma empty_chunk_raises_witness :
  DumpReader.__next__ (env := sample_env)
    (DumpReader.__init__ [str "--" ++ [newline]] (str "--") true false)
  = (Err JSONDecodeError,
     DumpReader.with_reader
       (DumpReader.__init__ [str "--" ++ [newline]] (str "--") true false)
       (_reader [] (str "--"))).
Proof.
  exact (proj1 (empty_chunk_raises (env := sample_env)
                  (DumpReader.__init__ [str "--" ++ [newline]] (str "--") true false)
                  (str "--") [] [] (str "--" ++ [newline])
                  eq_refl eq_refl eq_refl eq_refl)).
Defined.

(** C4 on the document [{"a": 1}]. *)
Lemma write_twice_writes_once_witness :
  ∃ text w1,
    json.dumps doc_a (Some 4%Z) = Ok text
    ∧ DumpWriter.write
        (DumpWriter.__init__ (TextFile []) (str "--") true (Some 4%Z)) doc_a
      = (Ok true, w1)
    ∧ DumpWriter.write w1 doc_a = (Ok false, w1).
Proof.
  destruct (write_twice_writes_once (env := sample_env) [] (str "--")
              (Some 4%Z) doc_a eq_refl)
    as (text & w1 & Hdumps & Hfirst & _ & _ & _ & Hsecond).
  exists text, w1. split; [exact Hdumps|]. split; [exact Hfirst|exact Hsecond].
Defined.

Lemma sample_hash_tells_apart :
  sample_hash (canonical_object "a" "1") ≠ sample_hash (canonical_object "b" "2").
Proof. vm_compute. discriminate. Qed.

(** C5 with the sample hash, which tells the two documents apart. *)
Lemma dedup_read_skips_seen_witness :
  ∃ r,
    DumpReader.read (env := sample_env)
      (DumpReader.__init__ (readlines repeated_input) default_separator true false)
      (-1)
    = (Ok [json.JDict [(str "a", json.JInt 1)];
           json.JDict [(str "b", json.JInt 2)]], r)
    ∧ DumpReader.obj_num r = 2%Z.
Proof.
  exact (proj1 (dedup_read_skips_seen (env := sample_env)
                  sample_hash_tells_apart)).
Defined.

(** The sample runtime's floats print as JSON literals and read back. *)
Lemma sample_float_laws : FloatLaws sample_env.
Proof.
  split.
  - intros [| | |] Hfinite; try discriminate Hfinite; vm_compute; reflexivity.
  - intros [| | |] Hfinite; try discriminate Hfinite; vm_compute; reflexivity.
Qed.

(** C3 on the documents [{"a": 1}] and [[2]], written with the default
    indent of four spaces. *)
Lemma write_then_read_roundtrip_witness :
  ∃ w r,
    DumpWriter.writemany
      (DumpWriter.__init__ (TextFile []) default_separator false (Some 4%Z))
      [doc_a; doc_list]
    = (Ok 2%Z, w)
    ∧ DumpWriter.file_obj w = TextFile two_documents
    ∧ DumpReader.read
        (DumpReader.__init__ (readlines two_documents) default_separator
           false false) (-1)
      = (Ok [doc_a; doc_list], r)
    ∧ DumpReader.obj_num r = 2%Z.
Proof.
  destruct (write_then_read_roundtrip (env := sample_env)
              (laws := sample_float_laws) [doc_a; doc_list] (Some 4%Z))
    as (w & text & r & Hwrite & Hfile & Hread & _ & Hnum & _).
  { repeat constructor. }
  exists w, r. vm_compute in Hwrite. injection Hwrite as <-.
  vm_compute in Hfile. injection Hfile as <-.
  split; [reflexivity|]. split; [reflexivity|].
  split; [exact Hread|exact Hnum].
Defined.

(** The round trip rests on the sentinel: no line of an encoding is
    [--], but with a closing bracket for sentinel the last line of the
    indented [[2]] is one, and reading back what was written fails on
    the chunk cut short there. *)
Lemma bracket_sentinel_splits_document :
  let text :=
    str "[" ++ [newline] ++ str "    2" ++ [newline] ++ str "]" ++ [newline]
    ++ str "]" ++ [newline] in
  let written :=
    DumpWriter.writemany (env := sample_env)
      (DumpWriter.__init__ (TextFile []) (str "]") false (Some 4%Z))
      [doc_list] in
  fst written = Ok 1%Z
  ∧ DumpWriter.file_obj (snd written) = TextFile text
  ∧ fst (DumpReader.read (env := sample_env)
           (DumpReader.__init__ (readlines text) (str "]") false false) (-1))
    = Err JSONDecodeError.
Proof.
  cbv zeta. split; [vm_compute; reflexivity|].
  split; [vm_compute; reflexivity|]. reflexivity.
Qed.

(** ** The further properties on the sample runtime *)

(** X2 on the default sentinel and a line that ends in [\r\n]. *)
Lemma sentinel_line_iff_witness :
  is_separator default_separator (str "--" ++ [creturn; newline]) = true
  ↔ ∃ eol, str "--" ++ [creturn; newline] = default_separator ++ eol
           ∧ Forall (λ c, c = creturn ∨ c = newline) eol.
Proof.
  apply (sentinel_line_iff default_separator (str "--" ++ [creturn; newline])).
  reflexivity.
Defined.

(** X3 on a sentinel with its newline. *)
Lemma sentinel_with_line_break_is_never_found_witness :
  gen_items (_reader (readlines two_documents) (str "--" ++ [newline])) = [].
Proof.
  apply (sentinel_with_line_break_is_never_found
           (str "--" ++ [newline]) (readlines two_documents)).
  vm_compute. discriminate.
Defined.

(** X4 on a read of one document out of two. *)
Lemma read_counts_witness :
  (Z.of_nat (length [doc_a]) ≤ 1)%Z
  ∧ DumpReader.obj_num (snd (DumpReader.read (env := sample_env) sample_reader 1)) = 1%Z.
Proof.
  destruct (read_counts (env := sample_env) sample_reader (snd (DumpReader.read (env := sample_env) sample_reader 1)) 1
              [doc_a] eq_refl) as (Hmost & _ & Hnum & _).
  split; [apply Hmost; lia|exact Hnum].
Defined.

(** X5 on a read of one document and then of the rest. *)
Lemma read_in_two_steps_witness :
  fst (DumpReader.read (env := sample_env) sample_reader (-1)) = Ok ([doc_a] ++ [doc_list]).
Proof.
  pose proof (read_in_two_steps (env := sample_env) sample_reader
                (snd (DumpReader.read (env := sample_env) sample_reader 1))
                (snd (DumpReader.read (env := sample_env) (snd (DumpReader.read (env := sample_env) sample_reader 1)) (-1)))
                1 (-1) [doc_a] [doc_list] ltac:(lia) eq_refl eq_refl) as Hboth.
  cbn [Z.leb Z.compare] in Hboth. by rewrite Hboth.
Defined.

(** X6 on a read of both documents. *)
Lemma read_all_exhausts_witness :
  DumpReader.read (env := sample_env) (snd (DumpReader.read (env := sample_env) sample_reader (-1))) 5
  = (Ok [], snd (DumpReader.read (env := sample_env) sample_reader (-1))).
Proof.
  apply (read_all_exhausts (env := sample_env) sample_reader (snd (DumpReader.read (env := sample_env) sample_reader (-1)))
           [doc_a; doc_list] (-1) ltac:(lia) eq_refl).
Defined.

(** X7 on the scenario's input: two documents come back, with two
    hashes. *)
Lemma dedup_read_no_repeats_witness :
  ∃ hs, Forall2 (λ d h, DumpReader.canonical_hash (env := sample_env) d = Ok h)
          [json.JDict [(str "a", json.JInt 1)]; json.JDict [(str "b", json.JInt 2)]]
          hs
        ∧ NoDup hs.
Proof.
  destruct (dedup_read_no_repeats (env := sample_env) sample_dedup_reader
              (snd (DumpReader.read (env := sample_env) sample_dedup_reader (-1)))
              (-1)
              [json.JDict [(str "a", json.JInt 1)]; json.JDict [(str "b", json.JInt 2)]]
              ∅ eq_refl eq_refl) as (hs & Hhs & Hnodup & _).
  by exists hs.
Defined.

(** X8 on the scenario's input. *)
Lemma dedup_read_keeps_first_witness :
  ∃ r',
    DumpReader.read (env := sample_env) sample_dedup_reader (-1)
    = (Ok [json.JDict [(str "a", json.JInt 1)]; json.JDict [(str "b", json.JInt 2)]],
       r').
Proof.
  destruct (dedup_read_keeps_first (env := sample_env) (readlines repeated_input)
              default_separator false
              [json.JDict [(str "a", json.JInt 1)];
               json.JDict [(str "a", json.JInt 1)];
               json.JDict [(str "b", json.JInt 2)]]
              (snd (DumpReader.read (env := sample_env)
                      (DumpReader.__init__ (readlines repeated_input)
                         default_separator false false) (-1)))
              eq_refl ltac:(repeat constructor)) as (r' & Hread & _).
  exists r'. exact Hread.
Defined.

(** X9 on three documents, one of them twice, with dedup on. *)
Lemma writemany_counts_witness :
  DumpWriter.obj_num
    (snd (DumpWriter.writemany (env := sample_env) (sample_writer true)
            [doc_a; doc_a; doc_list]))
  = 2%Z.
Proof.
  destruct (writemany_counts (env := sample_env) (sample_writer true)
              (snd (DumpWriter.writemany (env := sample_env) (sample_writer true)
                      [doc_a; doc_a; doc_list]))
              [doc_a; doc_a; doc_list] 2 eq_refl) as (_ & Hnum & _).
  exact Hnum.
Defined.

(** X11 on four documents, the third of them [nan]. *)
Lemma writemany_stops_at_first_error_witness :
  ∃ self1,
    DumpWriter.writemany (env := sample_env) (sample_writer false)
      ([doc_a; doc_list] ++ doc_nan :: [doc_a])
    = (Err ValueError, self1)
    ∧ DumpWriter.file_obj self1 = TextFile two_documents.
Proof.
  destruct (writemany_stops_at_first_error (env := sample_env) (sample_writer false)
              [doc_a; doc_list] [doc_a] doc_nan [] eq_refl
              ltac:(repeat constructor) eq_refl) as (n & self1 & Hgood & Hall).
  exists self1. split; [exact Hall|].
  vm_compute in Hgood. by injection Hgood as _ <-.
Defined.

(** X12 on two documents. *)
Lemma dedup_writemany_again_writes_nothing_witness :
  let self' := snd (DumpWriter.writemany (env := sample_env) (sample_writer true)
                      [doc_a; doc_list]) in
  DumpWriter.writemany (env := sample_env) self' [doc_a; doc_list] = (Ok 0%Z, self').
Proof.
  exact (dedup_writemany_again_writes_nothing (env := sample_env)
           (sample_writer true) _ [doc_a; doc_list] 2 ∅ eq_refl eq_refl).
Defined.

(** X13 on a document given twice. *)
Lemma dedup_writemany_writes_new_only_witness :
  ∃ self',
    DumpWriter.writemany (env := sample_env) (sample_writer true) [doc_a; doc_a]
    = (Ok 1%Z, self').
Proof.
  destruct (dedup_writemany_writes_new_only (env := sample_env) (sample_writer true)
              [doc_a; doc_a] ∅ [] eq_refl eq_refl ltac:(repeat constructor))
    as (self' & Hw & _).
  exists self'. exact Hw.
Defined.

(** X14 on the mode [rw]. *)
Lemma unsupported_mode_changes_no_file_witness :
  ∃ e w',
    DumpOpener.__init__ (env := sample_env) out_path (str "rw") None true
      world_with_old = (Err e, w')
    ∧ fs w' = fs world_with_old.
Proof.
  destruct (unsupported_mode_changes_no_file (env := sample_env) out_path (str "rw")
              None true world_with_old
              ltac:(discriminate) ltac:(discriminate) ltac:(discriminate)
              ltac:(discriminate)) as (e & w' & Hinit & Hfs & _).
  by exists e, w'.
Defined.


(** X17 on a file that holds the first sample document. *)
Lemma append_extends_file_witness :
  ∃ w',
    DumpOpener.with_open (env := sample_env) out_path (str "a") None false
      (DumpOpener.rw_writemany [doc_list])
      {| fs := {[out_path := PlainText (written_text (Some 4%Z) [doc_a])]};
         log := [] |}
    = (Ok 1%Z, w')
    ∧ fs w' !! out_path = Some (PlainText two_documents).
Proof.
  destruct (append_extends_file (env := sample_env) [doc_list] out_path false false
              (written_text (Some 4%Z) [doc_a])
              {| fs := {[out_path := PlainText (written_text (Some 4%Z) [doc_a])]};
                 log := [] |}
              ltac:(repeat constructor) ltac:(repeat constructor)
              ltac:(vm_compute; reflexivity))
    as (w' & Hopen & Hfs).
  exists w'. split; [exact Hopen|]. rewrite Hfs. vm_compute. reflexivity.
Defined.

(** X20 on a pattern that matches the sample file. *)
Lemma load_of_one_file_ignores_unique_witness :
  load (env := sample_env) (glob_of [out_path]) out_path false world_with_old
  = load (env := sample_env) (glob_of [out_path]) out_path true world_with_old.
Proof.
  exact (load_of_one_file_ignores_unique (env := sample_env) (glob_of [out_path])
           out_path out_path world_with_old eq_refl).
Defined.

(** X21 on two files listed in either order. *)
Lemma load_ignores_order_of_glob_witness :
  load (env := sample_env) (glob_of [str "/data/b"; str "/data/a"]) out_path true
    world_with_old
  = load (env := sample_env) (glob_of [str "/data/a"; str "/data/b"]) out_path true
      world_with_old.
Proof.
  apply (load_ignores_order_of_glob (env := sample_env)
           (glob_of [str "/data/b"; str "/data/a"])
           (glob_of [str "/data/a"; str "/data/b"]) out_path true world_with_old).
  apply Permutation_swap.
Defined.



(** X24 on [nan_input]. *)
Lemma dedup_next_rejects_non_finite_witness :
  fst (DumpReader.__next__ (env := sample_env)
         (DumpReader.__init__ (readlines nan_input) default_separator true false))
  = Err ValueError
  ∧ fst (DumpReader.__next__ (env := sample_env)
           (DumpReader.__init__ (readlines nan_input) default_separator false false))
    = Ok doc_nan.
Proof.
  split.
  - by rewrite (dedup_next_rejects_non_finite (env := sample_env)
                  (DumpReader.__init__ (readlines nan_input) default_separator true false)
                  [str "NaN" ++ [newline]] Return doc_nan eq_refl eq_refl eq_refl).
  - by rewrite (dedup_next_rejects_non_finite (env := sample_env)
                  (DumpReader.__init__ (readlines nan_input) default_separator false false)
                  [str "NaN" ++ [newline]] Return doc_nan eq_refl eq_refl eq_refl).
Defined.

(** What [utf8] cannot encode is refused: a [dump] of a document whose
    text holds a lone surrogate raises ([UnicodeEncodeError]) at the
    first write, where the same write to a text stream that takes any
    text returns. *)
Lemma lone_surrogate_is_refused :
  encodable doc_surrogate = false
  ∧ fst (DumpOpener.dump (env := sample_env) [doc_surrogate] out_path true true
           world_with_old) = Err ValueError
  ∧ fst (DumpWriter.write (env := sample_env) (sample_writer true) doc_surrogate)
    = Ok true.
Proof. vm_compute. repeat split; reflexivity. Qed.
